(** * alko-mcp: catalogue search, sync, bootstrap and scraping glue

    A shallow embedding of the TypeScript services of the repository
    (src/services/firestore.ts, src/services/data-sync.ts,
    src/services/scraper.ts, src/tools/get-availability.ts,
    src/tools/get-product.ts, src/tools/get-store-hours.ts) together with
    the properties that the design document states about them.

    Conventions.
    - A JavaScript string is a [string]: a sequence of code units below 256
      (the Latin-1 range, which holds the Finnish alphabet of the
      catalogue).  On that range [toLowerCase], [includes] and the
      whitespace class of regular expressions are the ECMAScript ones.
    - [null] and [undefined] are [None].
    - The document store, the browser and the clock are external: the
      store is a finite map from document ids to documents, the browser
      an oracle, the clock a sequence of readings. *)

From Stdlib Require Import ZArith QArith_base Ascii String.
From stdpp Require Import base option list strings gmap.

Local Open Scope string_scope.
Local Open Scope Z_scope.

(** ** JavaScript strings and arrays *)

Module Js.

(** Code units 9..13, 32 and 160: the members of [\s] below 256. *)
Definition isWhiteSpace (c : ascii) : bool :=
  let n := N_of_ascii c in
  ((9 <=? n) && (n <=? 13) || (n =? 32) || (n =? 160))%N.

(** Default case conversion on one code unit: A..Z, and the capital
    letters U+00C0..U+00DE except the multiplication sign U+00D7. *)
Definition lowerChar (c : ascii) : ascii :=
  let n := N_of_ascii c in
  if ((65 <=? n) && (n <=? 90)
      || (192 <=? n) && (n <=? 222) && negb (n =? 215))%N
  then ascii_of_N (n + 32) else c.

(** [s.toLowerCase()] *)
Fixpoint toLowerCase (s : string) : string :=
  match s with
  | EmptyString => EmptyString
  | String c s' => String (lowerChar c) (toLowerCase s')
  end.

(** [t] is a prefix of [s]. *)
Fixpoint startsWith (s t : string) : bool :=
  match t, s with
  | EmptyString, _ => true
  | String _ _, EmptyString => false
  | String c t', String d s' => Ascii.eqb c d && startsWith s' t'
  end.

(** [s.includes(t)] *)
Fixpoint includes (s t : string) : bool :=
  startsWith s t ||
  match s with
  | EmptyString => false
  | String _ s' => includes s' t
  end.

(** [s.split(/\s+/)]: the pieces between maximal runs of white space; a
    run at either end leaves an empty piece there, and the empty string
    splits into one empty piece. *)
Fixpoint splitWhiteSpace (s : string) : list string :=
  match s with
  | EmptyString => [EmptyString]
  | String c s' =>
      let r := splitWhiteSpace s' in
      if isWhiteSpace c then
        match s' with
        | String d _ => if isWhiteSpace d then r else EmptyString :: r
        | EmptyString => EmptyString :: r
        end
      else
        match r with
        | h :: t => String c h :: t
        | [] => [String c EmptyString]
        end
  end.

(** A property of a stored document that can be missing
    ([undefined]), [null] or a value. *)
Inductive Nullable (A : Type) :=
| Undefined
| Null
| Present (a : A).
Arguments Undefined {A}.
Arguments Null {A}.
Arguments Present {A} a.

(** A value that is [null] or present, as a property. *)
Definition ofOption {A} (v : option A) : Nullable A :=
  match v with Some a => Present a | None => Null end.

(** [v !== null]: true of a missing property as well. *)
Definition notNull {A} (v : Nullable A) : bool :=
  match v with Null => false | _ => true end.

(** A string is truthy when it is not empty. *)
Definition truthy (s : string) : bool :=
  match s with EmptyString => false | _ => true end.

(** [if (v)] on an optional string: present and not empty. *)
Definition truthyOpt (v : option string) : option string :=
  match v with
  | Some s => if truthy s then Some s else None
  | None => None
  end.

(** [xs.filter(Boolean)] on an array of [string | null]. *)
Fixpoint filterBoolean (xs : list (option string)) : list string :=
  match xs with
  | [] => []
  | Some s :: xs' => if truthy s then s :: filterBoolean xs' else filterBoolean xs'
  | None :: xs' => filterBoolean xs'
  end.

(** [xs.join(sep)] *)
Fixpoint join (sep : string) (xs : list string) : string :=
  match xs with
  | [] => EmptyString
  | [x] => x
  | x :: xs' => x ++ sep ++ join sep xs'
  end.

(** [xs.every(p)] *)
Definition every {A} (p : A -> bool) (xs : list A) : bool := forallb p xs.

(** [xs.some(p)] *)
Definition some {A} (p : A -> bool) (xs : list A) : bool := existsb p xs.

(** [xs.slice(start, end)] for integers [0 <= start]. *)
Definition slice {A} (xs : list A) (start stop : nat) : list A :=
  take (stop - start)%nat (drop start xs).

(** [xs.sort(cmp)]: the sort is stable; [x] goes in front of the first
    element it does not follow.  For a comparator that is a total
    preorder every stable sort returns this list. *)
Fixpoint insertBy {A} (cmp : A -> A -> Z) (x : A) (l : list A) : list A :=
  match l with
  | [] => [x]
  | y :: l' => if cmp x y <=? 0 then x :: y :: l' else y :: insertBy cmp x l'
  end.

Fixpoint sortBy {A} (cmp : A -> A -> Z) (l : list A) : list A :=
  match l with
  | [] => []
  | x :: l' => insertBy cmp x (sortBy cmp l')
  end.

(** A list whose keys never increase from left to right. *)
Fixpoint descending {A} (key : A -> Z) (l : list A) : Prop :=
  match l with
  | [] => True
  | x :: l' => Forall (fun y => key y <= key x) l' /\ descending key l'
  end.

End Js.

(** ** Catalogue items (src/types/product.ts) *)

(** Firestore [Timestamp]: microseconds since the epoch. *)
Definition Timestamp := Z.

(** [Product]; numbers that are prices or measurements are rationals.
    A nullable property is an [option]: the code treats [null] and a
    missing key alike, except for [smokiness], which [getProduct]
    compares with [null]. *)
Record Product := mkProduct {
  id : string;
  name : string;
  producer : string;
  ean : string;
  price : Q;
  pricePerLiter : Q;
  bottleSize : string;
  packagingType : option string;
  closureType : option string;
  type : string;
  subtype : option string;
  specialGroup : option string;
  beerType : option string;
  sortCode : Z;
  country : string;
  region : option string;
  vintage : option Z;
  grapes : option string;
  labelNotes : option string;
  description : option string;
  notes : option string;
  tasteProfile : option string;
  usageTips : option string;
  servingSuggestion : option string;
  foodPairings : option (list string);
  certificates : option (list string);
  ingredients : option string;
  smokiness : Js.Nullable Z;
  smokinessLabel : option string;
  alcoholPercentage : Q;
  acids : option Q;
  sugar : option Q;
  energy : option Q;
  originalGravity : option Q;
  colorEBC : option Q;
  bitternessEBU : option Q;
  assortment : string;
  isNew : bool;
  updatedAt : Timestamp;
  createdAt : Timestamp;
}.

(** ** The search engine (src/services/firestore.ts) *)

Module Search.

(** One score rule: the phrase, or else every word, occurs in [field]. *)
Definition hasPhrase (field queryLower : string) : bool :=
  Js.includes field queryLower.

Definition hasAllWords (field : string) (queryWords : list string) : bool :=
  Js.every (fun word => Js.includes field word) queryWords.

(** The [for (const field of otherFields)] loop. *)
Fixpoint scoreOtherFields (otherFields : list string)
    (queryLower : string) (queryWords : list string) : Z :=
  match otherFields with
  | [] => 20
  | field :: rest =>
      if hasPhrase field queryLower then 40
      else if hasAllWords field queryWords then 30
      else scoreOtherFields rest queryLower queryWords
  end.

Definition otherFieldsOf (product : Product) : list string :=
  map Js.toLowerCase
    (Js.filterBoolean
       [Some (country product); region product; Some (type product);
        subtype product; description product; grapes product]).

(** [FirestoreService.calculateRelevanceScore] *)
Definition calculateRelevanceScore (product : Product)
    (queryLower : string) (queryWords : list string) : Z :=
  let nameLower := Js.toLowerCase (name product) in
  let producerLower := Js.toLowerCase (producer product) in
  if hasPhrase nameLower queryLower then 100
  else if hasAllWords nameLower queryWords then 80
  else if hasPhrase producerLower queryLower then 60
  else if hasAllWords producerLower queryWords then 50
  else scoreOtherFields (otherFieldsOf product) queryLower queryWords.

(** The priority list as the documentation gives it: seven rules, tried
    in this order, the first that applies decides. *)
Definition priorityScore (product : Product)
    (queryLower : string) (queryWords : list string) : Z :=
  let nameLower := Js.toLowerCase (name product) in
  let producerLower := Js.toLowerCase (producer product) in
  let others := otherFieldsOf product in
  if hasPhrase nameLower queryLower then 100
  else if hasAllWords nameLower queryWords then 80
  else if hasPhrase producerLower queryLower then 60
  else if hasAllWords producerLower queryWords then 50
  else if Js.some (fun field => hasPhrase field queryLower) others then 40
  else if Js.some (fun field => hasAllWords field queryWords) others then 30
  else 20.

(** *** Filters, options and the store query *)

Inductive SortField := SortPrice | SortName | SortAlcohol | SortPricePerLiter.
Inductive SortOrder := Asc | Desc.

Record ProductSearchFilters := mkFilters {
  f_query : option string;
  f_type : option string;
  f_country : option string;
  f_region : option string;
  f_minPrice : option Q;
  f_maxPrice : option Q;
  f_minAlcohol : option Q;
  f_maxAlcohol : option Q;
  f_assortment : option string;
  f_specialGroup : option string;
  f_beerType : option string;
  f_isNew : option bool;
  f_isOrganic : option bool;
  f_isVegan : option bool;
  f_minSmokiness : option Z;
  f_maxSmokiness : option Z;
}.

Record ProductSearchOptions := mkOptions {
  o_sortBy : option SortField;
  o_sortOrder : option SortOrder;
  o_limit : option nat;
  o_offset : option nat;
}.

Record ProductSearchResult := mkResult {
  products : list Product;
  total : nat;
  limit : nat;
  offset : nat;
  hasMore : bool;
}.

(** What the query builder accumulates. *)
Inductive Value := VString (s : string) | VBool (b : bool) | VNumber (q : Q).
Inductive Op := OpEq | OpGe | OpLe.

Record Query := mkQuery {
  q_limit : nat;
  q_where : list (string * Op * Value);
  q_orderBy : SortField * SortOrder;
}.

Definition whereIf {A} (v : option A) (field : string) (op : Op)
    (inj : A -> Value) : list (string * Op * Value) :=
  match v with
  | Some a => [(field, op, inj a)]
  | None => []
  end.

Definition fetchLimit (filters : ProductSearchFilters) (limit : nat) : nat :=
  match Js.truthyOpt (f_query filters) with
  | Some _ => (15 * 1000)%nat
  | None => (limit + 1)%nat
  end.

Definition buildQuery (filters : ProductSearchFilters)
    (sortBy : SortField) (sortOrder : SortOrder) (limit : nat) : Query :=
  {| q_limit := fetchLimit filters limit;
     q_where :=
       whereIf (Js.truthyOpt (f_type filters)) "type" OpEq VString
       ++ whereIf (Js.truthyOpt (f_country filters)) "country" OpEq VString
       ++ whereIf (Js.truthyOpt (f_assortment filters)) "assortment" OpEq VString
       ++ whereIf (Js.truthyOpt (f_specialGroup filters)) "specialGroup" OpEq VString
       ++ whereIf (Js.truthyOpt (f_beerType filters)) "beerType" OpEq VString
       ++ whereIf (f_isNew filters) "isNew" OpEq VBool
       ++ whereIf (f_minPrice filters) "price" OpGe VNumber
       ++ whereIf (f_maxPrice filters) "price" OpLe VNumber
       ++ whereIf (f_minAlcohol filters) "alcoholPercentage" OpGe VNumber
       ++ whereIf (f_maxAlcohol filters) "alcoholPercentage" OpLe VNumber;
     q_orderBy := (sortBy, sortOrder) |}.

(** The searchable text of one item. *)
Definition searchableText (p : Product) : string :=
  Js.toLowerCase
    (Js.join " "
       (Js.filterBoolean
          [Some (name p); Some (producer p); Some (country p); region p;
           Some (type p); subtype p; description p; grapes p])).

Definition queryWordsOf (queryLower : string) : list string :=
  List.filter (fun w => (0 <? String.length w)%nat) (Js.splitWhiteSpace queryLower).

Definition matchesQuery (queryWords : list string) (p : Product) : bool :=
  Js.every (fun word => Js.includes (searchableText p) word) queryWords.

Section WithStore.

(** The store answers a built query with the documents of a snapshot. *)
Variable runQuery : Query -> list Product.

(** [a.localeCompare(b, 'fi')]: negative, zero or positive. *)
Variable localeCompare : string -> string -> Z.

Definition compareScored (a b : Product * Z) : Z :=
  if negb (snd b =? snd a) then snd b - snd a
  else localeCompare (name (fst a)) (name (fst b)).

(** The text-search block: match, score, sort, drop the scores. *)
Definition rankByRelevance (query : string) (products : list Product) : list Product :=
  let queryLower := Js.toLowerCase query in
  let queryWords := queryWordsOf queryLower in
  let matchedProducts := List.filter (matchesQuery queryWords) products in
  map fst
    (Js.sortBy compareScored
       (map (fun p => (p, calculateRelevanceScore p queryLower queryWords))
            matchedProducts)).

(** [p.smokiness !== null && p.smokiness >= lo]: a missing value passes
    the first test and fails the comparison. *)
Definition smokinessAtLeast (lo : Z) (p : Product) : bool :=
  match smokiness p with Js.Present s => lo <=? s | _ => false end.

Definition smokinessAtMost (hi : Z) (p : Product) : bool :=
  match smokiness p with Js.Present s => s <=? hi | _ => false end.

(** The list that is counted and sliced: the snapshot after the text
    search and the client-side smokiness filters. *)
Definition postFilter (filters : ProductSearchFilters) (snapshot : list Product)
    : list Product :=
  let products1 :=
    match Js.truthyOpt (f_query filters) with
    | Some query => rankByRelevance query snapshot
    | None => snapshot
    end in
  let products2 :=
    match f_minSmokiness filters with
    | Some lo => List.filter (smokinessAtLeast lo) products1
    | None => products1
    end in
  match f_maxSmokiness filters with
  | Some hi => List.filter (smokinessAtMost hi) products2
  | None => products2
  end.

(** [FirestoreService.searchProducts] *)
Definition searchProducts (filters : ProductSearchFilters)
    (options : ProductSearchOptions) : ProductSearchResult :=
  let sortBy := default SortName (o_sortBy options) in
  let sortOrder := default Asc (o_sortOrder options) in
  let limit := default 20%nat (o_limit options) in
  let offset := default 0%nat (o_offset options) in
  let snapshot := runQuery (buildQuery filters sortBy sortOrder limit) in
  let products := postFilter filters snapshot in
  let total := length products in
  {| products := Js.slice products offset (offset + limit);
     total := total;
     limit := limit;
     offset := offset;
     hasMore := (offset + limit <? total)%nat |}.

End WithStore.

End Search.

(** ** Batch upsert (src/services/firestore.ts) *)

Module Upsert.

(** [{ ...product, createdAt: created, updatedAt: updated }] *)
Definition withTimestamps (product : Product) (created updated : Timestamp)
    : Product :=
  {| id := id product; name := name product; producer := producer product;
     ean := ean product; price := price product;
     pricePerLiter := pricePerLiter product; bottleSize := bottleSize product;
     packagingType := packagingType product; closureType := closureType product;
     type := type product; subtype := subtype product;
     specialGroup := specialGroup product; beerType := beerType product;
     sortCode := sortCode product; country := country product;
     region := region product; vintage := vintage product;
     grapes := grapes product; labelNotes := labelNotes product;
     description := description product; notes := notes product;
     tasteProfile := tasteProfile product; usageTips := usageTips product;
     servingSuggestion := servingSuggestion product;
     foodPairings := foodPairings product; certificates := certificates product;
     ingredients := ingredients product; smokiness := smokiness product;
     smokinessLabel := smokinessLabel product;
     alcoholPercentage := alcoholPercentage product;
     acids := acids product; sugar := sugar product; energy := energy product;
     originalGravity := originalGravity product; colorEBC := colorEBC product;
     bitternessEBU := bitternessEBU product;
     assortment := assortment product; isNew := isNew product;
     updatedAt := updated; createdAt := created |}.

Definition BATCH_SIZE : nat := 500.

(** The [products] collection, the number of clock readings taken so
    far, the write batch being filled and the two counters. *)
Record State := mkState {
  docs : gmap string Product;
  tick : nat;
  batch : list (string * Product);
  added : nat;
  updated : nat;
}.

Section WithClock.

(** [clock k] is what the k-th call of [Timestamp.now()] returns. *)
Variable clock : nat -> Timestamp.

(** The body of [for (const product of chunk)].  [ref.get()] reads the
    committed documents; [batch.set] only queues the write. *)
Definition upsertOne (s : State) (product : Product) : State :=
  match docs s !! id product with
  | Some existingData =>
      {| docs := docs s;
         tick := S (tick s);
         batch := batch s ++
           [(id product,
             withTimestamps product (createdAt existingData) (clock (tick s)))];
         added := added s;
         updated := S (updated s) |}
  | None =>
      {| docs := docs s;
         tick := S (S (tick s));
         batch := batch s ++
           [(id product,
             withTimestamps product (clock (tick s)) (clock (S (tick s))))];
         added := S (added s);
         updated := updated s |}
  end.

(** [batch.commit()]: the queued writes are applied in order. *)
Definition commit (s : State) : State :=
  {| docs := foldl (fun m w => <[w.1 := w.2]> m) (docs s) (batch s);
     tick := tick s;
     batch := [];
     added := added s;
     updated := updated s |}.

(** One round of the outer loop: a fresh batch, the chunk, the commit. *)
Definition upsertChunk (s : State) (chunk : list Product) : State :=
  commit (foldl upsertOne
            {| docs := docs s; tick := tick s; batch := [];
               added := added s; updated := updated s |}
            chunk).

(** [for (let i = 0; i < products.length; i += BATCH_SIZE)], with a
    bound on the number of rounds; [length products] rounds are always
    enough. *)
Fixpoint upsertFrom (rounds i : nat) (products : list Product) (s : State)
    : State :=
  match rounds with
  | O => s
  | S rounds' =>
      if (i <? length products)%nat then
        let chunk := Js.slice products i (i + BATCH_SIZE) in
        upsertFrom rounds' (i + BATCH_SIZE) products (upsertChunk s chunk)
      else s
  end.

(** [FirestoreService.upsertProducts], run on the collection [db] when
    [now] clock readings have been taken. *)
Definition upsertProducts (products : list Product)
    (db : gmap string Product) (now : nat) : State :=
  upsertFrom (length products) 0 products
    {| docs := db; tick := now; batch := []; added := 0; updated := 0 |}.

End WithClock.

End Upsert.

(** *** Vocabulary for the upsert properties *)

Module UpsertSpec.
Import Upsert.

Section WithClock.
Variable clock : nat -> Timestamp.

(** [t] is a clock reading taken in the interval of ticks [a, b). *)
Definition readBetween (a b : nat) (t : Timestamp) : Prop :=
  exists j : nat, (a <= j < b)%nat /\ t = clock j.

(** The document under key [k] was written from an item [p] of [l]: it
    carries the fields of [p], an update time read in [a, b), and either
    the creation time of the document it replaces or one read in [a, b). *)
Definition writtenFrom (a b : nat) (l : list Product) (k : string)
    (before after : option Product) : Prop :=
  exists p q, p ∈ l /\ id p = k /\ after = Some q
    /\ q = withTimestamps p (createdAt q) (updatedAt q)
    /\ readBetween a b (updatedAt q)
    /\ match before with
       | Some e => createdAt q = createdAt e
       | None => readBetween a b (createdAt q)
       end.

Definition known (db : gmap string Product) (p : Product) : bool :=
  bool_decide (is_Some (db !! id p)).

Definition countKnown (db : gmap string Product) (l : list Product) : nat :=
  length (List.filter (known db) l).

(** The ids of [l] that the collection does not hold. *)
Definition newIds (db : gmap string Product) (l : list Product) : gset string :=
  list_to_set (id <$> List.filter (fun p => negb (known db p)) l).

(** What processing the items [l] does to a state. *)
Record Upserted (s : State) (l : list Product) (s' : State) : Prop := {
  up_tick : (tick s <= tick s')%nat;
  up_other : forall k, (forall p, p ∈ l -> id p <> k) ->
             docs s' !! k = docs s !! k;
  up_written : forall k, (exists p, p ∈ l /\ id p = k) ->
               writtenFrom (tick s) (tick s') l k (docs s !! k) (docs s' !! k);
  up_total : (added s' + updated s' = added s + updated s + length l)%nat;
  up_updated_ge : (updated s + countKnown (docs s) l <= updated s')%nat;
  up_added_ge : (added s + size (newIds (docs s) l) <= added s')%nat;
  up_updated_nodup : NoDup (id <$> l) ->
                     updated s' = (updated s + countKnown (docs s) l)%nat;
}.

(** A queued write that was made from an item of [l] by the rule of the
    loop body. *)
Definition goodWrite (db : gmap string Product) (a b : nat)
    (l : list Product) (w : string * Product) : Prop :=
  exists p, p ∈ l /\ w.1 = id p
    /\ w.2 = withTimestamps p (createdAt w.2) (updatedAt w.2)
    /\ readBetween a b (updatedAt w.2)
    /\ match db !! id p with
       | Some e => createdAt w.2 = createdAt e
       | None => readBetween a b (createdAt w.2)
       end.

End WithClock.

End UpsertSpec.

(** ** Outlets (src/types/store.ts) *)

Module Outlet.

(** A JavaScript [Date], by the local-time components that are read. *)
Record Date := mkDate {
  getFullYear : Z;
  getMonth : Z;
  getDate : Z;
  getHours : Z;
}.

Record Store := mkStore {
  id : string;
  name : string;
  city : string;
  address : string;
  postalCode : string;
  coordinates : option (Q * Q);
  storeLink : string;
  phone : option string;
  email : option string;
  openingHoursToday : option string;
  openingHoursTomorrow : option string;
  updatedAt : option Date;
}.

End Outlet.

(** ** Bootstrap (src/services/data-sync.ts, [ensureData]) *)

Module Bootstrap.

Record SeedData := mkSeed {
  version : Z;
  seedProducts : list Product;
  seedStores : list Outlet.Store;
}.

(** Where the asynchronous body of [ensureData] is suspended. *)
Inductive Phase :=
| AwaitCount
| AwaitUpsertProducts (seed : SeedData)
| AwaitUpsertStore (seed : SeedData) (remaining : list Outlet.Store).

Inductive Outcome := Resolved | Rejected.

(** The promise held in [seedDataLoading]. *)
Record InFlight := mkInFlight {
  handle : nat;
  phase : Phase;
}.

(** The two module-level variables, and what an observer can count:
    the operations started, the calls of [loadSeedData], who awaits which
    operation, and which callers have seen their call complete. *)
Record State := mkState {
  seedDataChecked : bool;
  seedDataLoading : option InFlight;
  started : nat;
  loads : nat;
  awaiting : list (nat * nat);
  completed : list (nat * Outcome);
}.

Definition initial : State :=
  {| seedDataChecked := false; seedDataLoading := None; started := 0;
     loads := 0; awaiting := []; completed := [] |}.

(** The program runs to the next [await] without interruption; between
    two awaits one of these happens. *)
Inductive Event :=
| Call (caller : nat)
| CountIs (productCount : nat)
| CountFails
| ProductsUpserted
| ProductsFail
| StoreUpserted
| StoreFails.

Section WithSeed.

(** What [loadSeedData()] returns: [None] when the file is missing or
    cannot be read. *)
Variable loadSeedData : option SeedData.

(** Every way out of the body sets [seedDataChecked = true], and the
    [finally] clause clears [seedDataLoading]; the callers that await the
    promise see it settle. *)
Definition finish (s : State) (h : nat) (loaded : nat) (o : Outcome) : State :=
  {| seedDataChecked := true;
     seedDataLoading := None;
     started := started s;
     loads := loaded;
     awaiting := List.filter (fun a => negb (snd a =? h)%nat) (awaiting s);
     completed :=
       completed s ++
       map (fun a => (fst a, o))
           (List.filter (fun a => (snd a =? h)%nat) (awaiting s)) |}.

Definition suspend (s : State) (h : nat) (loaded : nat) (p : Phase) : State :=
  {| seedDataChecked := seedDataChecked s;
     seedDataLoading := Some {| handle := h; phase := p |};
     started := started s;
     loads := loaded;
     awaiting := awaiting s;
     completed := completed s |}.

(** [ensureData()] up to the promise it returns. *)
Definition ensureData (s : State) (caller : nat) : State :=
  if seedDataChecked s then
    {| seedDataChecked := seedDataChecked s;
       seedDataLoading := seedDataLoading s;
       started := started s;
       loads := loads s;
       awaiting := awaiting s;
       completed := completed s ++ [(caller, Resolved)] |}
  else
    match seedDataLoading s with
    | Some op =>
        {| seedDataChecked := seedDataChecked s;
           seedDataLoading := seedDataLoading s;
           started := started s;
           loads := loads s;
           awaiting := awaiting s ++ [(caller, handle op)];
           completed := completed s |}
    | None =>
        {| seedDataChecked := seedDataChecked s;
           seedDataLoading := Some {| handle := started s; phase := AwaitCount |};
           started := S (started s);
           loads := loads s;
           awaiting := awaiting s ++ [(caller, started s)];
           completed := completed s |}
    end.

(** The body after [await firestore.getProductCount()]. *)
Definition afterCount (s : State) (h : nat) (productCount : nat) : State :=
  if (0 <? productCount)%nat then finish s h (loads s) Resolved
  else
    match loadSeedData with
    | None => finish s h (S (loads s)) Resolved
    | Some seed =>
        match seedProducts seed, seedStores seed with
        | [], [] => finish s h (S (loads s)) Resolved
        | _ :: _, _ => suspend s h (S (loads s)) (AwaitUpsertProducts seed)
        | [], stores => suspend s h (S (loads s)) (AwaitUpsertStore seed stores)
        end
    end.

(** The body after [await firestore.upsertProducts(products)]. *)
Definition afterProducts (s : State) (h : nat) (seed : SeedData) : State :=
  match seedStores seed with
  | [] => finish s h (loads s) Resolved
  | stores => suspend s h (loads s) (AwaitUpsertStore seed stores)
  end.

(** The body after one [await firestore.upsertStore(store)]. *)
Definition afterStore (s : State) (h : nat) (seed : SeedData)
    (remaining : list Outlet.Store) : State :=
  match remaining with
  | _ :: next :: rest =>
      suspend s h (loads s) (AwaitUpsertStore seed (next :: rest))
  | _ => finish s h (loads s) Resolved
  end.

(** One event; [None] when the event cannot happen in this state. *)
Definition step (s : State) (e : Event) : option State :=
  match e, seedDataLoading s with
  | Call caller, _ => Some (ensureData s caller)
  | CountIs n, Some {| handle := h; phase := AwaitCount |} =>
      Some (afterCount s h n)
  | CountFails, Some {| handle := h; phase := AwaitCount |} =>
      Some (finish s h (loads s) Rejected)
  | ProductsUpserted, Some {| handle := h; phase := AwaitUpsertProducts seed |} =>
      Some (afterProducts s h seed)
  | ProductsFail, Some {| handle := h; phase := AwaitUpsertProducts _ |} =>
      Some (finish s h (loads s) Rejected)
  | StoreUpserted, Some {| handle := h; phase := AwaitUpsertStore seed remaining |} =>
      Some (afterStore s h seed remaining)
  | StoreFails, Some {| handle := h; phase := AwaitUpsertStore _ _ |} =>
      Some (finish s h (loads s) Rejected)
  | _, _ => None
  end.

(** The events of a run in which every call that the body still awaits
    succeeds, from the phase [p] on, the store reporting [productCount]
    items; and the event in which the awaited call fails. *)
Definition succeeding (p : Phase) (productCount : nat) : list Event :=
  match p with
  | AwaitCount =>
      CountIs productCount
      :: (if (0 <? productCount)%nat then []
          else
            match loadSeedData with
            | None => []
            | Some seed =>
                match seedProducts seed with
                | [] => []
                | _ :: _ => [ProductsUpserted]
                end
                ++ repeat StoreUpserted (length (seedStores seed))
            end)%list
  | AwaitUpsertProducts seed =>
      ProductsUpserted :: repeat StoreUpserted (length (seedStores seed))
  | AwaitUpsertStore seed remaining =>
      repeat StoreUpserted (Nat.max 1 (length remaining))
  end.

Definition failing (p : Phase) : Event :=
  match p with
  | AwaitCount => CountFails
  | AwaitUpsertProducts _ => ProductsFail
  | AwaitUpsertStore _ _ => StoreFails
  end.

Fixpoint run (s : State) (events : list Event) : option State :=
  match events with
  | [] => Some s
  | e :: events' =>
      match step s e with
      | Some s' => run s' events'
      | None => None
      end
  end.

End WithSeed.

End Bootstrap.

(** ** Availability (src/types/availability.ts, src/services/scraper.ts,
       src/tools/get-availability.ts) *)

Module StoreAvailability.

Inductive AvailabilityStatus := in_stock | low_stock | out_of_stock.

Record t := mk {
  id : string;
  productId : string;
  storeId : string;
  storeName : string;
  storeLink : string;
  quantity : Z;
  status : AvailabilityStatus;
  lastUpdated : string;
  checkedAt : Timestamp;
}.

End StoreAvailability.

Module AvailabilityResult.

Record t := mk {
  productId : string;
  productName : string;
  stores : list StoreAvailability.t;
  checkedAt : Z;
  fromCache : bool;
}.

End AvailabilityResult.

(** ** The memory cache (the [lru-cache] package, as the services
       configure it with [max] and [ttl]) *)

Module LruCache.

Section WithValue.
Context {V : Type}.

(** An entry and the time at which it was set. *)
Record Entry := mkEntry {
  key : string;
  value : V;
  start : Z;
}.

(** The two options and the entries, from the most recently used to
    the least recently used. *)
Record t := mk {
  max : nat;
  ttl : Z;
  entries : list Entry;
}.

Definition empty (max : nat) (ttl : Z) : t :=
  {| max := max; ttl := ttl; entries := [] |}.

Definition withEntries (c : t) (l : list Entry) : t :=
  {| max := max c; ttl := ttl c; entries := l |}.

(** An entry is stale when more than [ttl] has passed since it was
    set; a [ttl] of 0 switches expiry off. *)
Definition isStale (c : t) (now : Z) (e : Entry) : bool :=
  negb (ttl c =? 0) && (ttl c <? now - start e).

Definition hasKey (k : string) (e : Entry) : bool := String.eqb (key e) k.

Definition without (k : string) (l : list Entry) : list Entry :=
  List.filter (fun e => negb (hasKey k e)) l.

(** [cache.get(k)]: a stale entry is deleted and not returned; an entry
    that is returned becomes the most recently used and keeps its age. *)
Definition get (now : Z) (k : string) (c : t) : option V * t :=
  match List.find (hasKey k) (entries c) with
  | None => (None, c)
  | Some e =>
      if isStale c now e then (None, withEntries c (without k (entries c)))
      else (Some (value e), withEntries c (e :: without k (entries c)))
  end.

(** [cache.set(k, v)]: the entry becomes the most recently used and its
    age starts anew; when a new key meets a full cache the least
    recently used entry is evicted. *)
Definition set (now : Z) (k : string) (v : V) (c : t) : t :=
  withEntries c
    ({| key := k; value := v; start := now |}
     :: take (max c - 1) (without k (entries c))).

End WithValue.

Arguments Entry V : clear implicits.
Arguments t V : clear implicits.

End LruCache.

Module Availability.

Module SA := StoreAvailability.
Module AR := AvailabilityResult.

(** A call either returns a value or throws. *)
Inductive Outcome (A : Type) :=
| Returns (a : A)
| Throws.
Arguments Returns {A} a.
Arguments Throws {A}.

(** The scraper's memory cache (at most 1000 entries, which live for
    [config.scrapeCacheTtlMs]), the [availability] collection in the
    order the store lists it, and the [products] collection. *)
Record State := mkState {
  cache : LruCache.t AR.t;
  availability : list SA.t;
  products : gmap string Product;
}.

Definition withCache (s : State) (c : LruCache.t AR.t) : State :=
  {| cache := c; availability := availability s; products := products s |}.

(** [new LRUCache({ max: 1000, ttl: config.scrapeCacheTtlMs })] *)
Definition newCache (scrapeCacheTtlMs : Z) : LruCache.t AR.t :=
  LruCache.empty 1000 scrapeCacheTtlMs.

Record GetAvailabilityInput := mkInput {
  productId : string;
  city : option string;
  forceRefresh : bool;
}.

(** [{ ...r, stores }] *)
Definition withStores (r : AR.t) (stores : list SA.t) : AR.t :=
  {| AR.productId := AR.productId r; AR.productName := AR.productName r;
     AR.stores := stores; AR.checkedAt := AR.checkedAt r;
     AR.fromCache := AR.fromCache r |}.

(** [{ ...cached, fromCache: true }] *)
Definition markFromCache (cached : AR.t) : AR.t :=
  {| AR.productId := AR.productId cached;
     AR.productName := AR.productName cached;
     AR.stores := AR.stores cached; AR.checkedAt := AR.checkedAt cached;
     AR.fromCache := true |}.

(** [FirestoreService.getAvailability(productId)] *)
Definition firestoreGetAvailability (s : State) (productId : string)
    : list SA.t :=
  List.filter (fun d => String.eqb (SA.productId d) productId) (availability s).

(** [FirestoreService.upsertAvailability(records)]: each record is set
    under the key [productId_storeId] with a fresh [checkedAt]. *)
Definition storeRecord (now : Timestamp) (record : SA.t) : SA.t :=
  {| SA.id := SA.productId record +:+ "_" +:+ SA.storeId record;
     SA.productId := SA.productId record; SA.storeId := SA.storeId record;
     SA.storeName := SA.storeName record; SA.storeLink := SA.storeLink record;
     SA.quantity := SA.quantity record; SA.status := SA.status record;
     SA.lastUpdated := SA.lastUpdated record; SA.checkedAt := now |}.

Fixpoint setDoc (doc : SA.t) (collection : list SA.t) : list SA.t :=
  match collection with
  | [] => [doc]
  | d :: rest =>
      if String.eqb (SA.id d) (SA.id doc) then doc :: rest
      else d :: setDoc doc rest
  end.

Definition upsertAvailability (now : Timestamp) (records : list SA.t)
    (collection : list SA.t) : list SA.t :=
  foldl (fun c record => setDoc (storeRecord now record) c) collection records.

(** [stores.filter(s => s.storeName.toLowerCase().includes(cityLower))]
    under [if (input.city)]. *)
Definition inCity (cityLower : string) (s : SA.t) : bool :=
  Js.includes (Js.toLowerCase (SA.storeName s)) cityLower.

Definition filterByCity (city : option string) (stores : list SA.t)
    : list SA.t :=
  match Js.truthyOpt city with
  | Some c => List.filter (inCity (Js.toLowerCase c)) stores
  | None => stores
  end.

Section WithSite.

(** The product page as the browser delivers it: the per-outlet records
    that the page script and the conversion produce, or [None] when
    navigation or extraction throws. *)
Variable browser : string -> option (list SA.t).

(** Whether the store accepts the batch of availability records. *)
Variable storeAccepts : bool.

(** The instant of the request in milliseconds, on every clock that
    the request reads: that of the cache, [new Date()] and
    [Timestamp.now()]. *)
Variable now : Z.

(** What [this.cache.get(productId)] returns at this instant. *)
Definition liveEntry (s : State) (productId : string) : option AR.t :=
  (LruCache.get now productId (cache s)).1.

(** [AlkoScraper.getCachedAvailability] *)
Definition getCachedAvailability (s : State) (productId : string)
    : option AR.t * State :=
  let '(cached, cache1) := LruCache.get now productId (cache s) in
  match cached with
  | Some cached => (Some (markFromCache cached), withCache s cache1)
  | None =>
      match firestoreGetAvailability s productId with
      | first :: rest =>
          let result :=
            {| AR.productId := productId; AR.productName := productId;
               AR.stores := first :: rest;
               AR.checkedAt := SA.checkedAt first;
               AR.fromCache := true |} in
          (Some result,
           withCache s (LruCache.set now productId result cache1))
      | [] => (None, withCache s cache1)
      end
  end.

(** [AlkoScraper.getProductAvailability]; the back-off wait and the
    session flag of the [catch] block are outside this state. *)
Definition getProductAvailability (s : State) (productId : string)
    (productName : option string) : Outcome AR.t * State :=
  let '(cached, cache1) := LruCache.get now productId (cache s) in
  match cached with
  | Some cached => (Returns (markFromCache cached), withCache s cache1)
  | None =>
      match browser productId with
      | None => (Throws, withCache s cache1)
      | Some stores =>
          let result :=
            {| AR.productId := productId;
               AR.productName := default productId (Js.truthyOpt productName);
               AR.stores := stores; AR.checkedAt := now;
               AR.fromCache := false |} in
          let s1 := withCache s (LruCache.set now productId result cache1) in
          match stores with
          | [] => (Returns result, s1)
          | _ :: _ =>
              if storeAccepts then
                (Returns result,
                 {| cache := cache s1;
                    availability := upsertAvailability now stores (availability s1);
                    products := products s1 |})
              else (Throws, s1)
          end
      end
  end.

(** [getAvailability] of the tool layer, after [ensureData()]. *)
Definition getAvailability (input : GetAvailabilityInput) (s : State)
    : Outcome (option AR.t) * State :=
  let product := products s !! productId input in
  let '(cached, s1) :=
    if forceRefresh input then (None, s)
    else getCachedAvailability s (productId input) in
  match cached with
  | Some cached =>
      (Returns (Some (withStores cached (filterByCity (city input) (AR.stores cached)))),
       s1)
  | None =>
      match getProductAvailability s1 (productId input) (name <$> product) with
      | (Returns result, s2) =>
          (Returns (Some (withStores result (filterByCity (city input) (AR.stores result)))),
           s2)
      | (Throws, s2) =>
          let '(stale, s3) := getCachedAvailability s2 (productId input) in
          (Returns stale, s3)
      end
  end.

End WithSite.

End Availability.

(** ** Store hours (src/tools/get-store-hours.ts) *)

Module StoreHours.
Import Outlet.

Record GetStoreHoursInput := mkInput {
  storeId : option string;
  storeName : option string;
  city : option string;
  openNow : option bool;
  limit : nat;
}.

(** One element of the [stores] array of the answer. *)
Record Entry := mkEntry {
  e_id : string;
  e_name : string;
  e_city : string;
  e_address : string;
  e_openingHoursToday : option string;
  e_openingHoursTomorrow : option string;
  e_isOpenNow : bool;
}.

(** The answer without its two formatted strings ([currentTime] and
    [dataAsOf]). *)
Record Answer := mkAnswer {
  stores : list Entry;
  refreshed : bool;
  refreshError : option string;
}.

Definition isDigit (c : ascii) : bool :=
  let n := N_of_ascii c in ((48 <=? n) && (n <=? 57))%N.

Definition digitValue (c : ascii) : Z := Z.of_N (N_of_ascii c) - 48.

(** [\d{1,2}] at the start of [s], greedy, with nothing required after. *)
Definition oneOrTwoDigits (s : string) : option Z :=
  match s with
  | String c (String d _) =>
      if isDigit c then
        if isDigit d then Some (10 * digitValue c + digitValue d)
        else Some (digitValue c)
      else None
  | String c EmptyString => if isDigit c then Some (digitValue c) else None
  | EmptyString => None
  end.

(** [/(\d{1,2})-(\d{1,2})/] anchored at the start of [s].  Two digits
    are taken when a dash and a digit follow them; one digit is taken
    when the dash comes right after it. *)
Definition hoursAt (s : string) : option (Z * Z) :=
  match s with
  | String c (String d rest) =>
      if isDigit c then
        if isDigit d then
          match rest with
          | String "-" rest' =>
              match oneOrTwoDigits rest' with
              | Some close => Some (10 * digitValue c + digitValue d, close)
              | None => None
              end
          | _ => None
          end
        else if Ascii.eqb d "-" then
          match oneOrTwoDigits rest with
          | Some close => Some (digitValue c, close)
          | None => None
          end
        else None
      else None
  | _ => None
  end.

(** [openingHours.match(/(\d{1,2})-(\d{1,2})/)]: the leftmost match,
    both groups through [parseInt]. *)
Fixpoint matchHours (s : string) : option (Z * Z) :=
  match hoursAt s with
  | Some m => Some m
  | None =>
      match s with
      | EmptyString => None
      | String _ s' => matchHours s'
      end
  end.

Definition sameDay (a b : Date) : bool :=
  (getFullYear a =? getFullYear b) && (getMonth a =? getMonth b)
  && (getDate a =? getDate b).

(** The update time of [store] is on the calendar day of [today]. *)
Definition capturedOn (today : Date) (store : Store) : bool :=
  match updatedAt store with
  | Some updatedDate => sameDay updatedDate today
  | None => false
  end.

Section WithClock.

(** [clock k] is the value of the k-th [new Date()]. *)
Variable clock : nat -> Date.

(** [a.localeCompare(b, 'fi')] *)
Variable localeCompare : string -> string -> Z.

(** [await dataSync.syncStores()] seen from the [stores] collection:
    the collection after the call, and the message of the error when
    the call rejects.  [syncStores] catches the error of a failed scrape
    and returns; it rejects only when a write of the sync log fails,
    which can be after the scraper has saved stores. *)
Variable syncStores : list Store -> list Store * option string.

(** [isStoreOpenNow]; the clock is read after the pattern has matched. *)
Definition isStoreOpenNow (openingHours : option string) (k : nat) : bool * nat :=
  match Js.truthyOpt openingHours with
  | None => (false, k)
  | Some hours =>
      if String.eqb hours "SULJETTU" then (false, k)
      else
        match matchHours hours with
        | None => (false, k)
        | Some (openHour, closeHour) =>
            let currentHour := getHours (clock k) in
            ((openHour <=? currentHour) && (currentHour <? closeHour), S k)
        end
  end.

(** [isStoreDataStale] *)
Definition isStoreDataStale (store : Store) (k : nat) : bool * nat :=
  match updatedAt store with
  | None => (true, k)
  | Some updatedDate =>
      let today := clock k in
      (negb (getFullYear updatedDate =? getFullYear today)
       || negb (getMonth updatedDate =? getMonth today)
       || negb (getDate updatedDate =? getDate today),
       S k)
  end.

(** [stores.length > 0 && stores.some(isStoreDataStale)] *)
Fixpoint someStale (stores : list Store) (k : nat) : bool * nat :=
  match stores with
  | [] => (false, k)
  | store :: rest =>
      let '(stale, k1) := isStoreDataStale store k in
      if stale then (true, k1) else someStale rest k1
  end.

(** [FirestoreService.getStore] and [FirestoreService.listStores] *)
Definition getStore (collection : list Store) (storeId : string) : option Store :=
  List.find (fun s => String.eqb (id s) storeId) collection.

Definition listStores (collection : list Store) (city : option string)
    (limit : nat) : list Store :=
  let stores :=
    match Js.truthyOpt city with
    | Some c =>
        let cityLower := Js.toLowerCase c in
        List.filter (fun s => String.eqb (Js.toLowerCase (Outlet.city s)) cityLower)
                    collection
    | None => collection
    end in
  Js.slice (Js.sortBy (fun a b => localeCompare (name a) (name b)) stores) 0 limit.

(** The stores the request is about: by id or by city, then by name. *)
Definition fetchStores (input : GetStoreHoursInput) (collection : list Store)
    : list Store :=
  let stores :=
    match Js.truthyOpt (storeId input) with
    | Some storeId =>
        match getStore collection storeId with
        | Some store => [store]
        | None => []
        end
    | None => listStores collection (city input) 200
    end in
  match Js.truthyOpt (storeName input) with
  | Some n =>
      let searchTerm := Js.toLowerCase n in
      List.filter (fun s => Js.includes (Js.toLowerCase (name s)) searchTerm) stores
  | None => stores
  end.

(** The callback of [stores.map] that builds the answer. *)
Definition toEntry (store : Store) (k : nat) : Entry * nat :=
  let '(storeIsStale, k1) := isStoreDataStale store k in
  let '(open, k2) :=
    if storeIsStale then (false, k1)
    else isStoreOpenNow (openingHoursToday store) k1 in
  ({| e_id := id store;
      e_name := name store;
      e_city := Outlet.city store;
      e_address := address store +:+ ", " +:+ postalCode store;
      e_openingHoursToday :=
        if storeIsStale then None else openingHoursToday store;
      e_openingHoursTomorrow :=
        if storeIsStale then None else openingHoursTomorrow store;
      e_isOpenNow := open |},
   k2).

Fixpoint mapEntries (stores : list Store) (k : nat) : list Entry * nat :=
  match stores with
  | [] => ([], k)
  | store :: rest =>
      let '(e, k1) := toEntry store k in
      let '(es, k2) := mapEntries rest k1 in
      (e :: es, k2)
  end.

(** The collection and the stores after the refresh, if one is tried.
    When the sync rejects, [stores] stays what was fetched before it. *)
Definition refresh (input : GetStoreHoursInput) (collection : list Store)
    (stores : list Store) (hasStaleData : bool)
    : list Store * list Store * bool * option string :=
  if hasStaleData then
    match syncStores collection with
    | (collection', None) =>
        (collection', fetchStores input collection', true, None)
    | (collection', Some errorMessage) =>
        (collection', stores, false,
         Some ("Failed to refresh store data: " +:+ errorMessage
               +:+ ". Opening hours may be outdated."))
    end
  else (collection, stores, false, None).

(** [getStoreHours], after [ensureData()], on the [stores] collection
    when [k] clock readings have been taken; it returns the answer, the
    collection and the number of readings. *)
Definition getStoreHours (input : GetStoreHoursInput) (collection : list Store)
    (k : nat) : Answer * list Store * nat :=
  let stores0 := fetchStores input collection in
  let '(hasStaleData, k1) :=
    match stores0 with [] => (false, k) | _ => someStale stores0 k end in
  let '(collection', stores1, refreshed, refreshError) :=
    refresh input collection stores0 hasStaleData in
  let '(isDataStale, k2) :=
    match stores1 with [] => (false, k1) | _ => someStale stores1 k1 end in
  let '(results, k3) := mapEntries stores1 k2 in
  let results1 :=
    match openNow input with
    | Some true => List.filter e_isOpenNow results
    | _ => results
    end in
  ({| stores := Js.slice results1 0 (limit input);
      refreshed := refreshed;
      refreshError := refreshError |},
   collection', S k3).

End WithClock.

End StoreHours.

(** ** Snapshot download (src/services/data-sync.ts) *)

Module Download.

(** A [fetch] response, by what the function reads of it. *)
Record Response := mkResponse {
  ok : bool;
  status : Z;
  statusText : string;
  setCookie : option string;
  contentType : option string;
  arrayBuffer : list N;
}.

Inductive DownloadError :=
| FetchFailed
| FailedToDownload (status : Z) (statusText : string)
| ReceivedHtml.

(** The media types that the request names in its [Accept] header. *)
Definition spreadsheetTypes : list string :=
  ["application/vnd.openxmlformats-officedocument.spreadsheetml.sheet";
   "application/vnd.ms-excel"].

Definition isSpreadsheetType (contentType : string) : bool :=
  Js.some (fun t => Js.includes contentType t) spreadsheetTypes.

Section WithNetwork.

(** The answer of the site root, and the answer to the request for the
    price list sent with the given [Cookie] header; [None] when [fetch]
    rejects. *)
Variable fetchHome : option Response.
Variable fetchPriceList : string -> option Response.

(** [DataSyncService.downloadPriceList] *)
Definition downloadPriceList : list N + DownloadError :=
  match fetchHome with
  | None => inr FetchFailed
  | Some homeResponse =>
      let cookies := default "" (Js.truthyOpt (setCookie homeResponse)) in
      match fetchPriceList cookies with
      | None => inr FetchFailed
      | Some excelResponse =>
          if negb (ok excelResponse) then
            inr (FailedToDownload (status excelResponse) (statusText excelResponse))
          else
            let contentType :=
              default "" (Js.truthyOpt (contentType excelResponse)) in
            if Js.includes contentType "text/html" then inr ReceivedHtml
            else inl (arrayBuffer excelResponse)
      end
  end.

End WithNetwork.

End Download.

(** ** Enrichment (src/services/scraper.ts, src/tools/get-product.ts) *)

Module Enrichment.

(** The part of the DOM that the page script looks at. *)
#[local] Unset Elimination Schemes.
Inductive Node :=
| Text (data : string)
| Elem (tag : string) (classes : list string)
       (attributes : list (string * string)) (children : list Node).

#[local] Set Elimination Schemes.

Definition isElement (n : Node) : bool :=
  match n with Elem _ _ _ _ => true | Text _ => false end.

(** The elements below [n], in document order. *)
Fixpoint descendants (n : Node) : list Node :=
  match n with
  | Text _ => []
  | Elem _ _ _ children =>
      (fix go (cs : list Node) : list Node :=
         match cs with
         | [] => []
         | c :: cs' =>
             ((if isElement c then [c] else []) ++ descendants c ++ go cs')%list
         end) children
  end.

Fixpoint textContent (n : Node) : string :=
  match n with
  | Text data => data
  | Elem _ _ _ children =>
      (fix go (cs : list Node) : string :=
         match cs with
         | [] => ""
         | c :: cs' => textContent c +:+ go cs'
         end) children
  end.

Definition hasClass (c : string) (n : Node) : bool :=
  match n with
  | Elem _ classes _ _ => existsb (String.eqb c) classes
  | Text _ => false
  end.

Definition hasTag (t : string) (n : Node) : bool :=
  match n with
  | Elem tag _ _ _ => String.eqb tag t
  | Text _ => false
  end.

Definition getAttribute (a : string) (n : Node) : option string :=
  match n with
  | Elem _ _ attributes _ =>
      snd <$> List.find (fun kv => String.eqb (fst kv) a) attributes
  | Text _ => None
  end.

Definition hasAttribute (a : string) (n : Node) : bool :=
  match getAttribute a n with Some _ => true | None => false end.

(** [n.querySelectorAll(sel)] and [n.querySelector(sel)], the selector
    being given as a test on elements. *)
Definition querySelectorAll (sel : Node -> bool) (n : Node) : list Node :=
  List.filter sel (descendants n).

Definition querySelector (sel : Node -> bool) (n : Node) : option Node :=
  head (querySelectorAll sel n).

(** [document.querySelector] and [document.querySelectorAll]: the root
    element takes part. *)
Definition documentAll (sel : Node -> bool) (root : Node) : list Node :=
  List.filter sel (root :: descendants root).

(** [s.trim()] *)
Fixpoint trimStart (s : string) : string :=
  match s with
  | String c s' => if Js.isWhiteSpace c then trimStart s' else s
  | EmptyString => EmptyString
  end.

Fixpoint trimEnd (s : string) : string :=
  match s with
  | EmptyString => EmptyString
  | String c s' =>
      match trimEnd s' with
      | EmptyString => if Js.isWhiteSpace c then EmptyString else String c EmptyString
      | t => String c t
      end
  end.

Definition trim (s : string) : string := trimEnd (trimStart s).

(** The labels of [elements], each once, in order of first appearance
    (the [seen] set of the page script). *)
Fixpoint collectLabels (elements : list Node) (seen : list string) : list string :=
  match elements with
  | [] => []
  | el :: rest =>
      match Js.truthyOpt (getAttribute "aria-label" el) with
      | Some ariaLabel =>
          if existsb (String.eqb ariaLabel) seen then collectLabels rest seen
          else ariaLabel :: collectLabels rest (ariaLabel :: seen)
      | None => collectLabels rest seen
      end
  end.

Definition isSmokiness := hasClass "smokiness".
Definition isSmokinessLabel := hasClass "smokiness-label".
Definition isSmokeyIcon (n : Node) : bool :=
  hasClass "smokiness-icon" n && hasClass "smokey" n.
Definition isCertificate (n : Node) : bool :=
  hasClass "ecological" n && hasClass "certificate" n
  && hasClass "link-tooltip" n && hasAttribute "aria-label" n.
Definition isFoodSymbol (n : Node) : bool :=
  hasTag "a" n && hasClass "pdp-symbol-link" n && hasAttribute "aria-label" n
  && negb (hasClass "ecological" n && hasClass "certificate" n).

Record EnrichedProductData := mkEnriched {
  e_tasteProfile : option string;
  e_usageTips : option string;
  e_servingSuggestion : option string;
  e_foodPairings : list string;
  e_certificates : list string;
  e_ingredients : option string;
  e_smokiness : option Z;
  e_smokinessLabel : option string;
}.

(** A loaded product page: the document, and the four sections that the
    regular expressions cut out of [document.body.innerText]. *)
Record Page := mkPage {
  document : Node;
  tasteMatch : option string;
  vinkkiMatch : option string;
  tarjoiluMatch : option string;
  ingredientsMatch : option string;
}.

(** The script that [scrapeProductDetails] evaluates in the page. *)
Definition extract (page : Page) : EnrichedProductData :=
  let smokinessContainer := head (documentAll isSmokiness (document page)) in
  {| e_tasteProfile := tasteMatch page;
     e_usageTips := vinkkiMatch page;
     e_servingSuggestion := tarjoiluMatch page;
     e_foodPairings :=
       collectLabels (documentAll isFoodSymbol (document page)) [];
     e_certificates :=
       collectLabels (documentAll isCertificate (document page)) [];
     e_ingredients := ingredientsMatch page;
     e_smokiness :=
       match smokinessContainer with
       | Some container =>
           Some (Z.of_nat (length (querySelectorAll isSmokeyIcon container)))
       | None => None
       end;
     e_smokinessLabel :=
       match smokinessContainer with
       | Some container =>
           match querySelector isSmokinessLabel container with
           | Some labelEl => Js.truthyOpt (Some (trim (textContent labelEl)))
           | None => None
           end
       | None => None
       end |}.

(** [{ ...product, ...enrichedFields }] *)
Definition withEnrichedFields (product : Product) (d : EnrichedProductData)
    (updated : Timestamp) : Product :=
  {| id := id product; name := name product; producer := producer product;
     ean := ean product; price := price product;
     pricePerLiter := pricePerLiter product; bottleSize := bottleSize product;
     packagingType := packagingType product; closureType := closureType product;
     type := type product; subtype := subtype product;
     specialGroup := specialGroup product; beerType := beerType product;
     sortCode := sortCode product; country := country product;
     region := region product; vintage := vintage product;
     grapes := grapes product; labelNotes := labelNotes product;
     description := description product; notes := notes product;
     tasteProfile := e_tasteProfile d; usageTips := e_usageTips d;
     servingSuggestion := e_servingSuggestion d;
     foodPairings :=
       match e_foodPairings d with [] => None | l => Some l end;
     certificates :=
       match e_certificates d with [] => None | l => Some l end;
     ingredients := e_ingredients d;
     smokiness := Js.ofOption (e_smokiness d);
     smokinessLabel := e_smokinessLabel d;
     alcoholPercentage := alcoholPercentage product;
     acids := acids product; sugar := sugar product; energy := energy product;
     originalGravity := originalGravity product; colorEBC := colorEBC product;
     bitternessEBU := bitternessEBU product;
     assortment := assortment product; isNew := isNew product;
     updatedAt := updated; createdAt := createdAt product |}.

Definition truthyString (v : option string) : bool :=
  match Js.truthyOpt v with Some _ => true | None => false end.

Definition nonEmptyList (v : option (list string)) : bool :=
  match v with Some (_ :: _) => true | _ => false end.

(** [hasEnrichedData] of [getProduct]; its last test is
    [product.smokiness !== null], which holds of a document without a
    [smokiness] key. *)
Definition hasEnrichedData (product : Product) : bool :=
  truthyString (tasteProfile product) || truthyString (usageTips product)
  || truthyString (servingSuggestion product)
  || nonEmptyList (foodPairings product) || nonEmptyList (certificates product)
  || truthyString (ingredients product)
  || Js.notNull (smokiness product).

(** The product cache of the tool layer, by the entries that are live
    at the instant of the request (it is an LRU cache with a ttl), and
    the [products] collection. *)
Record State := mkState {
  cache : gmap string Product;
  products : gmap string Product;
}.

Record GetProductInput := mkInput {
  productId : string;
  includeEnrichedData : bool;
}.

Section WithSite.

(** The product page as the browser loads it; [None] when navigation or
    evaluation throws. *)
Variable browser : string -> option Page.

(** Whether [FirestoreService.updateProduct] succeeds, and the time it
    stamps. *)
Variable storeAccepts : bool.
Variable now : Timestamp.

(** [AlkoScraper.scrapeProductDetails]: an error is logged and turned
    into [null]. *)
Definition scrapeProductDetails (productId : string) : option EnrichedProductData :=
  extract <$> browser productId.

(** [getProduct] of the tool layer, after [ensureData()]. *)
Definition getProduct (input : GetProductInput) (s : State)
    : option Product * State :=
  match cache s !! productId input, includeEnrichedData input with
  | Some cached, false => (Some cached, s)
  | _, _ =>
      match products s !! productId input with
      | None => (None, s)
      | Some product =>
          let '(product', stored) :=
            if includeEnrichedData input && negb (hasEnrichedData product) then
              match scrapeProductDetails (productId input) with
              | Some enrichedData =>
                  (withEnrichedFields product enrichedData (updatedAt product),
                   if storeAccepts then
                     <[productId input :=
                         withEnrichedFields product enrichedData now]>
                       (products s)
                   else products s)
              | None => (product, products s)
              end
            else (product, products s) in
          (Some product',
           {| cache := <[productId input := product']> (cache s);
              products := stored |})
      end
  end.

End WithSite.

End Enrichment.

(** ** The search tool (src/tools/search-products.ts, src/services/cache.ts) *)

Module SearchTool.
Import Search.

(** The input after the schema has filled in its defaults. *)
Record SearchProductsInput := mkInput {
  i_query : option string;
  i_type : option string;
  i_country : option string;
  i_region : option string;
  i_minPrice : option Q;
  i_maxPrice : option Q;
  i_minAlcohol : option Q;
  i_maxAlcohol : option Q;
  i_assortment : option string;
  i_specialGroup : option string;
  i_beerType : option string;
  i_isNew : option bool;
  i_isOrganic : option bool;
  i_isVegan : option bool;
  i_minSmokiness : option Z;
  i_maxSmokiness : option Z;
  i_sortBy : SortField;
  i_sortOrder : SortOrder;
  i_limit : nat;
  i_offset : nat;
}.

(** [if (flag)] on an optional boolean. *)
Definition isSet (flag : option bool) : bool := default false flag.

(** The [filters] object after the two special-filter assignments; it
    has no [isOrganic] and no [isVegan] property. *)
Definition filtersOf (input : SearchProductsInput) : ProductSearchFilters :=
  let specialGroup0 := i_specialGroup input in
  let specialGroup1 :=
    if isSet (i_isOrganic input) then Some "Luomu" else specialGroup0 in
  let specialGroup2 :=
    if isSet (i_isVegan input) then Some "Vegaaneille soveltuva tuote"
    else specialGroup1 in
  {| f_query := i_query input; f_type := i_type input;
     f_country := i_country input; f_region := i_region input;
     f_minPrice := i_minPrice input; f_maxPrice := i_maxPrice input;
     f_minAlcohol := i_minAlcohol input; f_maxAlcohol := i_maxAlcohol input;
     f_assortment := i_assortment input; f_specialGroup := specialGroup2;
     f_beerType := i_beerType input; f_isNew := i_isNew input;
     f_isOrganic := None; f_isVegan := None;
     f_minSmokiness := i_minSmokiness input;
     f_maxSmokiness := i_maxSmokiness input |}.

Definition optionsOf (input : SearchProductsInput) : ProductSearchOptions :=
  {| o_sortBy := Some (i_sortBy input); o_sortOrder := Some (i_sortOrder input);
     o_limit := Some (i_limit input); o_offset := Some (i_offset input) |}.

(** What the tool returns: a search result and the [fromCache] flag. *)
Record ToolAnswer := mkAnswer {
  result : ProductSearchResult;
  fromCache : bool;
}.

Section WithStore.

Variable runQuery : Query -> list Product.
Variable localeCompare : string -> string -> Z.

(** [CacheService.createSearchKey] applied to [{ ...filters, ...options }]:
    the JSON text of the object with its keys in sorted order. *)
Variable createSearchKey : ProductSearchFilters -> ProductSearchOptions -> string.

(** [searchProducts] of the tool layer, after [ensureData()], on the live
    entries of the search cache. *)
Definition searchProducts (input : SearchProductsInput)
    (searchCache : gmap string (list Product))
    : ToolAnswer * gmap string (list Product) :=
  let filters := filtersOf input in
  let options := optionsOf input in
  let cacheKey := createSearchKey filters options in
  match searchCache !! cacheKey with
  | Some cached =>
      ({| result :=
            {| products := cached; total := length cached;
               limit := i_limit input; offset := i_offset input;
               hasMore := false |};
          fromCache := true |},
       searchCache)
  | None =>
      let result := Search.searchProducts runQuery localeCompare filters options in
      ({| result := result; fromCache := false |},
       <[cacheKey := products result]> searchCache)
  end.

End WithStore.

End SearchTool.

(** Predicates used to state what a search returns. *)
Module SearchSpec.
Import Search.

(** [p] passes the two smokiness bounds of [filters]. *)
Definition passesSmokiness (filters : ProductSearchFilters) (p : Product) : bool :=
  match f_minSmokiness filters with
  | Some lo => smokinessAtLeast lo p
  | None => true
  end
  && match f_maxSmokiness filters with
     | Some hi => smokinessAtMost hi p
     | None => true
     end.

(** The name of [p] holds every word of [query]. *)
Definition nameHasAllWords (query : string) (p : Product) : bool :=
  hasAllWords (Js.toLowerCase (name p)) (queryWordsOf (Js.toLowerCase query)).

(** [filters] with another value for [region]. *)
Definition withRegion (region : option string) (filters : ProductSearchFilters)
    : ProductSearchFilters :=
  {| f_query := f_query filters; f_type := f_type filters;
     f_country := f_country filters; f_region := region;
     f_minPrice := f_minPrice filters; f_maxPrice := f_maxPrice filters;
     f_minAlcohol := f_minAlcohol filters; f_maxAlcohol := f_maxAlcohol filters;
     f_assortment := f_assortment filters;
     f_specialGroup := f_specialGroup filters;
     f_beerType := f_beerType filters; f_isNew := f_isNew filters;
     f_isOrganic := f_isOrganic filters; f_isVegan := f_isVegan filters;
     f_minSmokiness := f_minSmokiness filters;
     f_maxSmokiness := f_maxSmokiness filters |}.

(** The tool input with other values for [isOrganic] and [specialGroup]. *)
Definition withSpecialFilters (organic : option bool) (group : option string)
    (input : SearchTool.SearchProductsInput) : SearchTool.SearchProductsInput :=
  let 'SearchTool.mkInput query type country region minPrice maxPrice
        minAlcohol maxAlcohol assortment _ beerType isNew _ isVegan
        minSmokiness maxSmokiness sortBy sortOrder limit offset := input in
  SearchTool.mkInput query type country region minPrice maxPrice
    minAlcohol maxAlcohol assortment group beerType isNew organic isVegan
    minSmokiness maxSmokiness sortBy sortOrder limit offset.

End SearchSpec.

(** Names used to state what the availability store holds. *)
Module AvailabilitySpec.

(** The document id of an availability record: [productId_storeId]. *)
Definition key (r : StoreAvailability.t) : string :=
  StoreAvailability.productId r +:+ "_" +:+ StoreAvailability.storeId r.

End AvailabilitySpec.

(** Names used to state what the store-hours tool answers. *)
Module StoreHoursSpec.
Import Outlet.

(** The decimal digit [n] as a code unit, and an hour below 100 as the
    site prints it: one digit below ten, else two. *)
Definition digit (n : Z) : ascii := ascii_of_N (Z.to_N (48 + n)).

(** [digit n] is a digit of value [n], and not the dash. *)
Definition digitOk (n : Z) : bool :=
  StoreHours.isDigit (digit n) && (StoreHours.digitValue (digit n) =? n)
  && negb (Ascii.eqb (digit n) "-").

Definition showHour (n : Z) : string :=
  if n <? 10 then String (digit n) ""
  else String (digit (n / 10)) (String (digit (n mod 10)) "").

(** Opening hours in the form [open-close]. *)
Definition hoursText (openHour closeHour : Z) : string :=
  showHour openHour +:+ "-" +:+ showHour closeHour.

(** [store] is in [city], letter case apart; every store is when no city
    is asked for. *)
Definition inCityOf (city : option string) (store : Store) : bool :=
  match Js.truthyOpt city with
  | Some c => String.eqb (Js.toLowerCase (Outlet.city store)) (Js.toLowerCase c)
  | None => true
  end.

(** Some store of the list was not captured on the day [today]. *)
Definition anyStale (today : Date) (stores : list Store) : bool :=
  existsb (fun s => negb (StoreHours.capturedOn today s)) stores.

End StoreHoursSpec.

(** ** Request pacing (src/utils/rate-limiter.ts) *)

Module RateLimit.

(** Times and intervals are whole milliseconds. *)
Record RateLimiter := mkRateLimiter {
  lastRequestTime : Z;
  minIntervalMs : Z;
}.

(** [new RateLimiter(minIntervalMs)] *)
Definition newRateLimiter (minIntervalMs : Z) : RateLimiter :=
  {| lastRequestTime := 0; minIntervalMs := minIntervalMs |}.

(** [throttle()], entered when [Date.now()] reads [now].  [late] is the
    time that passes until the second reading beyond the wait that was
    asked for; a timer does not fire early, so it is not negative. *)
Definition throttle (r : RateLimiter) (now late : Z) : RateLimiter :=
  let timeSinceLastRequest := now - lastRequestTime r in
  let woke :=
    if timeSinceLastRequest <? minIntervalMs r then
      let waitTime := minIntervalMs r - timeSinceLastRequest in
      now + waitTime + late
    else now + late in
  {| lastRequestTime := woke; minIntervalMs := minIntervalMs r |}.

(** [throttleWithJitter()]: the limiter, and the time at which the
    caller goes on to send its request.  [jitter] is
    [Math.random() * maxJitterMs] and [late'] the lateness of the second
    timer. *)
Definition throttleWithJitter (r : RateLimiter) (now late jitter late' : Z)
    : RateLimiter * Z :=
  let r' := throttle r now late in
  (r', lastRequestTime r' + jitter + late').

(** One call of a caller that paces itself: the time it stays idle
    after the previous call has returned, and the three quantities the
    environment chooses. *)
Record Call := mkCall {
  idle : Z;
  late1 : Z;
  jitter : Z;
  late2 : Z;
}.

Definition benign (c : Call) : Prop :=
  0 <= idle c /\ 0 <= late1 c /\ 0 <= jitter c /\ 0 <= late2 c.

(** The calls are made one after the other from time [t]; the result is
    the list of the recorded request times and of the times at which the
    calls returned. *)
Fixpoint runCalls (r : RateLimiter) (t : Z) (calls : list Call)
    : list (Z * Z) :=
  match calls with
  | [] => []
  | c :: rest =>
      let '(r', returned) :=
        throttleWithJitter r (t + idle c) (late1 c) (jitter c) (late2 c) in
      (lastRequestTime r', returned) :: runCalls r' returned rest
  end.

(** A list of numbers in which each is at least [gap] above the one
    before it. *)
Fixpoint spaced (gap : Z) (times : list Z) : Prop :=
  match times with
  | a :: (b :: _) as rest => a + gap <= b /\ spaced gap rest
  | _ => True
  end.

(** *** Exponential back-off *)

Record BackoffOptions := mkOptions {
  o_baseMs : option Z;
  o_maxMs : option Z;
  o_factor : option Z;
}.

Record ExponentialBackoff := mkBackoff {
  attempt : nat;
  baseMs : Z;
  maxMs : Z;
  factor : Z;
}.

(** [v || d] on an optional number: zero is falsy. *)
Definition orElse (v : option Z) (d : Z) : Z :=
  match v with
  | Some x => if x =? 0 then d else x
  | None => d
  end.

(** [new ExponentialBackoff(options)] *)
Definition newBackoff (options : BackoffOptions) : ExponentialBackoff :=
  {| attempt := 0;
     baseMs := orElse (o_baseMs options) 2000;
     maxMs := orElse (o_maxMs options) 60000;
     factor := orElse (o_factor options) 2 |}.

(** [getNextDelay()] *)
Definition getNextDelay (b : ExponentialBackoff) : Z * ExponentialBackoff :=
  let delay := Z.min (baseMs b * factor b ^ Z.of_nat (attempt b)) (maxMs b) in
  (delay,
   {| attempt := S (attempt b); baseMs := baseMs b; maxMs := maxMs b;
      factor := factor b |}).

(** [reset()] *)
Definition reset (b : ExponentialBackoff) : ExponentialBackoff :=
  {| attempt := 0; baseMs := baseMs b; maxMs := maxMs b; factor := factor b |}.

(** The delays of [n] calls of [getNextDelay] in a row. *)
Fixpoint delays (n : nat) (b : ExponentialBackoff) : list Z :=
  match n with
  | O => []
  | S n' => let '(delay, b') := getNextDelay b in delay :: delays n' b'
  end.

End RateLimit.

(** ** The scraper's session and its back-off (src/services/scraper.ts) *)

Module ScraperSession.
Import RateLimit.

Record State := mkState {
  sessionEstablished : bool;
  backoff : ExponentialBackoff;
}.

(** [new AlkoScraper()] *)
Definition initial : State :=
  {| sessionEstablished := false;
     backoff := newBackoff (mkOptions None None None) |}.

(** The [if (!this.sessionEstablished)] block that opens a scrape;
    [homeLoads] tells whether the site root can be loaded.  [None]
    stands for the error that [establishSession] rethrows. *)
Definition ensureSession (homeLoads : bool) (s : State) : option State :=
  if sessionEstablished s then Some s
  else if homeLoads then
    Some {| sessionEstablished := true; backoff := reset (backoff s) |}
  else None.

(** The end of the [try] block of a scrape, and its [catch] block: the
    state, and the time waited before the error is passed on. *)
Definition scrapeSucceeded (s : State) : State :=
  {| sessionEstablished := sessionEstablished s;
     backoff := reset (backoff s) |}.

Definition scrapeFailed (s : State) : State * Z :=
  let '(delay, b) := getNextDelay (backoff s) in
  ({| sessionEstablished :=
        if (3 <? attempt b)%nat then false else sessionEstablished s;
      backoff := b |},
   delay).

(** One scrape: the session is established if it is not, then the page
    is visited.  The state after the call and the time waited in the
    [catch] block. *)
Definition scrape (homeLoads pageLoads : bool) (s : State) : State * Z :=
  match ensureSession homeLoads s with
  | None => (s, 0)
  | Some s1 => if pageLoads then (scrapeSucceeded s1, 0) else scrapeFailed s1
  end.

(** [n] scrapes one after the other whose page visit fails while the
    site root can be loaded; the waits are collected. *)
Fixpoint failingScrapes (n : nat) (s : State) : State * list Z :=
  match n with
  | O => (s, [])
  | S n' =>
      let '(s1, delay) := scrape true false s in
      let '(s2, waited) := failingScrapes n' s1 in
      (s2, delay :: waited)
  end.

(** The back-off has the parameters of [new ExponentialBackoff()]. *)
Definition defaults (s : State) : Prop :=
  baseMs (backoff s) = 2000 /\ maxMs (backoff s) = 60000
  /\ factor (backoff s) = 2.

(** Two seconds doubled [k mod 4] times. *)
Definition cycleDelay (k : nat) : Z := 2000 * 2 ^ Z.of_nat (k mod 4).

End ScraperSession.

(** ** The price list (src/utils/excel-parser.ts) *)

Module ExcelParser.

(** A cell of the sheet as [sheet_to_json] delivers it: missing, text or
    a number. *)
Inductive Cell :=
| CEmpty
| CText (s : string)
| CNumber (q : Q).

(** [row[i]]; a column beyond the end of the row is [undefined]. *)
Definition cell (row : list Cell) (i : nat) : Cell := nth i row CEmpty.

(** [AlkoExcelRow], the Finnish column names without their diacritics. *)
Record AlkoExcelRow := mkRow {
  Numero : string;
  Nimi : string;
  Valmistaja : string;
  Pullokoko : string;
  Hinta : Q;
  Litrahinta : Q;
  Uutuus : option string;
  Hinnastojarjestyskoodi : Q;
  Tyyppi : string;
  Alatyyppi : option string;
  Erityisryhma : option string;
  Oluttyyppi : option string;
  Valmistusmaa : string;
  Alue : option string;
  Vuosikerta : option Q;
  Etikettimerkintoja : option string;
  Huomautus : option string;
  Rypaleet : option string;
  Luonnehdinta : option string;
  Pakkaustyyppi : option string;
  Suljentatyyppi : option string;
  AlkoholiProsentti : Q;
  Hapot : option Q;
  Sokeri : option Q;
  Kantavierre : option Q;
  VariEBC : option Q;
  KatkerotEBU : option Q;
  Energia : option Q;
  Valikoima : string;
  EAN : string;
}.

(** [s.replace(',', '.')]: the first comma becomes a point. *)
Fixpoint replaceComma (s : string) : string :=
  match s with
  | EmptyString => EmptyString
  | String c s' =>
      if Ascii.eqb c "," then String "." s' else String c (replaceComma s')
  end.

(** [v || 0] and [v || ''] on the results of the two cell parsers. *)
Definition orZero (v : option Q) : Q := default 0%Q v.
Definition orEmpty (v : option string) : string := default "" v.

(** The catalogue record keeps the sort code and the vintage as
    integers; the price list holds whole numbers in these two columns,
    on which [whole] is the identity. *)
Definition whole (q : Q) : Z := Qnum q / Zpos (Qden q).

Section WithNumbers.

(** [parseFloat] ([None] for [NaN]) and [String] on a number. *)
Variable parseFloat : string -> option Q.
Variable numberToString : Q -> string.

(** [parseNumber] *)
Definition parseNumber (value : Cell) : option Q :=
  match value with
  | CEmpty => None
  | CText "" => None
  | CNumber q => Some q
  | CText s => parseFloat (replaceComma s)
  end.

(** [parseString] *)
Definition parseString (value : Cell) : option string :=
  match value with
  | CEmpty => None
  | CText "" => None
  | CText s => Some (Enrichment.trim s)
  | CNumber q => Some (Enrichment.trim (numberToString q))
  end.

(** [rowToAlkoExcelRow] *)
Definition rowToAlkoExcelRow (row : list Cell) : option AlkoExcelRow :=
  match Js.truthyOpt (parseString (cell row 0)) with
  | None => None
  | Some numero =>
      Some {| Numero := numero;
              Nimi := orEmpty (parseString (cell row 1));
              Valmistaja := orEmpty (parseString (cell row 2));
              Pullokoko := orEmpty (parseString (cell row 3));
              Hinta := orZero (parseNumber (cell row 4));
              Litrahinta := orZero (parseNumber (cell row 5));
              Uutuus := parseString (cell row 6);
              Hinnastojarjestyskoodi := orZero (parseNumber (cell row 7));
              Tyyppi := orEmpty (parseString (cell row 8));
              Alatyyppi := parseString (cell row 9);
              Erityisryhma := parseString (cell row 10);
              Oluttyyppi := parseString (cell row 11);
              Valmistusmaa := orEmpty (parseString (cell row 12));
              Alue := parseString (cell row 13);
              Vuosikerta := parseNumber (cell row 14);
              Etikettimerkintoja := parseString (cell row 15);
              Huomautus := parseString (cell row 16);
              Rypaleet := parseString (cell row 17);
              Luonnehdinta := parseString (cell row 18);
              Pakkaustyyppi := parseString (cell row 19);
              Suljentatyyppi := parseString (cell row 20);
              AlkoholiProsentti := orZero (parseNumber (cell row 21));
              Hapot := parseNumber (cell row 22);
              Sokeri := parseNumber (cell row 23);
              Kantavierre := parseNumber (cell row 24);
              VariEBC := parseNumber (cell row 25);
              KatkerotEBU := parseNumber (cell row 26);
              Energia := parseNumber (cell row 27);
              Valikoima := orEmpty (parseString (cell row 28));
              EAN := orEmpty (parseString (cell row 29)) |}
  end.

(** [excelRowToProduct], [now] being the reading of [Timestamp.now()]. *)
Definition excelRowToProduct (row : AlkoExcelRow) (now : Timestamp) : Product :=
  {| id := Numero row; name := Nimi row; producer := Valmistaja row;
     ean := EAN row; price := Hinta row; pricePerLiter := Litrahinta row;
     bottleSize := Pullokoko row; packagingType := Pakkaustyyppi row;
     closureType := Suljentatyyppi row; type := Tyyppi row;
     subtype := Alatyyppi row; specialGroup := Erityisryhma row;
     beerType := Oluttyyppi row;
     sortCode := whole (Hinnastojarjestyskoodi row);
     country := Valmistusmaa row; region := Alue row;
     vintage := whole <$> Vuosikerta row;
     grapes := Rypaleet row; labelNotes := Etikettimerkintoja row;
     description := Luonnehdinta row; notes := Huomautus row;
     tasteProfile := None; usageTips := None; servingSuggestion := None;
     foodPairings := None; certificates := None; ingredients := None;
     smokiness := Js.Null; smokinessLabel := None;
     alcoholPercentage := AlkoholiProsentti row;
     acids := Hapot row; sugar := Sokeri row; energy := Energia row;
     originalGravity := Kantavierre row; colorEBC := VariEBC row;
     bitternessEBU := KatkerotEBU row;
     assortment := Valikoima row;
     isNew := match Uutuus row with
              | Some "" | None => false
              | Some _ => true
              end;
     updatedAt := now; createdAt := now |}.

(** [row && row[0] === 'Numero'] *)
Definition isHeader (row : list Cell) : bool :=
  match row with
  | CText s :: _ => String.eqb s "Numero"
  | _ => false
  end.

(** The header search: the index of the first header row among the
    first [bound] rows. *)
Fixpoint findHeader (bound : nat) (i : nat) (data : list (list Cell))
    : option nat :=
  match bound, data with
  | S bound', row :: rest =>
      if isHeader row then Some i else findHeader bound' (S i) rest
  | _, _ => None
  end.

(** The loop over the data rows: a row without cells is passed over, a
    row without a number is counted as skipped, the others become
    products.  [clock k] is the k-th reading of [Timestamp.now()]. *)
Fixpoint parseRows (clock : nat -> Timestamp) (k : nat)
    (rows : list (list Cell)) : list Product * nat :=
  match rows with
  | [] => ([], O)
  | [] :: rest => parseRows clock k rest
  | row :: rest =>
      match rowToAlkoExcelRow row with
      | None =>
          let '(products, skipped) := parseRows clock k rest in
          (products, S skipped)
      | Some excelRow =>
          let '(products, skipped) := parseRows clock (S k) rest in
          (excelRowToProduct excelRow (clock k) :: products, skipped)
      end
  end.

(** The message of the error for a sheet without header row; the
    column name stands between double quotes. *)
Definition headerNotFound : string :=
  "Could not find header row with "
  +:+ String (ascii_of_nat 34) "Numero" +:+ String (ascii_of_nat 34) " column".

(** [parseAlkoExcel] on the rows of the first sheet: the products, or
    the message of the error that is thrown. *)
Definition parseAlkoExcel (clock : nat -> Timestamp) (data : list (list Cell))
    : list Product + string :=
  match findHeader 10 0 data with
  | None => inr headerNotFound
  | Some headerRowIndex =>
      inl (parseRows clock 0 (drop (S headerRowIndex) data)).1
  end.

(** [validateProducts]: the errors of one product, and the two lists. *)
Definition errorsOf (product : Product) : list string :=
  (if Js.truthy (id product) then [] else ["Missing product ID"])
  ++ (if Js.truthy (name product) then [] else ["Missing product name"])
  ++ (if Qle_bool 0 (price product) then []
      else ["Invalid price: " +:+ numberToString (price product)])
  ++ (if Qle_bool 0 (alcoholPercentage product)
         && Qle_bool (alcoholPercentage product) 100
      then []
      else ["Invalid alcohol percentage: "
            +:+ numberToString (alcoholPercentage product)]).

Record Validation := mkValidation {
  valid : list Product;
  invalid : list (Product * list string);
}.

Fixpoint validateProducts (products : list Product) : Validation :=
  match products with
  | [] => {| valid := []; invalid := [] |}
  | product :: rest =>
      let v := validateProducts rest in
      match errorsOf product with
      | [] => {| valid := product :: valid v; invalid := invalid v |}
      | errors => {| valid := valid v; invalid := (product, errors) :: invalid v |}
      end
  end.

End WithNumbers.

(** A row that holds at least one cell. *)
Definition hasCells (row : list Cell) : bool :=
  match row with [] => false | _ => true end.

(** What [validateProducts] accepts. *)
Definition acceptable (product : Product) : bool :=
  Js.truthy (id product) && Js.truthy (name product)
  && Qle_bool 0 (price product)
  && Qle_bool 0 (alcoholPercentage product)
  && Qle_bool (alcoholPercentage product) 100.

End ExcelParser.

(** ** The product sync (src/services/data-sync.ts, src/services/firestore.ts) *)

Module Sync.
Import ExcelParser.

Inductive SyncType := product_sync | store_sync.
Inductive SyncStatus := started | completed | failed.

(** A document of the [syncLogs] collection. *)
Record SyncLog := mkLog {
  l_type : SyncType;
  l_status : SyncStatus;
  l_productsProcessed : nat;
  l_productsAdded : nat;
  l_productsUpdated : nat;
  l_errors : list string;
  l_startedAt : Timestamp;
  l_completedAt : option Timestamp;
  l_sourceUrl : string;
}.

(** What [syncProducts] returns. *)
Record SyncResult := mkResult {
  success : bool;
  productsProcessed : nat;
  productsAdded : nat;
  productsUpdated : nat;
  errors : list string;
}.

(** What [syncStores] returns. *)
Record StoreSyncResult := mkStoreResult {
  s_success : bool;
  storesProcessed : nat;
  s_errors : list string;
}.

(** The [products] and [stores] collections, the sync logs in the order
    of their creation (the id of a log is its position) and the number
    of clock readings taken.  The document store is taken to accept
    every write. *)
Record State := mkState {
  products : gmap string Product;
  stores : list Outlet.Store;
  syncLogs : list SyncLog;
  tick : nat;
}.

Section WithEnvironment.

Variable clock : nat -> Timestamp.
Variable fetchHome : option Download.Response.
Variable fetchPriceList : string -> option Download.Response.

(** [error.message] of a failed download. *)
Variable messageOf : Download.DownloadError -> string.

(** [XLSX.read] and [sheet_to_json] on the first sheet: the rows, or
    the message of the error that reading the workbook throws. *)
Variable readWorkbook : list N -> list (list Cell) + string.

Variable parseFloat : string -> option Q.
Variable numberToString : Q -> string.

Variable alkoPriceListUrl : string.

(** [FirestoreService.createSyncLog] *)
Definition createSyncLog (type : SyncType) (sourceUrl : string) (s : State)
    : nat * State :=
  (length (syncLogs s),
   {| products := products s; stores := stores s;
      syncLogs :=
        syncLogs s ++
        [{| l_type := type; l_status := started;
            l_productsProcessed := 0; l_productsAdded := 0;
            l_productsUpdated := 0; l_errors := [];
            l_startedAt := clock (tick s); l_completedAt := None;
            l_sourceUrl := sourceUrl |}];
      tick := S (tick s) |}).

(** [FirestoreService.completeSyncLog] *)
Definition completeSyncLog (logId : nat) (result : SyncResult) (s : State)
    : State :=
  {| products := products s; stores := stores s;
     syncLogs :=
       alter (fun log =>
                {| l_type := l_type log; l_status := completed;
                   l_productsProcessed := productsProcessed result;
                   l_productsAdded := productsAdded result;
                   l_productsUpdated := productsUpdated result;
                   l_errors := errors result;
                   l_startedAt := l_startedAt log;
                   l_completedAt := Some (clock (tick s));
                   l_sourceUrl := l_sourceUrl log |})
             logId (syncLogs s);
     tick := S (tick s) |}.

(** [FirestoreService.failSyncLog] *)
Definition failSyncLog (logId : nat) (error : string) (s : State) : State :=
  {| products := products s; stores := stores s;
     syncLogs :=
       alter (fun log =>
                {| l_type := l_type log; l_status := failed;
                   l_productsProcessed := l_productsProcessed log;
                   l_productsAdded := l_productsAdded log;
                   l_productsUpdated := l_productsUpdated log;
                   l_errors := [error];
                   l_startedAt := l_startedAt log;
                   l_completedAt := Some (clock (tick s));
                   l_sourceUrl := l_sourceUrl log |})
             logId (syncLogs s);
     tick := S (tick s) |}.

(** The [try] block up to the upsert: the parsed products and the clock
    readings that parsing took, or the message of the error thrown. *)
Definition downloadAndParse (s : State) : list Product * nat + string :=
  match Download.downloadPriceList fetchHome fetchPriceList with
  | inr error => inr (messageOf error)
  | inl buffer =>
      match readWorkbook buffer with
      | inr message => inr message
      | inl data =>
          match parseAlkoExcel parseFloat numberToString
                  (fun k => clock (tick s + k)) data with
          | inr message => inr message
          | inl products => inl (products, length products)
          end
      end
  end.

(** The line that reports a rejected product. *)
Definition errorLine (entry : Product * list string) : string :=
  "Product " +:+ id entry.1 +:+ ": " +:+ Js.join ", " entry.2.

(** [DataSyncService.syncProducts] *)
Definition syncProducts (s : State) : SyncResult * State :=
  let '(syncLogId, s1) := createSyncLog product_sync alkoPriceListUrl s in
  match downloadAndParse s1 with
  | inl (parsed, readings) =>
      let v := validateProducts numberToString parsed in
      let errors := map errorLine (invalid v) in
      let u :=
        Upsert.upsertProducts clock (valid v) (products s1)
          (tick s1 + readings) in
      let result :=
        {| success := true;
           productsProcessed := length (valid v);
           productsAdded := Upsert.added u;
           productsUpdated := Upsert.updated u;
           errors := errors |} in
      (result,
       completeSyncLog syncLogId result
         {| products := Upsert.docs u; stores := stores s1;
            syncLogs := syncLogs s1; tick := Upsert.tick u |})
  | inr errorMessage =>
      ({| success := false; productsProcessed := 0; productsAdded := 0;
          productsUpdated := 0; errors := [errorMessage] |},
       failSyncLog syncLogId errorMessage s1)
  end.

(** *** Stores *)

(** The calendar view of a reading of the clock ([toDate]). *)
Variable dateOf : Timestamp -> Outlet.Date.

(** What [AlkoScraper.scrapeStores] has parsed when it comes to saving,
    or the message of the error that the scrape throws. *)
Variable scrapeStores : list Outlet.Store + string.

(** [{ ...store, updatedAt: Timestamp.now() }] *)
Definition stamped (store : Outlet.Store) (now : Outlet.Date) : Outlet.Store :=
  {| Outlet.id := Outlet.id store; Outlet.name := Outlet.name store;
     Outlet.city := Outlet.city store; Outlet.address := Outlet.address store;
     Outlet.postalCode := Outlet.postalCode store;
     Outlet.coordinates := Outlet.coordinates store;
     Outlet.storeLink := Outlet.storeLink store;
     Outlet.phone := Outlet.phone store; Outlet.email := Outlet.email store;
     Outlet.openingHoursToday := Outlet.openingHoursToday store;
     Outlet.openingHoursTomorrow := Outlet.openingHoursTomorrow store;
     Outlet.updatedAt := Some now |}.

(** [doc(id).set(data)] on the [stores] collection. *)
Fixpoint setStore (doc : Outlet.Store) (collection : list Outlet.Store)
    : list Outlet.Store :=
  match collection with
  | [] => [doc]
  | d :: rest =>
      if String.eqb (Outlet.id d) (Outlet.id doc) then doc :: rest
      else d :: setStore doc rest
  end.

(** [FirestoreService.upsertStore] *)
Definition upsertStore (s : State) (store : Outlet.Store) : State :=
  {| products := products s;
     stores := setStore (stamped store (dateOf (clock (tick s)))) (stores s);
     syncLogs := syncLogs s;
     tick := S (tick s) |}.

(** [DataSyncService.syncStores]; the scraper saves the stores it has
    parsed before it returns them. *)
Definition syncStores (s : State) : StoreSyncResult * State :=
  let '(syncLogId, s1) :=
    createSyncLog store_sync "https://www.alko.fi/myymalat-palvelut" s in
  match scrapeStores with
  | inl scraped =>
      let s2 := foldl upsertStore s1 scraped in
      ({| s_success := true; storesProcessed := length scraped;
          s_errors := [] |},
       completeSyncLog syncLogId
         {| success := true; productsProcessed := length scraped;
            productsAdded := length scraped; productsUpdated := 0;
            errors := [] |}
         s2)
  | inr errorMessage =>
      ({| s_success := false; storesProcessed := 0;
          s_errors := [errorMessage] |},
       failSyncLog syncLogId errorMessage s1)
  end.

(** [await dataSync.syncStores()] as the store-hours tool sees it: the
    [stores] collection after the call.  The call returns also when the
    scrape has failed; the writes of the sync log succeed here. *)
Definition refreshStores (s : State) (collection : list Outlet.Store)
    : list Outlet.Store * option string :=
  (stores (syncStores
             {| products := products s; stores := collection;
                syncLogs := syncLogs s; tick := tick s |}).2,
   None).

End WithEnvironment.

End Sync.

(** ** Food pairing symbols (src/types/food-symbols.ts) *)

Module FoodSymbols.

(** The letters of the Finnish names outside ASCII, as Latin-1 code
    units. *)
Definition a_uml : string := String (ascii_of_nat 228) "".
Definition o_uml : string := String (ascii_of_nat 246) "".
Definition A_uml : string := String (ascii_of_nat 196) "".

Record FoodSymbol := mkFoodSymbol {
  fs_name : string;
  symbolId : string;
  englishNames : list string;
}.

Definition FOOD_SYMBOLS : list FoodSymbol := [
  mkFoodSymbol ("Aperitiivi") ("foodSymbol_Aperitiivi")
    ["aperitif"; "appetizer"];
  mkFoodSymbol ("Blinit") ("foodSymbol_Blinit")
    ["blini"; "blinis"; "pancake"];
  mkFoodSymbol ("Grilliruoka") ("foodSymbol_Grilliruoka")
    ["grill"; "grilled"; "bbq"; "barbecue"];
  mkFoodSymbol ("It" +:+ a_uml +:+ "mainen ruoka") ("foodSymbol_Itamainenruoka")
    ["asian"; "oriental"; "chinese"; "thai"; "vietnamese"; "indian"];
  mkFoodSymbol ("Kana, kalkkuna") ("foodSymbol_Kanakalkkuna")
    ["chicken"; "turkey"; "poultry"];
  mkFoodSymbol ("Keitot") ("foodSymbol_Keitot")
    ["soup"; "soups"; "stew"];
  mkFoodSymbol ("Lammas") ("foodSymbol_Lammas")
    ["lamb"; "mutton"];
  mkFoodSymbol ("Makea j" +:+ a_uml +:+ "lkiruoka") ("foodSymbol_Makeajalkiruoka")
    ["dessert"; "sweet"; "cake"; "pastry"; "chocolate"];
  mkFoodSymbol ("Maksa") ("foodSymbol_Maksa")
    ["liver"; "pate"; "foie gras"];
  mkFoodSymbol ("Marjat ja hedelm" +:+ a_uml +:+ "t") ("foodSymbol_Marjatjahedelm" +:+ a_uml +:+ "t")
    ["berries"; "fruits"; "fruit"];
  mkFoodSymbol ("Mausteiset ja lihaisat makkarat") ("foodSymbol_Mausteisetjalihaisatmakkarat")
    ["spicy sausage"; "chorizo"; "salami"];
  mkFoodSymbol ("Miedot juustot") ("foodSymbol_Miedotjuustot")
    ["mild cheese"; "soft cheese"; "brie"; "camembert"; "mozzarella"];
  mkFoodSymbol ("Miedot makkarat") ("foodSymbol_Miedotmakkarat")
    ["mild sausage"; "frankfurter"; "hot dog"];
  mkFoodSymbol ("Nauta") ("foodSymbol_Nauta")
    ["beef"; "steak"; "cattle"];
  mkFoodSymbol ("Nautiskelujuoma") ("foodSymbol_Nautiskelujuoma")
    ["sipping"; "digestif"; "nightcap"];
  mkFoodSymbol ("Noutop" +:+ o_uml +:+ "yt" +:+ a_uml) ("foodSymbol_Noutop" +:+ o_uml +:+ "yt" +:+ a_uml)
    ["buffet"; "smorgasbord"];
  mkFoodSymbol ("Pasta ja pizza") ("foodSymbol_Pastajapizza")
    ["pasta"; "pizza"; "italian"];
  mkFoodSymbol ("Pataruoka") ("foodSymbol_Pataruoka")
    ["casserole"; "pot roast"];
  mkFoodSymbol ("Pikkusuolaiset") ("foodSymbol_Pikkusuolaiset")
    ["snacks"; "appetizers"; "tapas"; "finger food"];
  mkFoodSymbol ("Porsas") ("foodSymbol_Porsas")
    ["pork"; "pig"; "ham"; "bacon"];
  mkFoodSymbol ("Rasvainen kala") ("foodSymbol_Rasvainenkala")
    ["oily fish"; "fatty fish"; "salmon"; "mackerel"; "tuna"; "sardine"];
  mkFoodSymbol ("Riista") ("foodSymbol_Riista")
    ["game"; "venison"; "wild boar"; "elk"; "moose"; "reindeer"];
  mkFoodSymbol ("Riistalinnut") ("foodSymbol_Riistalinnut")
    ["game birds"; "pheasant"; "duck"; "goose"; "quail"];
  mkFoodSymbol ("Salaatit, kasvisruoka") ("foodSymbol_Salaatitkasvisruoka")
    ["salad"; "vegetarian"; "vegan"; "vegetables"];
  mkFoodSymbol ("Seurustelujuoma") ("foodSymbol_Seurustelujuoma")
    ["social"; "party"; "casual"];
  mkFoodSymbol ("Sienet") ("foodSymbol_Sienet")
    ["mushroom"; "mushrooms"; "truffle"];
  mkFoodSymbol ("Simpukat ja osterit") ("foodSymbol_Simpukatjaosterit")
    ["mussels"; "oysters"; "clams"; "shellfish"];
  mkFoodSymbol ("Sushi") ("foodSymbol_Sushi")
    ["sushi"; "sashimi"; "japanese"];
  mkFoodSymbol ("Tapas ja antipasti") ("foodSymbol_Tapasjaantipasti")
    ["tapas"; "antipasti"; "mezze"; "small plates"];
  mkFoodSymbol ("Tulinen ruoka") ("foodSymbol_Tulinenruoka")
    ["spicy"; "hot"; "chili"; "curry"];
  mkFoodSymbol ("V" +:+ a_uml +:+ "h" +:+ a_uml +:+ "rasvainen kala") ("foodSymbol_Vaharasvainenkala")
    ["white fish"; "lean fish"; "cod"; "halibut"; "sea bass"; "pike"];
  mkFoodSymbol ("Voimakkaat juustot") ("foodSymbol_Voimakkaatjuustot")
    ["strong cheese"; "blue cheese"; "aged cheese"; "parmesan"; "gorgonzola"; "roquefort"];
  mkFoodSymbol (A_uml +:+ "yri" +:+ a_uml +:+ "iset") ("foodSymbol_Ayriaiset")
    ["seafood"; "shrimp"; "prawn"; "lobster"; "crab"; "crayfish"]
].

(** [findFoodSymbol] *)
Definition findFoodSymbol (query : string) : option FoodSymbol :=
  let queryLower := Enrichment.trim (Js.toLowerCase query) in
  if negb (Js.truthy queryLower) then None
  else
    let exactFinnish :=
      List.find (fun s => String.eqb (Js.toLowerCase (fs_name s)) queryLower)
                FOOD_SYMBOLS in
    match exactFinnish with
    | Some s => Some s
    | None =>
        let partialFinnish :=
          List.find
            (fun s => Js.includes (Js.toLowerCase (fs_name s)) queryLower
                      || Js.includes queryLower (Js.toLowerCase (fs_name s)))
            FOOD_SYMBOLS in
        match partialFinnish with
        | Some s => Some s
        | None =>
            List.find
              (fun symbol =>
                 Js.some (fun eng => Js.includes queryLower eng
                                     || Js.includes eng queryLower)
                         (englishNames symbol))
              FOOD_SYMBOLS
        end
    end.

End FoodSymbols.

(** Names used to state what the lookup of a food symbol finds. *)
Module FoodSymbolsSpec.
Import FoodSymbols.

(** The English names that the lookup resolves to a symbol other than
    the one that lists them: the listing symbol, the name, the symbol
    found. *)
Definition strayEnglishNames : list (string * string * string) := [
  ("Makea j" +:+ a_uml +:+ "lkiruoka", "cake", "Blinit");
  ("Pikkusuolaiset", "appetizers", "Aperitiivi");
  ("Pikkusuolaiset", "tapas", "Tapas ja antipasti");
  ("Riistalinnut", "game birds", "Riista");
  ("Tulinen ruoka", "spicy", "Mausteiset ja lihaisat makkarat");
  ("Tulinen ruoka", "hot", "Miedot makkarat")
].

(** What the lookup gives for the English name [eng] of [symbol]: the
    name of the symbol found when it is another one. *)
Definition strays : list (string * string * string) :=
  flat_map
    (fun symbol =>
       flat_map
         (fun eng =>
            match findFoodSymbol eng with
            | Some found =>
                if String.eqb (symbolId found) (symbolId symbol) then []
                else [(fs_name symbol, eng, fs_name found)]
            | None => [(fs_name symbol, eng, "")]
            end)
         (englishNames symbol))
    FOOD_SYMBOLS.

End FoodSymbolsSpec.

(** ** Recommendations (src/tools/get-recommendations.ts) *)

Module Recommend.
Import FoodSymbols.

Record GetRecommendationsInput := mkInput {
  preferredTypes : option (list string);
  priceRange : option (Q * Q);
  occasion : option string;
  foodPairing : option string;
  preferOrganic : option bool;
  preferVegan : option bool;
  i_country : option string;
  i_limit : nat;
}.

(** The answer without its [reasoning] sentence. *)
Record Recommendations := mkRecommendations {
  recommendations : list Product;
  foodSymbol : option string;
  availableFoodSymbols : option (list string);
}.

Record Occasion := mkOccasion {
  types : list string;
  priceMultiplier : Q;
}.

(** [OCCASIONS], in the order of its keys. *)
Definition OCCASIONS : list (string * Occasion) := [
  ("dinner party",
   mkOccasion ["punaviinit"; "valkoviinit"; "kuohuviinit ja samppanjat"] (3 # 2));
  ("gift",
   mkOccasion ["kuohuviinit ja samppanjat"; "viskit"; "konjakit"] (2 # 1));
  ("casual",
   mkOccasion ["punaviinit"; "valkoviinit"; "oluet"; "siiderit"] (4 # 5));
  ("celebration", mkOccasion ["kuohuviinit ja samppanjat"] (3 # 2));
  ("aperitif",
   mkOccasion ["kuohuviinit ja samppanjat"; "valkoviinit"; "roseeviinit"] (1 # 1));
  ("nightcap",
   mkOccasion ["viskit"; "konjakit"; "brandyt, armanjakit ja calvadosit";
               "lik" +:+ o_uml +:+ o_uml +:+ "rit ja katkerot"] (3 # 2))
].

(** [if (flag)] on an optional boolean, and on a number: zero is falsy. *)
Definition isSet (flag : option bool) : bool := default false flag.
Definition nonZero (q : Q) : bool := negb (Qeq_bool q 0).

(** [a < b] on numbers. *)
Definition lessThan (a b : Q) : bool := negb (Qle_bool b a).

(** [types.includes(t)] *)
Definition includesType (types : list string) (t : string) : bool :=
  existsb (String.eqb t) types.

Definition isOrganic (product : Product) : bool :=
  match specialGroup product with
  | Some g => String.eqb g "Luomu"
  | None => false
  end.

(** [product.specialGroup?.includes('Vegaaneille')] as a condition. *)
Definition isVegan (product : Product) : bool :=
  match specialGroup product with
  | Some g => Js.includes g "Vegaaneille"
  | None => false
  end.

(** The filters of the food-pairing loop: the product is kept when none
    of the [continue] statements is reached. *)
Definition kept (input : GetRecommendationsInput) (product : Product) : bool :=
  match preferredTypes input with
  | Some (t :: ts) => includesType (t :: ts) (type product)
  | _ => true
  end
  && match Js.truthyOpt (i_country input) with
     | Some c => String.eqb (country product) c
     | None => true
     end
  && match priceRange input with
     | Some (lo, hi) =>
         negb (nonZero lo && lessThan (price product) lo)
         && negb (nonZero hi && lessThan hi (price product))
     | None => true
     end
  && (negb (isSet (preferOrganic input)) || isOrganic product)
  && (negb (isSet (preferVegan input)) || isVegan product).

(** [[...new Set(types)]]: the first occurrence of each element. *)
Fixpoint unique (l seen : list string) : list string :=
  match l with
  | [] => []
  | x :: l' =>
      if existsb (String.eqb x) seen then unique l' seen
      else x :: unique l' (x :: seen)
  end.

(** The score of the fallback ranking. *)
Definition scoreOf (input : GetRecommendationsInput) (product : Product) : Z :=
  (if Enrichment.truthyString (description product) then 2 else 0)
  + (if isNew product then 1 else 0)
  + (if String.eqb (assortment product) "vakiovalikoima" then 1 else 0)
  + (if isSet (preferOrganic input) && isOrganic product then 3 else 0)
  + (if isSet (preferVegan input) && isVegan product then 3 else 0).

(** The types and the price multiplier after the occasion has been
    looked up. *)
Definition occasionTypes (input : GetRecommendationsInput) : list string * Q :=
  let types := default [] (preferredTypes input) in
  match Js.truthyOpt (occasion input) with
  | Some o =>
      let occasionLower := Js.toLowerCase o in
      match List.find (fun entry => Js.includes occasionLower entry.1) OCCASIONS with
      | Some (_, config) =>
          ((types ++ Recommend.types config)%list, priceMultiplier config)
      | None => (types, 1%Q)
      end
  | None => (types, 1%Q)
  end.

(** The filters of the fallback search. *)
Definition fallbackFilters (input : GetRecommendationsInput)
    : Search.ProductSearchFilters :=
  let '(types1, priceMultiplier) := occasionTypes input in
  let types := unique types1 [] in
  let maxPrice :=
    match snd <$> priceRange input with
    | Some hi =>
        Some (if negb (Qeq_bool priceMultiplier 1) && nonZero hi
              then (hi * priceMultiplier)%Q else hi)
    | None => None
    end in
  {| Search.f_query := None;
     Search.f_type := match types with [t] => Some t | _ => None end;
     Search.f_country := Js.truthyOpt (i_country input);
     Search.f_region := None;
     Search.f_minPrice := fst <$> priceRange input;
     Search.f_maxPrice := maxPrice;
     Search.f_minAlcohol := None; Search.f_maxAlcohol := None;
     Search.f_assortment := None;
     Search.f_specialGroup :=
       if isSet (preferOrganic input) then Some "Luomu"
       else if isSet (preferVegan input) then Some "Vegaaneille soveltuva tuote"
       else None;
     Search.f_beerType := None; Search.f_isNew := None;
     Search.f_isOrganic := None; Search.f_isVegan := None;
     Search.f_minSmokiness := None; Search.f_maxSmokiness := None |}.

Section WithServices.

(** The [products] collection, the store's answer to a built query, the
    collation, and [AlkoScraper.searchByFoodSymbol]: the product ids of
    the result page, or [None] when the scrape throws. *)
Variable products : gmap string Product.
Variable runQuery : Search.Query -> list Product.
Variable localeCompare : string -> string -> Z.
Variable searchByFoodSymbol : string -> nat -> option (list string).

(** The loop over the scraped ids, [found] being the products pushed so
    far. *)
Fixpoint collect (input : GetRecommendationsInput) (productIds : list string)
    (found : list Product) : list Product :=
  match productIds with
  | [] => found
  | id :: rest =>
      match products !! id with
      | Some product =>
          if kept input product then
            let found' := (found ++ [product])%list in
            if (i_limit input <=? length found')%nat then found'
            else collect input rest found'
          else collect input rest found
      | None => collect input rest found
      end
  end.

(** The database search that is used without a food pairing and when
    the food-pairing scrape gives nothing. *)
Definition fallback (input : GetRecommendationsInput) : Recommendations :=
  let types := unique (occasionTypes input).1 [] in
  let result :=
    Search.searchProducts runQuery localeCompare (fallbackFilters input)
      {| Search.o_sortBy := Some Search.SortPrice;
         Search.o_sortOrder := Some Search.Desc;
         Search.o_limit := Some (i_limit input * 3)%nat;
         Search.o_offset := None |} in
  let products0 := Search.products result in
  let products1 :=
    if (1 <? length types)%nat
    then List.filter (fun p => includesType types (type p)) products0
    else products0 in
  let scored := map (fun product => (product, scoreOf input product)) products1 in
  let sorted := Js.sortBy (fun a b => b.2 - a.2) scored in
  {| recommendations := map fst (Js.slice sorted 0 (i_limit input));
     foodSymbol := None;
     availableFoodSymbols := None |}.

(** [getRecommendations], after [ensureData()]. *)
Definition getRecommendations (input : GetRecommendationsInput)
    : Recommendations :=
  match Js.truthyOpt (foodPairing input) with
  | Some pairing =>
      match findFoodSymbol pairing with
      | Some symbol =>
          match searchByFoodSymbol (symbolId symbol) (i_limit input * 3) with
          | Some (id :: rest) =>
              {| recommendations := collect input (id :: rest) [];
                 foodSymbol := Some (fs_name symbol);
                 availableFoodSymbols := None |}
          | _ => fallback input
          end
      | None =>
          {| recommendations := [];
             foodSymbol := None;
             availableFoodSymbols := Some (map fs_name FOOD_SYMBOLS) |}
      end
  | None => fallback input
  end.

End WithServices.

End Recommend.

(** ** The HTTP front (src/server.ts) *)

Module Server.

(** An incoming request, by what the handler reads of it. *)
Record Request := mkRequest {
  url : string;
  method : string;
  authorization : option string;
}.

(** What the handler does with a request. *)
Inductive Response :=
| Healthy
| Unauthorized
| HandledByMcp
| NotFound.

Section WithConfig.

(** [config.apiToken]: the environment variable [API_TOKEN]. *)
Variable apiToken : option string.

(** [authHeader.slice(7)] *)
Fixpoint sliceFrom (n : nat) (s : string) : string :=
  match n, s with
  | S n', String _ s' => sliceFrom n' s'
  | _, _ => s
  end.

(** [validateApiToken] *)
Definition validateApiToken (req : Request) : bool :=
  match Js.truthyOpt apiToken with
  | None => true
  | Some configured =>
      match Js.truthyOpt (authorization req) with
      | None => false
      | Some authHeader =>
          let token :=
            if Js.startsWith authHeader "Bearer " then sliceFrom 7 authHeader
            else authHeader in
          String.eqb token configured
      end
  end.

(** The request handler of [startHttpServer]. *)
Definition handle (req : Request) : Response :=
  if String.eqb (url req) "/health" && String.eqb (method req) "GET"
  then Healthy
  else if negb (validateApiToken req) then Unauthorized
  else if String.eqb (url req) "/mcp" || String.eqb (url req) "/"
  then HandledByMcp
  else NotFound.

End WithConfig.

End Server.

(** ** Reading the availability panel (src/services/scraper.ts) *)

Module AvailabilityScrape.
Import Enrichment.
Module SA := StoreAvailability.

(** [ScrapedAvailability]: one entry of the array that the page script
    returns. *)
Record ScrapedAvailability := mkScraped {
  s_storeName : string;
  s_storeLink : string;
  s_amount : string;
  s_lastUpdated : string;
}.

(** The selectors of the page script. *)
Definition isStoreItem (n : Node) : bool :=
  hasTag "li" n && hasClass "store-item" n && hasClass "stockInStore" n.
Definition isNameSpan (n : Node) : bool :=
  hasTag "span" n && (hasClass "store-in-stock" n || hasClass "option-text" n).
Definition isQuantitySpan (n : Node) : bool :=
  hasTag "span" n && hasClass "number-in-stock" n.
Definition isLink (n : Node) : bool := hasTag "a" n.

(** The digits at the start of [s], and [s.match(/(\d+)/)]: the first
    run of digits. *)
Fixpoint digitsPrefix (s : string) : string :=
  match s with
  | String c s' =>
      if StoreHours.isDigit c then String c (digitsPrefix s') else EmptyString
  | EmptyString => EmptyString
  end.

Fixpoint firstDigits (s : string) : option string :=
  match s with
  | EmptyString => None
  | String c s' =>
      if StoreHours.isDigit c then Some (digitsPrefix s) else firstDigits s'
  end.

(** [v || ''] and [v || '0'] on an optional string. *)
Definition orText (fallback : string) (v : option string) : string :=
  default fallback (Js.truthyOpt v).

(** [el?.textContent?.trim()] *)
Definition trimmedText (el : option Node) : option string :=
  (fun n => trim (textContent n)) <$> el.

(** The callback of [storeItems.forEach], [seenStores] being the names
    met so far. *)
Fixpoint scrapeItems (storeItems : list Node) (seenStores : list string)
    : list ScrapedAvailability :=
  match storeItems with
  | [] => []
  | item :: rest =>
      let storeName := orText "" (trimmedText (querySelector isNameSpan item)) in
      if negb (Js.truthy storeName) then scrapeItems rest seenStores
      else if existsb (String.eqb storeName) seenStores
      then scrapeItems rest seenStores
      else
        let quantityText :=
          orText "0" (trimmedText (querySelector isQuantitySpan item)) in
        let amount := default "0" (firstDigits quantityText) in
        let link := querySelector isLink item in
        let dataUrl := orText "" (link ≫= getAttribute "data-url") in
        let href := orText "" (link ≫= getAttribute "href") in
        {| s_storeName := storeName;
           s_storeLink := if Js.truthy dataUrl then dataUrl else href;
           s_amount := amount;
           s_lastUpdated := "" |}
        :: scrapeItems rest (storeName :: seenStores)
  end.

(** The page script on the loaded document. *)
Definition scrapedData (root : Node) : list ScrapedAvailability :=
  scrapeItems (documentAll isStoreItem root) [].

(** [s.replace(/\D/g, '')] and [parseInt(digits, 10) || 0] on a string
    of digits: the empty string gives [NaN], hence 0.  The value is the
    integer that the digits denote, which is what JavaScript computes
    below 2^53. *)
Fixpoint onlyDigits (s : string) : string :=
  match s with
  | String c s' =>
      if StoreHours.isDigit c then String c (onlyDigits s') else onlyDigits s'
  | EmptyString => EmptyString
  end.

Fixpoint decimal (acc : Z) (digits : string) : Z :=
  match digits with
  | String c s' => decimal (10 * acc + StoreHours.digitValue c) s'
  | EmptyString => acc
  end.

Definition quantityOf (amount : string) : Z := decimal 0 (onlyDigits amount).

(** [link.match(/\/(\d+)(?:[/?]|$)/)]: after a slash, a run of digits
    that is followed by a slash, a question mark or the end. *)
Fixpoint dropDigits (s : string) : string :=
  match s with
  | String c s' => if StoreHours.isDigit c then dropDigits s' else s
  | EmptyString => EmptyString
  end.

Definition idAfterSlash (s : string) : option string :=
  match digitsPrefix s with
  | EmptyString => None
  | digits =>
      match dropDigits s with
      | EmptyString => Some digits
      | String c _ =>
          if Ascii.eqb c "/" || Ascii.eqb c "?" then Some digits else None
      end
  end.

Fixpoint matchStoreId (s : string) : option string :=
  match s with
  | EmptyString => None
  | String c s' =>
      if Ascii.eqb c "/" then
        match idAfterSlash s' with
        | Some digits => Some digits
        | None => matchStoreId s'
        end
      else matchStoreId s'
  end.

(** [s.replace(/\s/g, '_')] *)
Fixpoint underscored (s : string) : string :=
  match s with
  | String c s' =>
      String (if Js.isWhiteSpace c then "_"%char else c) (underscored s')
  | EmptyString => EmptyString
  end.

Definition statusOf (quantity : Z) : SA.AvailabilityStatus :=
  if 5 <? quantity then SA.in_stock
  else if 0 <? quantity then SA.low_stock
  else SA.out_of_stock.

(** The callback of [scrapedData.map]. *)
Definition toStoreAvailability (productId : string) (now : Timestamp)
    (data : ScrapedAvailability) : SA.t :=
  let quantity := quantityOf (s_amount data) in
  let storeId :=
    match matchStoreId (s_storeLink data) with
    | Some digits => digits
    | None => underscored (s_storeName data)
    end in
  {| SA.id := productId +:+ "_" +:+ storeId;
     SA.productId := productId;
     SA.storeId := storeId;
     SA.storeName := s_storeName data;
     SA.storeLink := s_storeLink data;
     SA.quantity := quantity;
     SA.status := statusOf quantity;
     SA.lastUpdated := s_lastUpdated data;
     SA.checkedAt := now |}.

(** [scrapedData.map]: [clock k] is the k-th reading of
    [Timestamp.now()]. *)
Fixpoint convert (productId : string) (clock : nat -> Timestamp) (k : nat)
    (scraped : list ScrapedAvailability) : list SA.t :=
  match scraped with
  | [] => []
  | data :: rest =>
      toStoreAvailability productId (clock k) data
      :: convert productId clock (S k) rest
  end.

(** The outlets that a scrape of the loaded page yields. *)
Definition stores (productId : string) (clock : nat -> Timestamp) (k : nat)
    (root : Node) : list SA.t :=
  convert productId clock k (scrapedData root).

(** The name and the quantity text that the page script reads from a
    store item. *)
Definition nameOf (item : Node) : string :=
  orText "" (trimmedText (querySelector isNameSpan item)).

Definition quantityTextOf (item : Node) : string :=
  orText "0" (trimmedText (querySelector isQuantitySpan item)).

End AvailabilityScrape.

(** ** Concrete data for the examples *)

Module Examples.

(** Code-unit order on strings.  It agrees with the Finnish collation on
    the names compared below, which differ at an unaccented capital
    letter. *)
Fixpoint codeUnitCompare (a b : string) : Z :=
  match a, b with
  | EmptyString, EmptyString => 0
  | EmptyString, String _ _ => -1
  | String _ _, EmptyString => 1
  | String c a', String d b' =>
      if Ascii.eqb c d then codeUnitCompare a' b'
      else Z.of_N (N_of_ascii c) - Z.of_N (N_of_ascii d)
  end.

(** A store that holds [docs] in name order and is asked no [where]
    clause: it answers with the first [q_limit] documents. *)
Definition storeOf (docs : list Product) (q : Search.Query) : list Product :=
  take (Search.q_limit q) docs.

Definition item (id name producer type country : string)
    (region description grapes : option string) : Product :=
  {| id := id; name := name; producer := producer; ean := "";
     price := 10 # 1; pricePerLiter := 20 # 1; bottleSize := "0.5 l";
     packagingType := None; closureType := None;
     type := type; subtype := None; specialGroup := None; beerType := None;
     sortCode := 100; country := country; region := region; vintage := None;
     grapes := grapes; labelNotes := None; description := description;
     notes := None; tasteProfile := None; usageTips := None;
     servingSuggestion := None; foodPairings := None; certificates := None;
     ingredients := None; smokiness := Js.Null; smokinessLabel := None;
     alcoholPercentage := 12 # 1; acids := None; sugar := None; energy := None;
     originalGravity := None; colorEBC := None; bitternessEBU := None;
     assortment := "vakiovalikoima"; isNew := false;
     updatedAt := 0; createdAt := 0 |}.

(** A red wine whose description holds both query words apart and whose
    grape field holds them as a phrase. *)
Definition bourgogne : Product :=
  item "900001" "Domaine Test Bourgogne" "Domaine Test" "punaviinit" "Ranska"
    (Some "Bourgogne") (Some "noir-tyylinen pinot") (Some "Pinot Noir").

Definition viina : Product :=
  item "000132" "Viina" "Altia" "viinat" "Suomi" None None None.

Definition suomiViina : Product :=
  item "003732" "Suomi Viina" "Altia" "viinat" "Suomi" None None None.

Definition koskenkorvaViina : Product :=
  item "000706" "Koskenkorva Viina" "Altia" "viinat" "Suomi" None None None.

Definition noFilters : Search.ProductSearchFilters :=
  Search.mkFilters None None None None None None None None None None None
    None None None None None.

Definition textQuery (q : string) : Search.ProductSearchFilters :=
  Search.mkFilters (Some q) None None None None None None None None None None
    None None None None None.

Definition page (limit offset : nat) : Search.ProductSearchOptions :=
  Search.mkOptions None None (Some limit) (Some offset).

(** Fifty-seven items that all carry the word "olut" in their name. *)
Definition olut (n : nat) : Product :=
  item (String (ascii_of_nat (48 + n / 10)) (String (ascii_of_nat (48 + n mod 10)) ""))
       ("Olut " ++ String (ascii_of_nat (65 + n)) "")
       "Panimo" "oluet" "Suomi" None None None.

Definition fiftySeven : list Product := map olut (seq 0 57).

(** A collection that holds "Viina", created at time 7 and last written
    at time 9, and a snapshot of two items, one of them new. *)
Definition storedViina : Product := Upsert.withTimestamps viina 7 9.

Definition smallDb : gmap string Product := {[ "000132" := storedViina ]}.

Definition smallSnapshot : list Product := [viina; koskenkorvaViina].

(** A clock that advances by one at every reading. *)
Definition counterClock (k : nat) : Timestamp := 100 + Z.of_nat k.

(** A seed bundle of two items and no outlet. *)
Definition seedOfTwo : Bootstrap.SeedData :=
  {| Bootstrap.version := 1;
     Bootstrap.seedProducts := [viina; koskenkorvaViina];
     Bootstrap.seedStores := [] |}.

(** A seed bundle of two items and two outlets. *)
Definition seedOutlet (id name : string) : Outlet.Store :=
  {| Outlet.id := id; Outlet.name := name;
     Outlet.city := "Helsinki"; Outlet.address := "Salomonkatu 1";
     Outlet.postalCode := "00100"; Outlet.coordinates := None;
     Outlet.storeLink := "/myymalat-palvelut/" +:+ id;
     Outlet.phone := None; Outlet.email := None;
     Outlet.openingHoursToday := None; Outlet.openingHoursTomorrow := None;
     Outlet.updatedAt := None |}.

Definition seedWithOutlets : Bootstrap.SeedData :=
  {| Bootstrap.version := 1;
     Bootstrap.seedProducts := [viina; koskenkorvaViina];
     Bootstrap.seedStores :=
       [seedOutlet "2102" "Alko Helsinki Arkadia";
        seedOutlet "2103" "Alko Helsinki Kamppi"] |}.

(** Availability of item 000132 as persisted by an earlier scrape: one
    outlet in Helsinki, one in Tampere. *)
Definition availabilityDoc (storeId storeName : string) (quantity : Z)
    : StoreAvailability.t :=
  {| StoreAvailability.id := "000132_" +:+ storeId;
     StoreAvailability.productId := "000132";
     StoreAvailability.storeId := storeId;
     StoreAvailability.storeName := storeName;
     StoreAvailability.storeLink := "/myymalat-palvelut/" +:+ storeId;
     StoreAvailability.quantity := quantity;
     StoreAvailability.status := StoreAvailability.in_stock;
     StoreAvailability.lastUpdated := "";
     StoreAvailability.checkedAt := 50 |}.

Definition kamppi : StoreAvailability.t :=
  availabilityDoc "2102" "Alko Helsinki Kamppi" 12.

Definition tampere : StoreAvailability.t :=
  availabilityDoc "2301" "Alko Tampere Keskusta" 8.

Definition persisted : Availability.State :=
  {| Availability.cache := Availability.newCache 3600000;
     Availability.availability := [kamppi; tampere];
     Availability.products := {[ "000132" := storedViina ]} |}.

Definition helsinkiRequest : Availability.GetAvailabilityInput :=
  {| Availability.productId := "000132";
     Availability.city := Some "Helsinki";
     Availability.forceRefresh := true |}.

(** A browser whose navigation fails for every item. *)
Definition siteDown (productId : string) : option (list StoreAvailability.t) :=
  None.

(** An outlet whose hours were captured on 1 November, asked about on
    2 November at two in the afternoon, while the site cannot be
    scraped. *)
Definition arkadia : Outlet.Store :=
  {| Outlet.id := "2102"; Outlet.name := "Alko Helsinki Arkadia";
     Outlet.city := "Helsinki"; Outlet.address := "Salomonkatu 1";
     Outlet.postalCode := "00100"; Outlet.coordinates := None;
     Outlet.storeLink := "/myymalat-palvelut/2102/";
     Outlet.phone := None; Outlet.email := None;
     Outlet.openingHoursToday := Some "9-20";
     Outlet.openingHoursTomorrow := Some "9-18";
     Outlet.updatedAt := Some (Outlet.mkDate 2026 10 1 21) |}.

Definition afternoon (k : nat) : Outlet.Date := Outlet.mkDate 2026 10 2 14.

(** The store sync when the site cannot be scraped: the sync catches
    the error and returns, and no store is written. *)
Definition scrapeFails (collection : list Outlet.Store)
    : list Outlet.Store * option string := (collection, None).

Definition arkadiaRequest : StoreHours.GetStoreHoursInput :=
  {| StoreHours.storeId := Some "2102"; StoreHours.storeName := None;
     StoreHours.city := None; StoreHours.openNow := None;
     StoreHours.limit := 20 |}.

(** The site root, answering with a session cookie. *)
Definition homeResponse : Download.Response :=
  {| Download.ok := true; Download.status := 200; Download.statusText := "OK";
     Download.setCookie := Some "visid_incap=abc";
     Download.contentType := Some "text/html; charset=utf-8";
     Download.arrayBuffer := [] |}.

(** A refusal sent as an empty JSON document with status 200. *)
Definition jsonRefusal (cookies : string) : option Download.Response :=
  Some {| Download.ok := true; Download.status := 200;
          Download.statusText := "OK"; Download.setCookie := None;
          Download.contentType := Some "application/json";
          Download.arrayBuffer := [] |}.

(** A challenge page sent with status 200. *)
Definition htmlChallenge (cookies : string) : option Download.Response :=
  Some {| Download.ok := true; Download.status := 200;
          Download.statusText := "OK"; Download.setCookie := None;
          Download.contentType := Some "text/html; charset=utf-8";
          Download.arrayBuffer := [60; 104; 116; 109; 108; 62]%N |}.

(** A product page whose smokiness widget shows five active icons. *)
Definition smokeyIcon : Enrichment.Node :=
  Enrichment.Elem "div" ["smokiness-icon"; "smokey"] [] [].

Definition fiveIconPage : Enrichment.Page :=
  {| Enrichment.document :=
       Enrichment.Elem "body" [] []
         [Enrichment.Elem "div" ["smokiness"] []
            [Enrichment.Elem "div" ["smokiness-label"] []
               [Enrichment.Text " voimakkaan savuinen "];
             Enrichment.Elem "div" ["smokiness-icons"] []
               [smokeyIcon; smokeyIcon; smokeyIcon; smokeyIcon; smokeyIcon]]];
     Enrichment.tasteMatch := None;
     Enrichment.vinkkiMatch := None;
     Enrichment.tarjoiluMatch := None;
     Enrichment.ingredientsMatch := None |}.

Definition whisky : Product :=
  item "113537" "Test Islay Single Malt" "Test Distillery" "viskit" "Skotlanti"
    None None None.

Definition whiskyOnly : Enrichment.State :=
  {| Enrichment.cache := ∅;
     Enrichment.products := {[ "113537" := whisky ]} |}.

Definition whiskyPage (productId : string) : option Enrichment.Page :=
  Some fiveIconPage.

Definition enrichRequest : Enrichment.GetProductInput :=
  {| Enrichment.productId := "113537";
     Enrichment.includeEnrichedData := true |}.

End Examples.

(** ** More concrete data *)

Module MoreExamples.
Import Examples.

(** An item that matches "viina" through its category only. *)
Definition vodka : Product :=
  item "000999" "Vodka" "Altia" "viinat" "Suomi" None None None.

Definition threeSpirits : list Product := [vodka; suomiViina; koskenkorvaViina].

(** A request of the search tool with nothing but a text query and a
    page. *)
Definition toolQuery (q : string) (limit offset : nat)
    : SearchTool.SearchProductsInput :=
  SearchTool.mkInput (Some q) None None None None None None None None None
    None None None None None None Search.SortName Search.Asc limit offset.

(** A cache key that tells the requests of these examples apart: the
    query text. *)
Definition queryAsKey (filters : Search.ProductSearchFilters)
    (options : Search.ProductSearchOptions) : string :=
  default "" (Search.f_query filters).

(** A request for vegan products. *)
Definition veganRequest : SearchTool.SearchProductsInput :=
  SearchTool.mkInput None None None None None None None None None None
    None None None (Some true) None None Search.SortName Search.Asc 20 0.

(** The answer of an earlier scrape of item 000132, and a state whose
    memory cache has held it since the instant 55. *)
Definition cachedAnswer : AvailabilityResult.t :=
  {| AvailabilityResult.productId := "000132";
     AvailabilityResult.productName := "Viina";
     AvailabilityResult.stores := [kamppi; tampere];
     AvailabilityResult.checkedAt := 55;
     AvailabilityResult.fromCache := false |}.

Definition warmState : Availability.State :=
  {| Availability.cache :=
       LruCache.set 55 "000132" cachedAnswer (Availability.newCache 3600000);
     Availability.availability := [];
     Availability.products := {[ "000132" := storedViina ]} |}.



(** A browser that cannot load any product page. *)
Definition pageFails (productId : string) : option Enrichment.Page := None.

(** Two paced calls made back to back; the first draws 900 ms of
    jitter, the second none. *)
Definition jitteryCalls : list RateLimit.Call :=
  [RateLimit.mkCall 0 0 900 0; RateLimit.mkCall 0 0 0 0].

(** Stand-ins for [parseFloat] and for [String] on a number, for sheets
    whose numbers are held by number cells. *)
Definition readsNoNumber (s : string) : option Q := None.
Definition printsZero (q : Q) : string := "0".

(** A price list: a title, an empty row, the header, a full row, a row
    with a number and no name, and a row without a number. *)
Definition titleRow : list ExcelParser.Cell := [ExcelParser.CText "Alkon hinnasto"].
Definition headerRow : list ExcelParser.Cell :=
  [ExcelParser.CText "Numero"; ExcelParser.CText "Nimi"].
Definition viinaRow : list ExcelParser.Cell :=
  [ExcelParser.CText "000132"; ExcelParser.CText "Viina";
   ExcelParser.CText "Altia"; ExcelParser.CText "0,5 l";
   ExcelParser.CNumber (10 # 1)].
Definition namelessRow : list ExcelParser.Cell := [ExcelParser.CText "000706"].
Definition orphanRow : list ExcelParser.Cell :=
  [ExcelParser.CEmpty; ExcelParser.CText "Altia"].

Definition priceList : list (list ExcelParser.Cell) :=
  [titleRow; []; headerRow; viinaRow; namelessRow; orphanRow].

(** The same rows under ten title rows. *)
Definition lateHeaderSheet : list (list ExcelParser.Cell) :=
  (replicate 10 titleRow ++ [headerRow; viinaRow])%list.

(** The price list served as a spreadsheet, and a collection that holds
    item 000132 with the enriched fields of the whisky page. *)
Definition sheetResponse (cookies : string) : option Download.Response :=
  Some {| Download.ok := true; Download.status := 200;
          Download.statusText := "OK"; Download.setCookie := None;
          Download.contentType := Some "application/vnd.ms-excel";
          Download.arrayBuffer := [80; 75]%N |}.

Definition downloadFailed (e : Download.DownloadError) : string :=
  "download failed".

Definition opensPriceList (buffer : list N)
    : list (list ExcelParser.Cell) + string := inl priceList.

(** The whisky as a seed file written before the smokiness property
    existed stores it: the document has no [smokiness] key. *)
Definition seedWhisky : Product :=
  {| id := id whisky; name := name whisky; producer := producer whisky;
     ean := ean whisky; price := price whisky;
     pricePerLiter := pricePerLiter whisky; bottleSize := bottleSize whisky;
     packagingType := packagingType whisky; closureType := closureType whisky;
     type := type whisky; subtype := subtype whisky;
     specialGroup := specialGroup whisky; beerType := beerType whisky;
     sortCode := sortCode whisky; country := country whisky;
     region := region whisky; vintage := vintage whisky;
     grapes := grapes whisky; labelNotes := labelNotes whisky;
     description := description whisky; notes := notes whisky;
     tasteProfile := None; usageTips := None; servingSuggestion := None;
     foodPairings := None; certificates := None; ingredients := None;
     smokiness := Js.Undefined; smokinessLabel := None;
     alcoholPercentage := alcoholPercentage whisky;
     acids := acids whisky; sugar := sugar whisky; energy := energy whisky;
     originalGravity := originalGravity whisky; colorEBC := colorEBC whisky;
     bitternessEBU := bitternessEBU whisky;
     assortment := assortment whisky; isNew := isNew whisky;
     updatedAt := updatedAt whisky; createdAt := createdAt whisky |}.

Definition seedWhiskyOnly : Enrichment.State :=
  {| Enrichment.cache := ∅;
     Enrichment.products := {[ "113537" := seedWhisky ]} |}.

Definition enrichedViina : Product :=
  Enrichment.withEnrichedFields storedViina
    (Enrichment.extract fiveIconPage) 9.

Definition enrichedDb : Sync.State :=
  {| Sync.products := {[ "000132" := enrichedViina ]}; Sync.stores := [];
     Sync.syncLogs := []; Sync.tick := 0 |}.

(** A collection of three spirits, a result page of the food search
    that lists two of them and an unknown id, and a request for
    something to go with sushi that prefers organic and vegan products. *)
Definition spirits : gmap string Product :=
  {[ "000132" := viina; "003732" := suomiViina; "000706" := koskenkorvaViina ]}.

Definition sushiPage (symbolId : string) (limit : nat) : option (list string) :=
  Some ["003732"; "999999"; "000132"].

Definition sushiRequest (organic vegan : option bool)
    : Recommend.GetRecommendationsInput :=
  {| Recommend.preferredTypes := None; Recommend.priceRange := None;
     Recommend.occasion := None; Recommend.foodPairing := Some "Sushi";
     Recommend.preferOrganic := organic; Recommend.preferVegan := vegan;
     Recommend.i_country := Some "Suomi"; Recommend.i_limit := 5 |}.



(** Store documents written on 2 November, and a store scrape that
    ends in a navigation timeout. *)
Definition writtenOnSecond (t : Timestamp) : Outlet.Date :=
  Outlet.mkDate 2026 10 2 14.

Definition storeScrapeTimesOut : list Outlet.Store + string :=
  inr "Navigation timeout".

Definition giftRequest : Recommend.GetRecommendationsInput :=
  {| Recommend.preferredTypes := None; Recommend.priceRange := None;
     Recommend.occasion := Some "A gift for a friend";
     Recommend.foodPairing := None;
     Recommend.preferOrganic := None; Recommend.preferVegan := None;
     Recommend.i_country := None; Recommend.i_limit := 2 |}.

End MoreExamples.

(** * Facts *)

(** ** JavaScript strings and arrays *)

Module JsFacts.
Import Js.

Example splitWhiteSpace_example :
  splitWhiteSpace " suomi  viina " = [""; "suomi"; "viina"; ""].
Proof. reflexivity. Qed.

Example toLowerCase_example : toLowerCase "Suomi VIINA" = "suomi viina".
Proof. reflexivity. Qed.

Lemma lowerChar_idemp c : lowerChar (lowerChar c) = lowerChar c.
Proof. destruct c as [[] [] [] [] [] [] [] []]; reflexivity. Qed.

Lemma toLowerCase_idemp s : toLowerCase (toLowerCase s) = toLowerCase s.
Proof. induction s as [|c s IH]; simpl; [done|]. by rewrite lowerChar_idemp, IH. Qed.

Lemma append_empty_r (s : string) : s ++ "" = s.
Proof.
  induction s as [|c s IH]; [done|].
  change (String c (s ++ "") = String c s). by rewrite IH.
Qed.

Lemma toLowerCase_app s t :
  toLowerCase (s ++ t) = toLowerCase s ++ toLowerCase t.
Proof. induction s as [|c s IH]; simpl; [done|]. by rewrite IH. Qed.

Lemma truthy_toLowerCase s : truthy (toLowerCase s) = truthy s.
Proof. by destruct s. Qed.

Lemma startsWith_refl s : startsWith s s = true.
Proof.
  induction s as [|c s IH]; simpl; [done|].
  by rewrite Ascii.eqb_refl, IH.
Qed.

Lemma startsWith_empty s : startsWith s "" = true.
Proof. by destruct s. Qed.

Lemma startsWith_app s t u : startsWith s t = true -> startsWith (s ++ u) t = true.
Proof.
  revert s. induction t as [|c t IH]; intros s; [by rewrite !startsWith_empty|].
  destruct s as [|d s]; simpl; [done|].
  intros [-> Ht]%andb_true_iff. by rewrite (IH _ Ht).
Qed.

Lemma includes_empty s : includes s "" = true.
Proof. destruct s; simpl; by rewrite ?startsWith_empty. Qed.

Lemma includes_refl s : includes s s = true.
Proof. destruct s; simpl; [done|]. by rewrite Ascii.eqb_refl, startsWith_refl. Qed.

Lemma includes_startsWith s t : startsWith s t = true -> includes s t = true.
Proof. intros H. destruct s; simpl in *; by rewrite H. Qed.

Lemma includes_cons c s t : includes s t = true -> includes (String c s) t = true.
Proof. intros H. cbn [includes]. rewrite H. apply orb_true_r. Qed.

Lemma includes_app_l s t u : includes s t = true -> includes (s ++ u) t = true.
Proof.
  induction s as [|c s IH].
  - simpl. rewrite orb_false_r. intros H. destruct t; [|done].
    apply includes_empty.
  - cbn [includes]. intros [H|H]%orb_true_iff.
    + apply includes_startsWith. by apply (startsWith_app (String c s)).
    + change (String c s ++ u) with (String c (s ++ u)).
      apply includes_cons. by apply IH.
Qed.

Lemma filterBoolean_truthy s xs :
  truthy s = true -> filterBoolean (Some s :: xs) = s :: filterBoolean xs.
Proof. intros H. cbn [filterBoolean]. by rewrite H. Qed.

(** The pieces of a split are substrings of the string that was split. *)
Lemma splitWhiteSpace_shape s :
  exists h t, splitWhiteSpace s = h :: t
    /\ startsWith s h = true
    /\ Forall (fun w => includes s w = true) t
    /\ (forall c s', s = String c s' -> isWhiteSpace c = true -> h = "").
Proof.
  induction s as [|c s (h & t & Hs & Hh & Ht & Hw)].
  - exists "", []. repeat split; try done.
  - assert (Ht' : Forall (fun w => includes (String c s) w = true) t).
    { eapply Forall_impl; [exact Ht|]. intros w. apply includes_cons. }
    cbn [splitWhiteSpace]. rewrite Hs.
    destruct (isWhiteSpace c) eqn:Hc.
    + destruct s as [|d s'].
      * exists "", (h :: t). repeat split; try done.
        constructor; [|done]. apply includes_cons. by apply includes_startsWith.
      * destruct (isWhiteSpace d) eqn:Hd.
        -- exists h, t. rewrite (Hw d s' eq_refl Hd) in *. repeat split; try done.
        -- exists "", (h :: t). repeat split; try done.
           constructor; [|done]. apply includes_cons. by apply includes_startsWith.
    + exists (String c h), t. repeat split; try done.
      * simpl. by rewrite Ascii.eqb_refl, Hh.
      * intros c' s'' [= <- _] Hc'. congruence.
Qed.

Lemma splitWhiteSpace_includes s w :
  In w (splitWhiteSpace s) -> includes s w = true.
Proof.
  destruct (splitWhiteSpace_shape s) as (h & t & -> & Hh & Ht & _).
  intros [<-|Hin].
  - by apply includes_startsWith.
  - rewrite Forall_forall in Ht. apply Ht. by apply list_elem_of_In.
Qed.

(** Sorting keeps the elements. *)
Lemma insertBy_perm {A} (cmp : A -> A -> Z) x l : insertBy cmp x l ≡ₚ x :: l.
Proof.
  induction l as [|y l IH]; simpl; [done|].
  destruct (cmp x y <=? 0); [done|]. rewrite IH. apply Permutation_swap.
Qed.

Lemma sortBy_perm {A} (cmp : A -> A -> Z) l : sortBy cmp l ≡ₚ l.
Proof.
  induction l as [|x l IH]; simpl; [done|]. by rewrite insertBy_perm, IH.
Qed.

Lemma descending_insertBy {A} (key : A -> Z) (cmp : A -> A -> Z) x l :
  (forall a b, cmp a b <= 0 -> key b <= key a) ->
  (forall a b, 0 < cmp a b -> key a <= key b) ->
  descending key l -> descending key (insertBy cmp x l).
Proof.
  intros Hle Hgt. induction l as [|y l IH]; simpl; [done|].
  intros [Hy Hl]. destruct (Z.leb_spec (cmp x y) 0) as [Hc|Hc].
  - simpl. repeat split; try done. constructor; [by apply Hle|].
    eapply Forall_impl; [exact Hy|]. intros z Hz. specialize (Hle _ _ Hc). simpl in *. lia.
  - simpl. split; [|by apply IH].
    rewrite insertBy_perm. constructor; [by apply Hgt|done].
Qed.

Lemma descending_sortBy {A} (key : A -> Z) (cmp : A -> A -> Z) l :
  (forall a b, cmp a b <= 0 -> key b <= key a) ->
  (forall a b, 0 < cmp a b -> key a <= key b) ->
  descending key (sortBy cmp l).
Proof.
  intros Hle Hgt. induction l as [|x l IH]; simpl; [done|].
  by apply descending_insertBy.
Qed.

Lemma descending_map {A B} (f : A -> B) (key : B -> Z) l :
  descending key (map f l) <-> descending (fun a => key (f a)) l.
Proof.
  induction l as [|x l IH]; simpl; [done|].
  by rewrite IH, List.Forall_map.
Qed.

Lemma descending_filter {A} (key : A -> Z) (p : A -> bool) l :
  descending key l -> descending key (List.filter p l).
Proof.
  induction l as [|x l IH]; simpl; [done|]. intros [Hx Hl].
  destruct (p x); simpl; [split|]; try by apply IH.
  rewrite Forall_forall in *. intros y Hy%list_elem_of_In%filter_In.
  apply Hx, list_elem_of_In, Hy.
Qed.

Lemma descending_drop {A} (key : A -> Z) n l :
  descending key l -> descending key (drop n l).
Proof.
  revert l. induction n as [|n IH]; intros [|x l]; simpl; try done.
  intros [_ Hl]. by apply IH.
Qed.

Lemma descending_take {A} (key : A -> Z) n l :
  descending key l -> descending key (take n l).
Proof.
  revert l. induction n as [|n IH]; intros [|x l]; simpl; try done.
  intros [Hx Hl]. split; [|by apply IH].
  eapply Forall_take in Hx. exact Hx.
Qed.

Lemma descending_slice {A} (key : A -> Z) l a b :
  descending key l -> descending key (slice l a b).
Proof. intros H. by apply descending_take, descending_drop. Qed.

Lemma descending_before {A} (key : A -> Z) l1 x l2 :
  descending key (l1 ++ x :: l2) -> Forall (fun y => key x <= key y) l1.
Proof.
  induction l1 as [|y l1 IH]; simpl; [done|]. intros [Hy Hl].
  constructor; [|by apply IH].
  rewrite Forall_app, Forall_cons in Hy. tauto.
Qed.

Lemma slice_lookup {A} (l : list A) (start len i : nat) :
  slice l start (start + len) !! i
  = if decide (i < len)%nat then l !! (start + i)%nat else None.
Proof.
  unfold slice. replace (start + len - start)%nat with len by lia.
  case_decide.
  - by rewrite lookup_take_lt, lookup_drop.
  - apply lookup_take_ge. lia.
Qed.

Lemma slice_length {A} (l : list A) (start len : nat) :
  length (slice l start (start + len)) = (len `min` (length l - start))%nat.
Proof.
  unfold slice. replace (start + len - start)%nat with len by lia.
  by rewrite length_take, length_drop.
Qed.

End JsFacts.

(** ** The search engine *)

Module SearchFacts.
Import Js JsFacts Search Examples.

(** What the loop over the other fields can return, and when. *)
Lemma scoreOtherFields_cases others queryLower queryWords :
  (scoreOtherFields others queryLower queryWords = 40
     /\ some (fun field => hasPhrase field queryLower) others = true)
  \/ (scoreOtherFields others queryLower queryWords = 30
     /\ some (fun field => hasAllWords field queryWords) others = true)
  \/ (scoreOtherFields others queryLower queryWords = 20
     /\ some (fun field => hasPhrase field queryLower) others = false
     /\ some (fun field => hasAllWords field queryWords) others = false).
Proof.
  induction others as [|field rest IH]; simpl.
  - right; right. done.
  - destruct (hasPhrase field queryLower) eqn:Hp; simpl; [by left|].
    destruct (hasAllWords field queryWords) eqn:Hw; simpl; [by right; left|].
    exact IH.
Qed.

(** The code and the priority list agree except where the code answers
    30 and the list says 40. *)
Lemma score_agrees_or_30_for_40 product queryLower queryWords :
  calculateRelevanceScore product queryLower queryWords
    = priorityScore product queryLower queryWords
  \/ (calculateRelevanceScore product queryLower queryWords = 30
      /\ priorityScore product queryLower queryWords = 40).
Proof.
  unfold calculateRelevanceScore, priorityScore.
  destruct (hasPhrase (toLowerCase (name product)) queryLower); [by left|].
  destruct (hasAllWords (toLowerCase (name product)) queryWords); [by left|].
  destruct (hasPhrase (toLowerCase (producer product)) queryLower); [by left|].
  destruct (hasAllWords (toLowerCase (producer product)) queryWords); [by left|].
  destruct (scoreOtherFields_cases (otherFieldsOf product) queryLower queryWords)
    as [[-> ->]|[[-> Hw]|(-> & -> & ->)]]; try by left.
  rewrite Hw. clear Hw.
  destruct (some _ (otherFieldsOf product)); [by right|by left].
Qed.

(** On a query of one word the two coincide. *)
Lemma score_single_word product word :
  calculateRelevanceScore product word [word] = priorityScore product word [word].
Proof.
  destruct (score_agrees_or_30_for_40 product word [word]) as [?|[H30 H40]]; [done|].
  exfalso. revert H30. unfold calculateRelevanceScore.
  assert (Hone : forall field, hasAllWords field [word] = hasPhrase field word).
  { intros field. unfold hasAllWords, hasPhrase. simpl. apply andb_true_r. }
  rewrite !Hone.
  destruct (hasPhrase (toLowerCase (name product)) word); [done|].
  destruct (hasPhrase (toLowerCase (producer product)) word); [done|].
  induction (otherFieldsOf product) as [|field rest IH];
    cbn [scoreOtherFields]; [done|].
  rewrite Hone. by destruct (hasPhrase field word).
Qed.

Lemma score_le_100 product queryLower queryWords :
  calculateRelevanceScore product queryLower queryWords <= 100.
Proof.
  unfold calculateRelevanceScore.
  destruct (hasPhrase (toLowerCase (name product)) queryLower); [lia|].
  destruct (hasAllWords (toLowerCase (name product)) queryWords); [lia|].
  destruct (hasPhrase (toLowerCase (producer product)) queryLower); [lia|].
  destruct (hasAllWords (toLowerCase (producer product)) queryWords); [lia|].
  destruct (scoreOtherFields_cases (otherFieldsOf product) queryLower queryWords)
    as [[-> _]|[[-> _]|(-> & _)]]; lia.
Qed.

(** The scenario of the design document: the query "Suomi Viina" puts
    the item of that name first with score 100, and "Koskenkorva Viina",
    which has one word in its country and the other in its category,
    after it with score 20. *)
Example suomi_viina_scenario :
  queryWordsOf (toLowerCase "Suomi Viina") = ["suomi"; "viina"]
  /\ calculateRelevanceScore suomiViina "suomi viina" ["suomi"; "viina"] = 100
  /\ calculateRelevanceScore koskenkorvaViina "suomi viina" ["suomi"; "viina"] = 20
  /\ rankByRelevance codeUnitCompare "Suomi Viina" [koskenkorvaViina; suomiViina]
     = [suomiViina; koskenkorvaViina].
Proof. repeat split; vm_compute; reflexivity. Qed.

(** C1, at the input where the field loop leaves the priority order.
    The item below fails the four rules on name and producer; its grape
    field holds the exact phrase, so the fifth rule of the documented
    order gives 40, but the loop meets the description first, finds both
    words there and returns 30. *)
Theorem C1_field_loop_returns_30_where_phrase_rule_gives_40 :
  calculateRelevanceScore bourgogne "pinot noir" ["pinot"; "noir"] = 30
  /\ priorityScore bourgogne "pinot noir" ["pinot"; "noir"] = 40
  /\ queryWordsOf (toLowerCase "Pinot Noir") = ["pinot"; "noir"]
  /\ hasPhrase (toLowerCase (name bourgogne)) "pinot noir" = false
  /\ hasAllWords (toLowerCase (name bourgogne)) ["pinot"; "noir"] = false
  /\ hasPhrase (toLowerCase (producer bourgogne)) "pinot noir" = false
  /\ hasAllWords (toLowerCase (producer bourgogne)) ["pinot"; "noir"] = false
  /\ some (fun field => hasPhrase field "pinot noir") (otherFieldsOf bourgogne) = true.
Proof. repeat split; vm_compute; reflexivity. Qed.

(** *** Ranking *)

Section Ranking.
Variable runQuery : Query -> list Product.
Variable localeCompare : string -> string -> Z.

Lemma compareScored_le a b :
  compareScored localeCompare a b <= 0 -> snd b <= snd a.
Proof.
  unfold compareScored. destruct (Z.eqb_spec (snd b) (snd a)); simpl; lia.
Qed.

Lemma compareScored_gt a b :
  0 < compareScored localeCompare a b -> snd a <= snd b.
Proof.
  unfold compareScored. destruct (Z.eqb_spec (snd b) (snd a)); simpl; lia.
Qed.

Lemma descending_ext {A} (key key' : A -> Z) (l : list A) :
  Forall (fun x => key x = key' x) l -> descending key l -> descending key' l.
Proof.
  induction l as [|x l IH]; simpl; [done|].
  intros [Hx Hl]%Forall_cons [Hd Hdl]. split; [|by apply IH].
  rewrite Forall_forall in *. intros y Hy.
  rewrite <- Hx, <- (Hl y Hy). by apply Hd.
Qed.

Lemma rankByRelevance_descending query snapshot :
  descending
    (fun p => calculateRelevanceScore p (toLowerCase query)
                (queryWordsOf (toLowerCase query)))
    (rankByRelevance localeCompare query snapshot).
Proof.
  unfold rankByRelevance.
  set (score := fun p => calculateRelevanceScore p _ _).
  set (scored := map _ _).
  apply (descending_map fst score).
  apply (descending_ext snd).
  - rewrite Forall_forall. intros x Hx. rewrite sortBy_perm in Hx.
    subst scored. apply list_elem_of_In, in_map_iff in Hx as (p & <- & _). done.
  - apply descending_sortBy; [apply compareScored_le | apply compareScored_gt].
Qed.

Lemma rankByRelevance_In query snapshot p :
  In p (rankByRelevance localeCompare query snapshot)
  <-> In p snapshot /\ matchesQuery (queryWordsOf (toLowerCase query)) p = true.
Proof.
  unfold rankByRelevance. rewrite <- filter_In.
  set (scored := map _ (List.filter _ _)).
  rewrite in_map_iff. split.
  - intros ([p' s] & <- & Hx). apply list_elem_of_In in Hx.
    rewrite sortBy_perm in Hx. subst scored.
    apply list_elem_of_In, in_map_iff in Hx as (p & [= <- _] & Hp). done.
  - intros Hp. eexists (p, _). split; [done|].
    apply list_elem_of_In. rewrite sortBy_perm. apply list_elem_of_In.
    subst scored. apply in_map_iff. by exists p.
Qed.

Lemma postFilter_descending filters query snapshot :
  truthyOpt (f_query filters) = Some query ->
  descending
    (fun p => calculateRelevanceScore p (toLowerCase query)
                (queryWordsOf (toLowerCase query)))
    (postFilter localeCompare filters snapshot).
Proof.
  intros Hq. unfold postFilter. rewrite Hq.
  pose proof (rankByRelevance_descending query snapshot) as H.
  destruct (f_minSmokiness filters), (f_maxSmokiness filters);
    repeat apply descending_filter; exact H.
Qed.

(** An item named by the query: the name holds the phrase, and every
    word of the query is in the searchable text. *)
Lemma name_query_score (I : Product) :
  calculateRelevanceScore I (toLowerCase (toLowerCase (name I)))
    (queryWordsOf (toLowerCase (toLowerCase (name I)))) = 100.
Proof.
  unfold calculateRelevanceScore, hasPhrase.
  by rewrite toLowerCase_idemp, includes_refl.
Qed.

Lemma searchableText_name (p : Product) :
  truthy (name p) = true ->
  exists rest, searchableText p = toLowerCase (name p) ++ rest.
Proof.
  intros Hn. unfold searchableText.
  rewrite (filterBoolean_truthy _ _ Hn).
  destruct (filterBoolean _) as [|x xs].
  - exists "". simpl. by rewrite append_empty_r.
  - cbn [join]. rewrite toLowerCase_app. eauto.
Qed.

Lemma name_query_matches (I : Product) :
  truthy (name I) = true ->
  matchesQuery (queryWordsOf (toLowerCase (toLowerCase (name I)))) I = true.
Proof.
  intros Hn. destruct (searchableText_name I Hn) as [rest Hrest].
  unfold matchesQuery, every. apply forallb_forall. intros w Hw.
  unfold queryWordsOf in Hw. apply filter_In in Hw as [Hw _].
  rewrite toLowerCase_idemp in Hw. rewrite Hrest.
  by apply includes_app_l, splitWhiteSpace_includes.
Qed.

(** C2, as the code has it.  A query equal to the case-folded name of an
    item gives that item the score 100, which no item exceeds; the item
    is kept by the text match, and in the returned page every item in
    front of it also scores 100.  Among the items that score 100 the
    order is the one of the names, so the item need not come first. *)
Theorem C2_name_query_scores_100_and_only_100s_precede
    (I : Product) (filters : ProductSearchFilters) (options : ProductSearchOptions) :
  truthy (name I) = true ->
  f_query filters = Some (toLowerCase (name I)) ->
  let queryLower := toLowerCase (toLowerCase (name I)) in
  let queryWords := queryWordsOf queryLower in
  let score := fun p => calculateRelevanceScore p queryLower queryWords in
  score I = 100
  /\ (forall p, score p <= 100)
  /\ (forall snapshot, In I snapshot ->
        In I (rankByRelevance localeCompare (toLowerCase (name I)) snapshot))
  /\ (forall l1 l2,
        products (searchProducts runQuery localeCompare filters options)
          = (l1 ++ I :: l2)%list ->
        Forall (fun p => score p = 100) l1).
Proof.
  intros Hn Hq queryLower queryWords score.
  assert (HI : score I = 100) by apply name_query_score.
  assert (Hmax : forall p, score p <= 100) by (intros p; apply score_le_100).
  repeat split; try done.
  - intros snapshot Hin. apply rankByRelevance_In. split; [done|].
    by apply name_query_matches.
  - intros l1 l2 Hpage.
    assert (Hd : descending score (l1 ++ I :: l2)%list).
    { rewrite <- Hpage. cbn [searchProducts products].
      apply descending_slice, postFilter_descending.
      rewrite Hq. cbn [truthyOpt]. by rewrite truthy_toLowerCase, Hn. }
    apply descending_before in Hd.
    eapply Forall_impl; [exact Hd|]. intros p Hp. simpl in Hp.
    specialize (Hmax p). lia.
Qed.

(** The page is the window [offset, offset + limit) of the list that is
    left of the fetched documents after all filtering, [total] is the
    length of that list and [hasMore] says whether it goes on past the
    window.  The documents are fetched with the limit of [fetchLimit]:
    15000 for a text search, [limit + 1] otherwise. *)
Lemma page_is_window_of_fetched_matches
    (filters : ProductSearchFilters) (options : ProductSearchOptions) :
  let res := searchProducts runQuery localeCompare filters options in
  let matches :=
    postFilter localeCompare filters
      (runQuery (buildQuery filters (default SortName (o_sortBy options))
                   (default Asc (o_sortOrder options)) (limit res))) in
  limit res = default 20%nat (o_limit options)
  /\ offset res = default 0%nat (o_offset options)
  /\ products res = slice matches (offset res) (offset res + limit res)
  /\ (forall i : nat,
        products res !! i
        = if decide (i < limit res)%nat then matches !! (offset res + i)%nat
          else None)
  /\ total res = length matches
  /\ (hasMore res = true <-> (total res > offset res + limit res)%nat).
Proof.
  intros res matches. cbn [searchProducts res limit offset products total hasMore].
  fold matches.
  set (lim := default 20%nat (o_limit options)).
  set (off := default 0%nat (o_offset options)).
  repeat split; try done.
  - intros i. apply slice_lookup.
  - intros H. apply Nat.ltb_lt in H. lia.
  - intros H. apply Nat.ltb_lt. lia.
Qed.

End Ranking.

(** C2, as stated, fails: both items below contain the query "viina" in
    their name and score 100, and the name order puts "Koskenkorva
    Viina" in front of "Viina", the item the query names. *)
Lemma C2_named_item_is_not_first :
  map (fun p => calculateRelevanceScore p "viina" ["viina"])
      [koskenkorvaViina; viina] = [100; 100]
  /\ toLowerCase (name viina) = "viina"
  /\ products
       (searchProducts (storeOf [koskenkorvaViina; viina]) codeUnitCompare
          (textQuery (toLowerCase (name viina))) (page 20 0))
     = [koskenkorvaViina; viina]
  /\ head (products
       (searchProducts (storeOf [koskenkorvaViina; viina]) codeUnitCompare
          (textQuery (toLowerCase (name viina))) (page 20 0)))
     <> Some viina.
Proof. repeat split; vm_compute; congruence. Qed.

(** The two items of the example: "Viina" scores 100 for its own name,
    and so does the item that precedes it. *)
Lemma C2_witness :
  calculateRelevanceScore viina "viina" ["viina"] = 100
  /\ Forall (fun p => calculateRelevanceScore p "viina" ["viina"] = 100)
       [koskenkorvaViina].
Proof.
  pose proof (C2_name_query_scores_100_and_only_100s_precede
                (storeOf [koskenkorvaViina; viina]) codeUnitCompare viina
                (textQuery (toLowerCase (name viina))) (page 20 0)
                eq_refl eq_refl) as (H1 & _ & _ & H4).
  split; [exact H1|].
  apply (H4 [koskenkorvaViina] []). vm_compute. reflexivity.
Defined.

(** C3, at a search without text over a collection of fifty-seven
    items, all of which pass the (empty) filters.  The store is asked
    for [limit + 1 = 21] documents and the offset is applied to that
    answer: at offset 40 the page is empty and at offset 20 it holds one
    item, [total] is 21 both times and [hasMore] is false, where the
    specification has pages of 17 and of 20 items, 57 matches and
    [hasMore] at offset 20.  The text search over the same items, which
    fetches up to 15000 documents, pages them in that way. *)
Theorem C3_search_without_text_pages_only_21_documents :
  length (postFilter codeUnitCompare noFilters fiftySeven) = 57%nat
  /\ (let res := searchProducts (storeOf fiftySeven) codeUnitCompare
                   noFilters (page 20 40) in
      products res = [] /\ total res = 21%nat /\ hasMore res = false)
  /\ (let res := searchProducts (storeOf fiftySeven) codeUnitCompare
                   noFilters (page 20 20) in
      products res = [olut 20] /\ total res = 21%nat /\ hasMore res = false)
  /\ (let res := searchProducts (storeOf fiftySeven) codeUnitCompare
                   (textQuery "olut") (page 20 40) in
      length (products res) = 17%nat /\ total res = 57%nat
      /\ hasMore res = false)
  /\ (let res := searchProducts (storeOf fiftySeven) codeUnitCompare
                   (textQuery "olut") (page 20 20) in
      length (products res) = 20%nat /\ total res = 57%nat
      /\ hasMore res = true).
Proof. cbv zeta. repeat split; vm_compute; reflexivity. Qed.

End SearchFacts.

(** ** Batch upsert *)

Module UpsertFacts.
Import Upsert UpsertSpec.

Section WithClock.
Variable clock : nat -> Timestamp.

Local Abbreviation readBetween := (UpsertSpec.readBetween clock).
Local Abbreviation writtenFrom := (UpsertSpec.writtenFrom clock).
Local Abbreviation Upserted := (UpsertSpec.Upserted clock).
Local Abbreviation goodWrite := (UpsertSpec.goodWrite clock).

Lemma readBetween_weaken a b a' b' t :
  (a' <= a)%nat -> (b <= b')%nat -> readBetween a b t -> readBetween a' b' t.
Proof. intros Ha Hb (j & Hj & ->). exists j. split; [lia|done]. Qed.

Lemma writtenFrom_weaken a b a' b' l l' k before after :
  (a' <= a)%nat -> (b <= b')%nat -> l ⊆ l' ->
  writtenFrom a b l k before after -> writtenFrom a' b' l' k before after.
Proof.
  intros Ha Hb Hl (p & q & Hp & Hk & Hq & Hf & Hu & Hc).
  exists p, q. repeat split; try done.
  - by apply Hl.
  - by eapply readBetween_weaken.
  - destruct before; [done|]. by eapply readBetween_weaken.
Qed.

Lemma size_union_le (X Y : gset string) : (size (X ∪ Y) <= size X + size Y)%nat.
Proof.
  rewrite size_union_alt.
  assert (size (Y ∖ X) <= size Y)%nat; [|lia].
  apply subseteq_size. intros x Hx. by apply elem_of_difference in Hx as [? _].
Qed.

Lemma size_list_to_set_le (l : list string) :
  (size (list_to_set l : gset string) <= length l)%nat.
Proof.
  induction l as [|x l IH].
  - rewrite list_to_set_nil, size_empty. simpl. lia.
  - rewrite list_to_set_cons.
    pose proof (size_union_le {[x]} (list_to_set l)) as H.
    rewrite size_singleton in H. simpl. lia.
Qed.

Lemma elem_of_newIds db l k :
  k ∈ newIds db l <-> exists p, p ∈ l /\ id p = k /\ db !! k = None.
Proof.
  unfold newIds. rewrite elem_of_list_to_set, list_elem_of_fmap. split.
  - intros (p & -> & Hp). apply list_elem_of_In, filter_In in Hp as [Hp Hk].
    exists p. split; [by apply list_elem_of_In|]. split; [done|].
    unfold known in Hk. apply negb_true_iff, bool_decide_eq_false in Hk.
    destruct (db !! id p) eqn:E; [|done]. exfalso. eauto.
  - intros (p & Hp & <- & Hk). exists p. split; [done|].
    apply list_elem_of_In, filter_In. split; [by apply list_elem_of_In|].
    unfold known. apply negb_true_iff, bool_decide_eq_false.
    rewrite Hk. by intros [? ?].
Qed.

Lemma size_newIds_le db l :
  (size (newIds db l) + countKnown db l <= length l)%nat.
Proof.
  unfold newIds, countKnown.
  pose proof (size_list_to_set_le
                (id <$> List.filter (fun p => negb (known db p)) l)) as H.
  rewrite length_fmap in H.
  assert (length (List.filter (fun p => negb (known db p)) l)
          + length (List.filter (known db) l) = length l)%nat; [|lia].
  clear H. induction l as [|p l IH]; simpl; [done|].
  destruct (known db p); simpl; lia.
Qed.

Lemma Upserted_nil s : Upserted s [] s.
Proof.
  split; try done; try (unfold countKnown; simpl; lia).
  - intros k (p & Hp & _). by apply elem_of_nil in Hp.
  - unfold newIds. cbn [List.filter].
    rewrite fmap_nil, list_to_set_nil, size_empty. lia.
Qed.

Lemma known_mono (db db' : gmap string Product) p :
  (forall k, is_Some (db !! k) -> is_Some (db' !! k)) ->
  known db p = true -> known db' p = true.
Proof.
  unfold known. intros H Hk. apply bool_decide_eq_true in Hk.
  apply bool_decide_eq_true. by apply H.
Qed.

Lemma countKnown_app db l1 l2 :
  countKnown db (l1 ++ l2) = (countKnown db l1 + countKnown db l2)%nat.
Proof. unfold countKnown. by rewrite List.filter_app, length_app. Qed.

Lemma countKnown_le db db' l :
  (forall p, p ∈ l -> known db p = true -> known db' p = true) ->
  (countKnown db l <= countKnown db' l)%nat.
Proof.
  unfold countKnown. induction l as [|p l IH]; simpl; [lia|]. intros H.
  assert (IH' := IH (fun q Hq => H q (list_elem_of_further _ _ _ Hq))).
  destruct (known db p) eqn:Hp.
  - rewrite (H p (list_elem_of_here _ _) Hp). simpl. lia.
  - destruct (known db' p); simpl; lia.
Qed.

Lemma countKnown_ext db db' l :
  (forall p, p ∈ l -> known db p = known db' p) ->
  countKnown db l = countKnown db' l.
Proof.
  unfold countKnown. induction l as [|p l IH]; simpl; [done|]. intros H.
  rewrite (H p (list_elem_of_here _ _)).
  assert (IH' := IH (fun q Hq => H q (list_elem_of_further _ _ _ Hq))).
  destruct (known db' p); simpl; lia.
Qed.

Lemma countKnown_all db l :
  (forall p, p ∈ l -> known db p = true) -> countKnown db l = length l.
Proof.
  unfold countKnown. induction l as [|p l IH]; simpl; [done|]. intros H.
  rewrite (H p (list_elem_of_here _ _)). simpl.
  assert (IH' := IH (fun q Hq => H q (list_elem_of_further _ _ _ Hq))). lia.
Qed.

Lemma id_in_dec (l : list Product) (k : string) :
  (exists p, p ∈ l /\ id p = k) \/ (forall p, p ∈ l -> id p <> k).
Proof.
  destruct (decide (k ∈ id <$> l)) as [Hin|Hout].
  - left. apply list_elem_of_fmap in Hin as (p & -> & Hp). eauto.
  - right. intros p Hp <-. apply Hout. by apply list_elem_of_fmap_2.
Qed.

(** Existing documents stay, whatever is processed. *)
Lemma Upserted_is_Some s l s' k :
  Upserted s l s' -> is_Some (docs s !! k) -> is_Some (docs s' !! k).
Proof.
  intros H Hk.
  destruct (id_in_dec l k) as [Hin|Hout].
  - destruct (up_written _ _ _ _ H k Hin) as (p & q & _ & _ & -> & _). eauto.
  - by rewrite (up_other _ _ _ _ H k).
Qed.

Lemma Upserted_app s l1 s1 l2 s2 :
  Upserted s l1 s1 -> Upserted s1 l2 s2 -> Upserted s (l1 ++ l2) s2.
Proof.
  intros H1 H2.
  pose proof (up_tick _ _ _ _ H1) as Ht1. pose proof (up_tick _ _ _ _ H2) as Ht2.
  split.
  - lia.
  - intros k Hk.
    rewrite (up_other _ _ _ _ H2 k), (up_other _ _ _ _ H1 k); [done| |];
      intros p Hp; apply Hk; apply elem_of_app; auto.
  - intros k H.
    destruct (id_in_dec l2 k) as [Hin2|Hout2].
    + destruct (up_written _ _ _ _ H2 k Hin2)
        as (p & q & Hp & Hk & Hq & Hf & Hu & Hc).
      exists p, q. repeat split; try done; [apply elem_of_app; auto| |].
      { eapply readBetween_weaken; [| |exact Hu]; lia. }
      destruct (id_in_dec l1 k) as [Hin1|Hout1].
      * destruct (up_written _ _ _ _ H1 k Hin1)
          as (p1 & q1 & _ & _ & Hq1 & _ & _ & Hc1).
        rewrite Hq1 in Hc. rewrite Hc.
        destruct (docs s !! k); [done|].
        eapply readBetween_weaken; [| |exact Hc1]; lia.
      * rewrite (up_other _ _ _ _ H1 k) in Hc by done.
        destruct (docs s !! k); [done|].
        eapply readBetween_weaken; [| |exact Hc]; lia.
    + assert (Hin1 : exists p, p ∈ l1 /\ id p = k).
      { destruct H as (p & Hp & Hid). apply elem_of_app in Hp as [Hp|Hp]; [eauto|].
        exfalso. by apply (Hout2 p). }
      rewrite (up_other _ _ _ _ H2 k) by done.
      eapply writtenFrom_weaken; [| | |exact (up_written _ _ _ _ H1 k Hin1)];
        [lia|lia|].
      intros x Hx. apply elem_of_app. auto.
  - rewrite length_app.
    pose proof (up_total _ _ _ _ H1). pose proof (up_total _ _ _ _ H2). lia.
  - rewrite countKnown_app.
    pose proof (up_updated_ge _ _ _ _ H1). pose proof (up_updated_ge _ _ _ _ H2).
    assert (countKnown (docs s) l2 <= countKnown (docs s1) l2)%nat; [|lia].
    apply countKnown_le. intros p _. apply known_mono.
    intros k. exact (Upserted_is_Some s l1 s1 k H1).
  - pose proof (up_added_ge _ _ _ _ H1). pose proof (up_added_ge _ _ _ _ H2).
    assert (size (newIds (docs s) (l1 ++ l2))
            <= size (newIds (docs s) l1) + size (newIds (docs s1) l2))%nat; [|lia].
    etransitivity; [|apply size_union_le]. apply subseteq_size.
    intros k (p & Hp & Hid & Hk)%elem_of_newIds.
    apply elem_of_union.
    destruct (id_in_dec l1 k) as [(p1 & Hp1 & Hid1)|Hout].
    + left. apply elem_of_newIds. eauto.
    + right. apply elem_of_newIds.
      apply elem_of_app in Hp as [Hp|Hp]; [by destruct (Hout p Hp)|].
      exists p. split; [done|]. split; [done|].
      by rewrite (up_other _ _ _ _ H1 k).
  - rewrite fmap_app. intros (Hn1 & Hdisj & Hn2)%NoDup_app.
    rewrite countKnown_app.
    rewrite (up_updated_nodup _ _ _ _ H2 Hn2), (up_updated_nodup _ _ _ _ H1 Hn1).
    assert (countKnown (docs s1) l2 = countKnown (docs s) l2) as ->; [|lia].
    apply countKnown_ext. intros p Hp. unfold known.
    rewrite (up_other _ _ _ _ H1 (id p)); [done|].
    intros p' Hp' Hid. apply (Hdisj (id p)).
    + rewrite <- Hid. by apply list_elem_of_fmap_2.
    + by apply list_elem_of_fmap_2.
Qed.

(** *** One chunk *)

Lemma goodWrite_weaken db a b b' l l' w :
  (b <= b')%nat -> l ⊆ l' -> goodWrite db a b l w -> goodWrite db a b' l' w.
Proof.
  intros Hb Hl (p & Hp & Hk & Hf & Hu & Hc).
  exists p. repeat split; try done.
  - by apply Hl.
  - eapply readBetween_weaken; [| |exact Hu]; lia.
  - destruct (db !! id p); [done|].
    eapply readBetween_weaken; [| |exact Hc]; lia.
Qed.

Lemma stage_spec (s0 : State) (chunk : list Product) :
  batch s0 = [] ->
  let st := foldl (upsertOne clock) s0 chunk in
  docs st = docs s0
  /\ (tick s0 <= tick st)%nat
  /\ (batch st).*1 = id <$> chunk
  /\ Forall (goodWrite (docs s0) (tick s0) (tick st) chunk) (batch st)
  /\ (added st + updated st = added s0 + updated s0 + length chunk)%nat
  /\ updated st = (updated s0 + countKnown (docs s0) chunk)%nat.
Proof.
  intros Hb. induction chunk as [|p chunk IH] using rev_ind.
  - simpl. rewrite Hb. unfold countKnown. simpl. repeat split; try done; lia.
  - rewrite foldl_app. cbn [foldl].
    destruct IH as (Hdocs & Htick & Hkeys & Hgood & Htot & Hupd).
    set (st := foldl (upsertOne clock) s0 chunk) in *.
    rewrite countKnown_app, length_app, fmap_app.
    unfold countKnown at 2. cbn [List.filter length]. unfold known.
    unfold upsertOne. rewrite Hdocs.
    destruct (docs s0 !! id p) as [e|] eqn:He.
    + rewrite bool_decide_eq_true_2 by eauto. cbn.
      rewrite fmap_app, Hkeys. repeat split; try done; try lia.
      apply Forall_app. split.
      * eapply Forall_impl; [exact Hgood|]. intros w.
        apply goodWrite_weaken; [lia|]. intros x Hx. apply elem_of_app. auto.
      * constructor; [|done]. exists p. cbn. rewrite He.
        repeat split; try done.
        -- apply elem_of_app. right. apply list_elem_of_here.
        -- exists (tick st). split; [lia|done].
    + rewrite bool_decide_eq_false_2 by (intros [? ?]; congruence). cbn.
      rewrite fmap_app, Hkeys. repeat split; try done; try lia.
      apply Forall_app. split.
      * eapply Forall_impl; [exact Hgood|]. intros w.
        apply goodWrite_weaken; [lia|]. intros x Hx. apply elem_of_app. auto.
      * constructor; [|done]. exists p. cbn. rewrite He.
        repeat split; try done.
        -- apply elem_of_app. right. apply list_elem_of_here.
        -- exists (S (tick st)). split; [lia|done].
        -- exists (tick st). split; [lia|done].
Qed.

Lemma commit_lookup (ws : list (string * Product)) (m : gmap string Product) k :
  (k ∉ ws.*1 -> foldl (fun m w => <[w.1 := w.2]> m) m ws !! k = m !! k)
  /\ (k ∈ ws.*1 ->
      exists w, w ∈ ws /\ w.1 = k
        /\ foldl (fun m w => <[w.1 := w.2]> m) m ws !! k = Some w.2).
Proof.
  revert m. induction ws as [|w ws IH]; intros m; cbn [foldl fmap list_fmap].
  - split; [done|]. intros H. by apply elem_of_nil in H.
  - destruct (IH (<[w.1 := w.2]> m)) as [IHout IHin]. split.
    + intros Hk. apply not_elem_of_cons in Hk as [Hne Hk].
      rewrite IHout by done. by rewrite lookup_insert_ne.
    + intros Hk. destruct (decide (k ∈ ws.*1)) as [Hin|Hout].
      * destruct (IHin Hin) as (w' & Hw' & Hk' & Hl).
        exists w'. split; [by apply list_elem_of_further|done].
      * apply elem_of_cons in Hk as [->|Hk]; [|done].
        exists w. split; [apply list_elem_of_here|]. split; [done|].
        rewrite IHout by done. apply lookup_insert_eq.
Qed.

Lemma upsertChunk_spec (s : State) (chunk : list Product) :
  Upserted s chunk (upsertChunk clock s chunk).
Proof.
  unfold upsertChunk.
  set (s0 := {| docs := docs s; tick := tick s; batch := [];
                added := added s; updated := updated s |}).
  destruct (stage_spec s0 chunk eq_refl)
    as (Hdocs & Htick & Hkeys & Hgood & Htot & Hupd).
  set (st := foldl (upsertOne clock) s0 chunk) in *.
  cbn [docs tick added updated s0] in *.
  split; cbn [commit docs tick added updated].
  - done.
  - intros k Hk.
    destruct (commit_lookup (batch st) (docs st) k) as [Hout _].
    rewrite Hout, Hdocs; [done|]. rewrite Hkeys.
    intros (p & -> & Hp)%list_elem_of_fmap. by apply (Hk p).
  - intros k (p & Hp & Hid).
    destruct (commit_lookup (batch st) (docs st) k) as [_ Hin].
    destruct Hin as (w & Hw & Hwk & Hl).
    { rewrite Hkeys, <- Hid. by apply list_elem_of_fmap_2. }
    rewrite Forall_forall in Hgood.
    destruct (Hgood w Hw) as (p' & Hp' & Hk' & Hf & Hu & Hc).
    exists p', w.2. rewrite <- Hwk, Hk' in *. repeat split; try done.
  - done.
  - lia.
  - pose proof (size_newIds_le (docs s) chunk). lia.
  - intros _. done.
Qed.

(** *** The whole list *)

Lemma slice_chunk {A} (l : list A) (i n : nat) :
  (Js.slice l i (i + n) ++ drop (i + n) l)%list = drop i l.
Proof.
  unfold Js.slice. replace (i + n - i)%nat with n by lia.
  rewrite <- (drop_drop l n i). apply take_drop.
Qed.

Lemma upsertFrom_spec (rounds i : nat) (products : list Product) (s : State) :
  (length products <= i + rounds * BATCH_SIZE)%nat ->
  Upserted s (drop i products) (upsertFrom clock rounds i products s).
Proof.
  revert i s. induction rounds as [|rounds IH]; intros i s Hlen; cbn [upsertFrom].
  - rewrite drop_ge by lia. apply Upserted_nil.
  - destruct (Nat.ltb_spec i (length products)) as [Hi|Hi].
    + rewrite <- (slice_chunk products i BATCH_SIZE).
      eapply Upserted_app; [apply upsertChunk_spec|].
      apply IH. lia.
    + rewrite drop_ge by lia. apply Upserted_nil.
Qed.

Lemma upsertProducts_spec (products : list Product)
    (db : gmap string Product) (now : nat) :
  Upserted {| docs := db; tick := now; batch := []; added := 0; updated := 0 |}
    products (upsertProducts clock products db now).
Proof.
  unfold upsertProducts.
  apply (upsertFrom_spec (length products) 0 products).
  unfold BATCH_SIZE. lia.
Qed.

(** C4.  The loop body counts an item as updated when its id is found
    in the collection, without comparing any field, and queues it with
    the stored creation time and a fresh update time; otherwise it
    counts the item as added and queues it with two fresh times.  So an
    upsert rewrites every item whose id is in the collection with the
    stored creation time and a freshly read update time, and gives every
    other item two freshly read times; each item counts once, every
    item with a stored id as updated and every new id at least once as
    added.  Running
    the same snapshot again adds nothing,
    counts every item as updated, keeps every creation time and, the
    clock being increasing, moves every update time forward. *)
Theorem C4_upsert_keeps_created_refreshes_updated
    (products : list Product) (db : gmap string Product) (now : nat) :
  let s1 := upsertProducts clock products db now in
  (forall s p e, docs s !! id p = Some e ->
     added (upsertOne clock s p) = added s
     /\ updated (upsertOne clock s p) = S (updated s)
     /\ batch (upsertOne clock s p) =
        (batch s ++ [(id p, withTimestamps p (createdAt e) (clock (tick s)))])%list)
  /\ (forall s p, docs s !! id p = None ->
     added (upsertOne clock s p) = S (added s)
     /\ updated (upsertOne clock s p) = updated s
     /\ batch (upsertOne clock s p) =
        (batch s ++ [(id p, withTimestamps p (clock (tick s))
                                          (clock (S (tick s))))])%list)
  /\ (forall p e, p ∈ products -> db !! id p = Some e ->
     exists p' q, p' ∈ products /\ id p' = id p
       /\ docs s1 !! id p = Some q
       /\ q = withTimestamps p' (createdAt e) (updatedAt q)
       /\ readBetween now (tick s1) (updatedAt q))
  /\ (forall p, p ∈ products -> db !! id p = None ->
     exists p' q, p' ∈ products /\ id p' = id p
       /\ docs s1 !! id p = Some q
       /\ q = withTimestamps p' (createdAt q) (updatedAt q)
       /\ readBetween now (tick s1) (createdAt q)
       /\ readBetween now (tick s1) (updatedAt q))
  /\ (added s1 + updated s1 = length products)%nat
  /\ (countKnown db products <= updated s1)%nat
  /\ (size (newIds db products) <= added s1)%nat
  /\ (NoDup (id <$> products) ->
       updated s1 = countKnown db products
       /\ added s1 = (length products - countKnown db products)%nat)
  /\ (forall (products2 : list Product) (later : nat),
       id <$> products2 = id <$> products -> (tick s1 <= later)%nat ->
       let s2 := upsertProducts clock products2 (docs s1) later in
       added s2 = 0%nat
       /\ updated s2 = length products2
       /\ forall p, p ∈ products2 ->
            exists q1 q2, docs s1 !! id p = Some q1
              /\ docs s2 !! id p = Some q2
              /\ createdAt q2 = createdAt q1
              /\ ((forall i j : nat, (i < j)%nat -> clock i < clock j) ->
                  updatedAt q1 < updatedAt q2)).
Proof.
  intros s1.
  pose proof (upsertProducts_spec products db now) as H1. fold s1 in H1.
  assert (Hcnt : (countKnown db products <= length products)%nat).
  { unfold countKnown. apply List.filter_length_le. }
  split; [|split; [|split; [|split; [|split; [|split; [|split; [|split]]]]]]].
  - intros s p e He. unfold upsertOne. by rewrite He.
  - intros s p He. unfold upsertOne. by rewrite He.
  - intros p e Hp He.
    destruct (up_written _ _ _ _ H1 (id p)) as (p' & q & Hp' & Hid & Hq & Hf & Hu & Hc);
      [eauto|]. cbn [docs tick] in *. rewrite He in Hc.
    exists p', q. rewrite <- Hc. done.
  - intros p Hp He.
    destruct (up_written _ _ _ _ H1 (id p)) as (p' & q & Hp' & Hid & Hq & Hf & Hu & Hc);
      [eauto|]. cbn [docs tick] in *. rewrite He in Hc.
    exists p', q. done.
  - pose proof (up_total _ _ _ _ H1) as Ht. cbn [added updated] in Ht. lia.
  - pose proof (up_updated_ge _ _ _ _ H1) as Ht. cbn [docs updated] in Ht. lia.
  - pose proof (up_added_ge _ _ _ _ H1) as Ht. cbn [docs added] in Ht. lia.
  - intros Hn. pose proof (up_updated_nodup _ _ _ _ H1 Hn) as Hu.
    pose proof (up_total _ _ _ _ H1) as Ht. cbn [docs added updated] in *. lia.
  - intros products2 later Hids Hlater s2.
    pose proof (upsertProducts_spec products2 (docs s1) later) as H2. fold s2 in H2.
    assert (Hold : forall p, p ∈ products2 ->
              exists q1, docs s1 !! id p = Some q1
                /\ readBetween now (tick s1) (updatedAt q1)).
    { intros p Hp.
      assert (Hin : id p ∈ id <$> products).
      { rewrite <- Hids. by apply list_elem_of_fmap_2. }
      apply list_elem_of_fmap in Hin as (p1 & Hid & Hp1).
      destruct (up_written _ _ _ _ H1 (id p))
        as (_ & q1 & _ & _ & Hq1 & _ & Hu1 & _); [eauto|].
      cbn [tick] in Hu1. eauto. }
    assert (Hall : countKnown (docs s1) products2 = length products2).
    { apply countKnown_all. intros p Hp. destruct (Hold p Hp) as (q1 & Hq1 & _).
      unfold known. apply bool_decide_eq_true. rewrite Hq1. eauto. }
    pose proof (up_total _ _ _ _ H2) as Ht.
    pose proof (up_updated_ge _ _ _ _ H2) as Hg.
    cbn [docs added updated] in Ht, Hg. rewrite Hall in Hg.
    split; [lia|]. split; [lia|].
    intros p Hp. destruct (Hold p Hp) as (q1 & Hq1 & (j1 & Hj1 & Hu1)).
    destruct (up_written _ _ _ _ H2 (id p))
      as (_ & q2 & _ & _ & Hq2 & _ & (j2 & Hj2 & Hu2) & Hc2); [eauto|].
    cbn [docs tick] in *. rewrite Hq1 in Hc2.
    exists q1, q2. repeat split; try done.
    intros Hmono. rewrite Hu1, Hu2. apply Hmono. lia.
Qed.

End WithClock.

(** A collection with one of the two items of the snapshot: the stored
    creation time 7 stays, one item is added and one updated, and a
    second run adds none. *)
Lemma C4_witness :
  (exists q, docs (upsertProducts Examples.counterClock Examples.smallSnapshot
                     Examples.smallDb 0) !! "000132" = Some q
     /\ createdAt q = 7)
  /\ (added (upsertProducts Examples.counterClock Examples.smallSnapshot
               Examples.smallDb 0) = 1
      /\ updated (upsertProducts Examples.counterClock Examples.smallSnapshot
                    Examples.smallDb 0) = 1)%nat
  /\ added (upsertProducts Examples.counterClock Examples.smallSnapshot
              (docs (upsertProducts Examples.counterClock Examples.smallSnapshot
                       Examples.smallDb 0)) 3) = 0%nat.
Proof.
  pose proof (C4_upsert_keeps_created_refreshes_updated Examples.counterClock
                Examples.smallSnapshot Examples.smallDb 0)
    as (_ & _ & Hold & _ & _ & _ & _ & Hcount & Hagain).
  split; [|split].
  - destruct (Hold Examples.viina Examples.storedViina)
      as (p' & q & _ & _ & Hq & Hf & _).
    + apply list_elem_of_here.
    + vm_compute. reflexivity.
    + exists q. split; [exact Hq|]. rewrite Hf. reflexivity.
  - destruct Hcount as [Hu Ha].
    + apply (bool_decide_unpack _). vm_compute. exact I.
    + rewrite Hu, Ha. vm_compute. done.
  - destruct (Hagain Examples.smallSnapshot 3%nat) as (Ha & _).
    + reflexivity.
    + vm_compute. lia.
    + exact Ha.
Defined.

End UpsertFacts.

(** ** Bootstrap *)

Module BootstrapFacts.
Import Bootstrap.

Section WithSeed.
Variable loadSeedData : option SeedData.

Local Abbreviation step := (Bootstrap.step loadSeedData).
Local Abbreviation run := (Bootstrap.run loadSeedData).

Lemma run_app s events1 events2 :
  run s (events1 ++ events2) =
  match run s events1 with
  | Some s' => run s' events2
  | None => None
  end.
Proof.
  revert s. induction events1 as [|e events1 IH]; intros s; simpl; [done|].
  destruct (step s e); [apply IH|done].
Qed.

(** What holds in every state that can be reached: at most one
    operation is ever started and its handle is 0; an operation is in
    flight exactly between its start and the moment the flag is set. *)
Record Reachable (s : State) : Prop := {
  r_started : (started s <= 1)%nat;
  r_loads : (loads s <= started s)%nat;
  r_checked : seedDataChecked s = true ->
              seedDataLoading s = None /\ started s = 1%nat /\ awaiting s = [];
  r_loading : forall op, seedDataLoading s = Some op ->
              handle op = 0%nat /\ started s = 1%nat /\ seedDataChecked s = false;
  r_idle : seedDataChecked s = false -> seedDataLoading s = None ->
           started s = 0%nat /\ awaiting s = [];
  r_awaiting : forall a, In a (awaiting s) -> snd a = 0%nat;
  r_count : forall op, seedDataLoading s = Some op -> phase op = AwaitCount ->
            loads s = 0%nat;
}.

Lemma Reachable_initial : Reachable initial.
Proof. split; simpl; try done; try lia. Qed.

Lemma filter_all_handle0 (l : list (nat * nat)) :
  (forall a, In a l -> snd a = 0%nat) ->
  List.filter (fun a => negb (snd a =? 0)%nat) l = []
  /\ List.filter (fun a => (snd a =? 0)%nat) l = l.
Proof.
  induction l as [|a l IH]; simpl; [done|]. intros H.
  rewrite (H a) by auto. simpl.
  destruct IH as [-> ->]; [intros; apply H; auto|done].
Qed.

Lemma Reachable_finish s op loaded o :
  Reachable s -> seedDataLoading s = Some op ->
  (loaded <= 1)%nat ->
  Reachable (finish s (handle op) loaded o).
Proof.
  intros R Hop Hl. destruct (r_loading s R op Hop) as (Hh & Hs & Hc).
  destruct (filter_all_handle0 (awaiting s) (r_awaiting s R)) as [Hne He].
  split; cbn [finish seedDataChecked seedDataLoading started loads awaiting];
    rewrite ?Hh, ?Hne; try done; try lia.
Qed.

Lemma Reachable_suspend s op loaded p :
  Reachable s -> seedDataLoading s = Some op ->
  (loaded <= 1)%nat -> p <> AwaitCount ->
  Reachable (suspend s (handle op) loaded p).
Proof.
  intros R Hop Hl Hp. destruct (r_loading s R op Hop) as (Hh & Hs & Hc).
  split; cbn [suspend seedDataChecked seedDataLoading started loads awaiting];
    try done; try lia.
  - congruence.
  - intros op' [= <-]. done.
  - apply (r_awaiting s R).
  - intros op' [= <-]. done.
Qed.

Ltac from_reachable R :=
  first [ exact (r_started _ R) | exact (r_loads _ R) | exact (r_checked _ R)
        | exact (r_loading _ R) | exact (r_idle _ R) | exact (r_awaiting _ R)
        | exact (r_count _ R) ].

Lemma Reachable_step s e s' : Reachable s -> step s e = Some s' -> Reachable s'.
Proof.
  intros R Hstep. destruct e; cbn [Bootstrap.step] in Hstep.
  - injection Hstep as <-. unfold ensureData.
    destruct (seedDataChecked s) eqn:Hc.
    + destruct (r_checked s R Hc) as (Hl & Hs & Ha).
      split; simpl; try from_reachable R; try done; try (intros; congruence).
    + destruct (seedDataLoading s) as [op|] eqn:Hl.
      * destruct (r_loading s R op Hl) as (Hh & Hs & _).
        split; simpl; try from_reachable R; try done.
        -- by intros op' [= <-].
        -- intros a [Ha|[<-|[]]]%in_app_iff; [by apply (r_awaiting s R)|done].
        -- intros op' [= <-]. by apply (r_count s R).
      * destruct (r_idle s R Hc Hl) as (Hs & Ha).
        pose proof (r_loads s R).
        split; simpl; rewrite ?Hs, ?Ha; try done; try lia.
        -- intros op [= <-]. done.
        -- intros a [<-|[]]. done.
  - destruct (seedDataLoading s) as [[h []]|] eqn:Hl; try done.
    injection Hstep as <-.
    pose proof (r_count s R _ Hl eq_refl) as Hz.
    change h with (handle {| handle := h; phase := AwaitCount |}).
    unfold afterCount. destruct (0 <? productCount)%nat.
    { apply Reachable_finish; [done|done|lia]. }
    destruct loadSeedData as [seed|]; [|apply Reachable_finish; [done|done|lia]].
    destruct (seedProducts seed), (seedStores seed);
      (apply Reachable_finish; [done|done|lia])
      || (apply Reachable_suspend; [done|done|lia|done]).
  - destruct (seedDataLoading s) as [[h []]|] eqn:Hl; try done.
    injection Hstep as <-.
    pose proof (r_started s R). pose proof (r_loads s R).
    change h with (handle {| handle := h; phase := AwaitCount |}).
    apply Reachable_finish; [done|done|lia].
  - destruct (seedDataLoading s) as [[h [|seed|]]|] eqn:Hl; try done.
    injection Hstep as <-.
    pose proof (r_started s R). pose proof (r_loads s R).
    change h with (handle {| handle := h; phase := AwaitUpsertProducts seed |}).
    unfold afterProducts. destruct (seedStores seed).
    + apply Reachable_finish; [done|done|lia].
    + apply Reachable_suspend; [done|done|lia|done].
  - destruct (seedDataLoading s) as [[h [|seed|]]|] eqn:Hl; try done.
    injection Hstep as <-.
    pose proof (r_started s R). pose proof (r_loads s R).
    change h with (handle {| handle := h; phase := AwaitUpsertProducts seed |}).
    apply Reachable_finish; [done|done|lia].
  - destruct (seedDataLoading s) as [[h [|seed|seed remaining]]|] eqn:Hl; try done.
    injection Hstep as <-.
    pose proof (r_started s R). pose proof (r_loads s R).
    change h with (handle {| handle := h; phase := AwaitUpsertStore seed remaining |}).
    unfold afterStore. destruct remaining as [|? [|? ?]].
    + apply Reachable_finish; [done|done|lia].
    + apply Reachable_finish; [done|done|lia].
    + apply Reachable_suspend; [done|done|lia|done].
  - destruct (seedDataLoading s) as [[h [|seed|seed remaining]]|] eqn:Hl; try done.
    injection Hstep as <-.
    pose proof (r_started s R). pose proof (r_loads s R).
    change h with (handle {| handle := h; phase := AwaitUpsertStore seed remaining |}).
    apply Reachable_finish; [done|done|lia].
Qed.

Lemma Reachable_run s events s' :
  Reachable s -> run s events = Some s' -> Reachable s'.
Proof.
  revert s. induction events as [|e events IH]; intros s R; simpl.
  - by intros [= <-].
  - destruct (step s e) as [s1|] eqn:Hstep; [|done].
    apply IH. by eapply Reachable_step.
Qed.

Lemma run_snoc events e s :
  run initial (events ++ [e]) = Some s ->
  exists s0, run initial events = Some s0 /\ step s0 e = Some s.
Proof.
  rewrite run_app. destruct (run initial events) as [s0|]; [|done].
  simpl. destruct (step s0 e) as [s1|] eqn:Hs; [|done].
  intros [= <-]. eauto.
Qed.

Lemma finish_loads s h loaded o : loads (finish s h loaded o) = loaded.
Proof. done. Qed.

Lemma suspend_loads s h loaded p : loads (suspend s h loaded p) = loaded.
Proof. done. Qed.

(** [loadSeedData] has run exactly when the count came back as zero. *)
Lemma loads_iff_count_zero events s :
  run initial events = Some s ->
  (loads s = 1%nat <-> In (CountIs 0) events).
Proof.
  revert s. induction events as [|e events IH] using rev_ind; intros s.
  - intros [= <-]. simpl. split; [done|tauto].
  - intros (s0 & Hrun & Hstep)%run_snoc.
    specialize (IH s0 Hrun).
    pose proof (Reachable_run _ _ _ Reachable_initial Hrun) as R.
    rewrite in_app_iff. cbn [In].
    assert (Hsame : loads s = loads s0 -> e <> CountIs 0 ->
              loads s = 1%nat <-> In (CountIs 0) events \/ (e = CountIs 0 \/ False)).
    { intros -> Hne. rewrite IH. tauto. }
    destruct e; cbn [Bootstrap.step] in Hstep.
    + injection Hstep as <-. apply Hsame; [|done].
      unfold ensureData.
      destruct (seedDataChecked s0); [done|]. by destruct (seedDataLoading s0).
    + destruct (seedDataLoading s0) as [[h []]|] eqn:Hl; try done.
      injection Hstep as <-.
      pose proof (r_count s0 R _ Hl eq_refl) as Hz.
      destruct productCount as [|n].
      * assert (loads (afterCount loadSeedData s0 h 0) = 1%nat) as ->; [|tauto].
        unfold afterCount. simpl. rewrite Hz.
        destruct loadSeedData as [seed|]; [|done].
        by destruct (seedProducts seed), (seedStores seed).
      * apply Hsame; [|done]. done.
    + destruct (seedDataLoading s0) as [[h []]|]; try done.
      injection Hstep as <-. by apply Hsame.
    + destruct (seedDataLoading s0) as [[h [|seed|]]|]; try done.
      injection Hstep as <-. apply Hsame; [|done].
      unfold afterProducts. by destruct (seedStores seed).
    + destruct (seedDataLoading s0) as [[h [|seed|]]|]; try done.
      injection Hstep as <-. by apply Hsame.
    + destruct (seedDataLoading s0) as [[h [|seed|seed remaining]]|]; try done.
      injection Hstep as <-. apply Hsame; [|done].
      unfold afterStore. by destruct remaining as [|? [|? ?]].
    + destruct (seedDataLoading s0) as [[h [|seed|seed remaining]]|]; try done.
      injection Hstep as <-. by apply Hsame.
Qed.

(** Every caller either still awaits the operation or has seen its call
    complete. *)
Lemma callers_accounted events s :
  run initial events = Some s ->
  forall c, In (Call c) events ->
    In c (map fst (awaiting s)) \/ In c (map fst (completed s)).
Proof.
  revert s. induction events as [|e events IH] using rev_ind; intros s.
  - intros _ c [].
  - intros (s0 & Hrun & Hstep)%run_snoc c Hc.
    specialize (IH s0 Hrun).
    pose proof (Reachable_run _ _ _ Reachable_initial Hrun) as R.
    assert (Hfin : forall h loaded o c',
              seedDataLoading s0 = Some h ->
              In c' (map fst (awaiting s0)) \/ In c' (map fst (completed s0)) ->
              In c' (map fst (completed (finish s0 (handle h) loaded o)))).
    { intros h loaded o c' Hh Hc'. cbn [finish completed].
      destruct (r_loading s0 R h Hh) as (-> & _).
      destruct (filter_all_handle0 (awaiting s0) (r_awaiting s0 R)) as [_ ->].
      rewrite map_app, map_map, in_app_iff. cbn [fst]. tauto. }
    apply in_app_iff in Hc as [Hc|[->|[]]].
    + specialize (IH c Hc).
      destruct e; cbn [Bootstrap.step] in Hstep.
      * injection Hstep as <-. unfold ensureData.
        destruct (seedDataChecked s0); [|destruct (seedDataLoading s0)];
          cbn [awaiting completed]; rewrite ?map_app, ?in_app_iff; tauto.
      * destruct (seedDataLoading s0) as [[h []]|] eqn:Hl; try done.
        injection Hstep as <-.
        pose proof (Hfin _ (loads s0) Resolved c eq_refl IH) as F0.
        pose proof (Hfin _ (S (loads s0)) Resolved c eq_refl IH) as F1.
        cbn [handle] in F0, F1.
        unfold afterCount. destruct (0 <? productCount)%nat; [by right|].
        destruct loadSeedData as [seed|]; [|by right].
        destruct (seedProducts seed), (seedStores seed);
          (by right) || exact IH.
      * destruct (seedDataLoading s0) as [[h []]|] eqn:Hl; try done.
        injection Hstep as <-. right. by apply (Hfin _ _ _ c eq_refl).
      * destruct (seedDataLoading s0) as [[h [|seed|]]|] eqn:Hl; try done.
        injection Hstep as <-.
        pose proof (Hfin _ (loads s0) Resolved c eq_refl IH) as F0.
        unfold afterProducts. destruct (seedStores seed); [by right|exact IH].
      * destruct (seedDataLoading s0) as [[h [|seed|]]|] eqn:Hl; try done.
        injection Hstep as <-. right. by apply (Hfin _ _ _ c eq_refl).
      * destruct (seedDataLoading s0) as [[h [|seed|seed remaining]]|] eqn:Hl; try done.
        injection Hstep as <-.
        pose proof (Hfin _ (loads s0) Resolved c eq_refl IH) as F0.
        unfold afterStore. destruct remaining as [|? [|? ?]];
          (by right) || exact IH.
      * destruct (seedDataLoading s0) as [[h [|seed|seed remaining]]|] eqn:Hl; try done.
        injection Hstep as <-. right. by apply (Hfin _ _ _ c eq_refl).
    + cbn [Bootstrap.step] in Hstep. injection Hstep as <-. unfold ensureData.
      destruct (seedDataChecked s0); [|destruct (seedDataLoading s0)];
        cbn [awaiting completed]; rewrite ?map_app, ?in_app_iff; simpl; tauto.
Qed.

(** Callers that arrive while an operation is in flight join it. *)
Lemma run_calls_join s op callers :
  seedDataChecked s = false -> seedDataLoading s = Some op ->
  run s (map Call callers) =
  Some {| seedDataChecked := seedDataChecked s;
          seedDataLoading := seedDataLoading s;
          started := started s;
          loads := loads s;
          awaiting := awaiting s ++ map (fun c => (c, handle op)) callers;
          completed := completed s |}.
Proof.
  revert s. induction callers as [|c callers IH]; intros s Hc Hl.
  - simpl. rewrite app_nil_r. by destruct s.
  - cbn [map Bootstrap.run Bootstrap.step]. unfold ensureData at 1. rewrite Hc, Hl.
    rewrite IH by done. cbn. by rewrite <- app_assoc.
Qed.

(** Once the flag is set, nothing but immediate returns can happen. *)
Lemma checked_stays s events s' :
  Reachable s -> seedDataChecked s = true -> run s events = Some s' ->
  seedDataChecked s' = true /\ loads s' = loads s /\ started s' = started s
  /\ seedDataLoading s' = None.
Proof.
  revert s. induction events as [|e events IH]; intros s R Hc.
  - intros [= <-]. by destruct (r_checked s R Hc) as (-> & _).
  - cbn [Bootstrap.run]. destruct (step s e) as [s1|] eqn:Hstep; [|done].
    intros Hrun.
    pose proof (Reachable_step _ _ _ R Hstep) as R1.
    destruct (r_checked s R Hc) as (Hl & _).
    assert (H1 : seedDataChecked s1 = true /\ loads s1 = loads s
                 /\ started s1 = started s).
    { destruct e; cbn [Bootstrap.step] in Hstep; rewrite ?Hl in Hstep; try done.
      injection Hstep as <-. unfold ensureData. by rewrite Hc. }
    destruct H1 as (Hc1 & <- & <-). by apply IH.
Qed.

End WithSeed.

(** *** Progress *)

Lemma finish_suspend s h loaded loaded' p o :
  finish (suspend s h loaded p) h loaded' o = finish s h loaded' o.
Proof. reflexivity. Qed.

(** The remaining outlets are written one by one, and then the
    operation finishes. *)
Lemma stores_succeed loadSeedData s h seed remaining :
  seedDataLoading s = Some {| handle := h; phase := AwaitUpsertStore seed remaining |} ->
  run loadSeedData s (repeat StoreUpserted (Nat.max 1 (length remaining)))
  = Some (finish s h (loads s) Resolved).
Proof.
  revert s. induction remaining as [|store rest IH]; intros s Hl.
  - cbn [length Nat.max repeat run step]. by rewrite Hl.
  - destruct rest as [|next rest].
    + cbn [length Nat.max repeat run step]. by rewrite Hl.
    + change (Nat.max 1 (length (store :: next :: rest)))
        with (S (Nat.max 1 (length (next :: rest)))).
      cbn [repeat run step]. rewrite Hl.
      cbn [afterStore]. rewrite IH; [|done].
      by rewrite finish_suspend.
Qed.

Lemma stores_succeed_all loadSeedData s h seed store rest :
  seedDataLoading s
  = Some {| handle := h; phase := AwaitUpsertStore seed (store :: rest) |} ->
  run loadSeedData s (repeat StoreUpserted (length (store :: rest)))
  = Some (finish s h (loads s) Resolved).
Proof.
  intros Hl. rewrite <- (stores_succeed loadSeedData s h seed (store :: rest) Hl).
  by destruct rest.
Qed.

Lemma products_succeed loadSeedData s h seed :
  seedDataLoading s = Some {| handle := h; phase := AwaitUpsertProducts seed |} ->
  run loadSeedData s
    (ProductsUpserted :: repeat StoreUpserted (length (seedStores seed)))
  = Some (finish s h (loads s) Resolved).
Proof.
  intros Hl. cbn [run step]. rewrite Hl.
  unfold afterProducts. destruct (seedStores seed) as [|store rest] eqn:Hs.
  - done.
  - rewrite (stores_succeed_all _ _ h seed store rest); [|done].
    by rewrite finish_suspend.
Qed.

(** Whatever the awaited calls still have to do, when each of them
    succeeds the operation finishes as resolved; the seed bundle is
    read when the store has reported no items. *)
Lemma succeeding_finishes loadSeedData s op productCount :
  seedDataLoading s = Some op ->
  run loadSeedData s (succeeding loadSeedData (phase op) productCount)
  = Some (finish s (handle op)
            match phase op with
            | AwaitCount => if (0 <? productCount)%nat then loads s else S (loads s)
            | _ => loads s
            end Resolved).
Proof.
  destruct op as [h [|seed|seed remaining]]; intros Hl;
    cbn [phase handle succeeding].
  - cbn [run step]. rewrite Hl. unfold afterCount.
    destruct (0 <? productCount)%nat; [done|].
    destruct loadSeedData as [seed|] eqn:Hload; [|done].
    destruct (seedProducts seed) as [|p ps], (seedStores seed) as [|store rest] eqn:Hs.
    + done.
    + cbn [app]. rewrite (stores_succeed_all _ _ h seed store rest); [|done].
      by rewrite finish_suspend.
    + cbn [app length repeat].
      pose proof (products_succeed (Some seed)
                    (suspend s h (S (loads s)) (AwaitUpsertProducts seed)) h seed
                    eq_refl) as Hp.
      rewrite Hs in Hp. cbn [length repeat] in Hp. rewrite Hp.
      by rewrite finish_suspend.
    + cbn [app].
      pose proof (products_succeed (Some seed)
                    (suspend s h (S (loads s)) (AwaitUpsertProducts seed)) h seed
                    eq_refl) as Hp.
      rewrite Hs in Hp. rewrite Hp. by rewrite finish_suspend.
  - by apply products_succeed.
  - by apply (stores_succeed _ _ _ seed).
Qed.

Lemma failing_finishes loadSeedData s op :
  seedDataLoading s = Some op ->
  step loadSeedData s (failing (phase op))
  = Some (finish s (handle op) (loads s) Rejected).
Proof.
  destruct op as [h [|seed|seed remaining]]; intros Hl;
    cbn [phase handle failing step]; by rewrite Hl.
Qed.

(** What a finished operation leaves, in a state that can be reached. *)
Lemma finish_reached s op loaded o :
  Reachable s -> seedDataLoading s = Some op ->
  let s' := finish s (handle op) loaded o in
  seedDataChecked s' = true /\ seedDataLoading s' = None
  /\ started s' = 1%nat /\ awaiting s' = []
  /\ completed s' = (completed s ++ map (fun a => (a.1, o)) (awaiting s))%list.
Proof.
  intros R Hl. destruct (r_loading s R op Hl) as (Hh & Hs & _).
  destruct (filter_all_handle0 (awaiting s) (r_awaiting s R)) as [Hne He].
  cbn [finish seedDataChecked seedDataLoading started awaiting completed].
  by rewrite Hh, Hne, He.
Qed.

Section SingleFlight.
Variable loadSeedData : option SeedData.

Local Abbreviation step := (Bootstrap.step loadSeedData).
Local Abbreviation run := (Bootstrap.run loadSeedData).

(** C5.  Any number of callers that arrive before the first operation
    has finished start one operation and all await it; in every
    interleaving of calls and completions at most one operation is
    started and the seed bundle is loaded at most once, exactly once
    when the store reports no items; when the operation has finished,
    with success or with an error, the flag is set and every caller has
    seen its call complete; from then on calls return at once and never
    load again.  An operation in flight does finish: when the calls it
    awaits succeed it resolves, when the awaited call fails it rejects,
    and either way the flag is set and every caller that awaited it has
    seen its call complete with that outcome.  So N callers against an
    empty store whose load succeeds see one load and N completions. *)
Theorem C5_ensureData_is_single_flight :
  (forall c callers, exists s,
     run initial (map Call (c :: callers)) = Some s
     /\ started s = 1%nat /\ loads s = 0%nat
     /\ seedDataChecked s = false
     /\ seedDataLoading s = Some {| handle := 0; phase := AwaitCount |}
     /\ awaiting s = map (fun c => (c, 0%nat)) (c :: callers))
  /\ (forall events s, run initial events = Some s ->
      (started s <= 1)%nat
      /\ (loads s <= 1)%nat
      /\ (forall a, In a (awaiting s) -> snd a = 0%nat)
      /\ (loads s = 1%nat <-> In (CountIs 0) events)
      /\ (started s = 1%nat -> seedDataLoading s = None ->
          seedDataChecked s = true)
      /\ (seedDataLoading s = None ->
          forall c, In (Call c) events -> In c (map fst (completed s)))
      /\ (seedDataChecked s = true ->
          forall events' s', run s events' = Some s' ->
            seedDataChecked s' = true /\ loads s' = loads s
            /\ started s' = started s))
  /\ (forall events s op, run initial events = Some s ->
      seedDataLoading s = Some op ->
      (forall productCount, exists s',
         run s (succeeding loadSeedData (phase op) productCount) = Some s'
         /\ seedDataChecked s' = true /\ seedDataLoading s' = None
         /\ started s' = 1%nat /\ awaiting s' = []
         /\ completed s'
            = (completed s ++ map (fun a => (a.1, Resolved)) (awaiting s))%list)
      /\ (exists s',
         step s (failing (phase op)) = Some s'
         /\ seedDataChecked s' = true /\ seedDataLoading s' = None
         /\ started s' = 1%nat /\ awaiting s' = []
         /\ loads s' = loads s
         /\ completed s'
            = (completed s ++ map (fun a => (a.1, Rejected)) (awaiting s))%list))
  /\ (forall c callers, exists s,
      run initial (map Call (c :: callers) ++ succeeding loadSeedData AwaitCount 0)
      = Some s
      /\ started s = 1%nat /\ loads s = 1%nat
      /\ seedDataChecked s = true /\ seedDataLoading s = None
      /\ awaiting s = []
      /\ completed s = map (fun c => (c, Resolved)) (c :: callers)).
Proof.
  assert (Hcalls : forall c callers,
    run initial (map Call (c :: callers))
    = Some {| seedDataChecked := false;
              seedDataLoading := Some {| handle := 0; phase := AwaitCount |};
              started := 1; loads := 0;
              awaiting := map (fun c => (c, 0%nat)) (c :: callers);
              completed := [] |}).
  { intros c callers.
    cbn [map Bootstrap.run Bootstrap.step]. unfold ensureData at 1. cbn.
    by rewrite (run_calls_join loadSeedData _
                  {| handle := 0; phase := AwaitCount |} callers). }
  split; [|split; [|split]].
  - intros c callers. eexists. split; [apply Hcalls|]. cbn. done.
  - intros events s Hrun.
    pose proof (Reachable_run loadSeedData _ _ _ Reachable_initial Hrun) as R.
    pose proof (r_started s R). pose proof (r_loads s R).
    repeat split.
    + done.
    + lia.
    + apply (r_awaiting s R).
    + by apply (loads_iff_count_zero loadSeedData events s Hrun).
    + by apply (loads_iff_count_zero loadSeedData events s Hrun).
    + intros Hs Hl. destruct (seedDataChecked s) eqn:Hc; [done|].
      destruct (r_idle s R Hc Hl). lia.
    + intros Hl c Hc.
      destruct (callers_accounted loadSeedData events s Hrun c Hc) as [Ha|Hd]; [|done].
      assert (awaiting s = []) as Hnil.
      { destruct (seedDataChecked s) eqn:Hch.
        - by destruct (r_checked s R Hch) as (_ & _ & ?).
        - by destruct (r_idle s R Hch Hl). }
      rewrite Hnil in Ha. destruct Ha.
    + by destruct (checked_stays loadSeedData s events' s' R H1 H2) as (? & ? & ? & ?).
    + by destruct (checked_stays loadSeedData s events' s' R H1 H2) as (? & ? & ? & ?).
    + by destruct (checked_stays loadSeedData s events' s' R H1 H2) as (? & ? & ? & ?).
  - intros events s op Hrun Hl.
    pose proof (Reachable_run loadSeedData _ _ _ Reachable_initial Hrun) as R. split.
    + intros productCount. eexists. split; [by apply succeeding_finishes|].
      by apply finish_reached.
    + eexists. split; [by apply failing_finishes|].
      destruct (finish_reached s op (loads s) Rejected R Hl) as (? & ? & ? & ? & ?).
      done.
  - intros c callers. rewrite run_app, Hcalls.
    set (s := {| seedDataChecked := false; seedDataLoading := _; started := 1;
                 loads := 0; awaiting := _; completed := [] |}).
    pose proof (Reachable_run loadSeedData _ _ _ Reachable_initial (Hcalls c callers)) as R.
    pose proof (succeeding_finishes loadSeedData s
                  {| handle := 0; phase := AwaitCount |} 0 eq_refl) as Hfin.
    cbn [phase handle] in Hfin. change (0 <? 0)%nat with false in Hfin.
    rewrite Hfin.
    destruct (finish_reached s {| handle := 0; phase := AwaitCount |}
                (S (loads s)) Resolved R eq_refl) as (Hc & Hl & Hs & Ha & Hdone).
    cbn [handle] in Hc, Hl, Hs, Ha, Hdone.
    eexists. split; [done|]. split; [exact Hs|]. split; [done|].
    split; [exact Hc|]. split; [exact Hl|]. split; [exact Ha|].
    rewrite Hdone. subst s. cbn [completed awaiting app].
    by rewrite map_map.
Qed.

End SingleFlight.

(** Three callers while the store is empty.  When the two items and the
    two outlets of the seed are written, a fourth caller finds the flag
    set: one load, and all four have seen their call complete.  When
    the write of the items fails, the flag is set all the same and the
    three callers have seen their call complete. *)
Lemma C5_witness :
  (exists s,
     Bootstrap.run (Some Examples.seedWithOutlets) initial
       [Call 1; Call 2; Call 3; CountIs 0; ProductsUpserted; StoreUpserted;
        StoreUpserted; Call 4] = Some s
     /\ loads s = 1%nat
     /\ seedDataChecked s = true
     /\ completed s
        = [(1%nat, Resolved); (2%nat, Resolved); (3%nat, Resolved);
           (4%nat, Resolved)])
  /\ (exists s,
     Bootstrap.run (Some Examples.seedOfTwo) initial
       [Call 1; Call 2; Call 3; CountIs 0; ProductsFail; Call 4] = Some s
     /\ loads s = 1%nat
     /\ seedDataChecked s = true
     /\ In 3%nat (map fst (completed s))).
Proof.
  split.
  - destruct (C5_ensureData_is_single_flight (Some Examples.seedWithOutlets))
      as (_ & Hall & _ & Hload).
    destruct (Hload 1%nat [2%nat; 3%nat]) as (s1 & Hrun1 & _ & Hl1 & Hc1 & _ & _ & Hd1).
    destruct (Hall _ s1 Hrun1) as (_ & _ & _ & _ & _ & _ & Hlater).
    eexists. split; [vm_compute; reflexivity|].
    destruct (Hlater Hc1 [Call 4] (ensureData s1 4) eq_refl) as (Hc & Hl & _).
    assert (Hs : Bootstrap.run (Some Examples.seedWithOutlets) initial
                   [Call 1; Call 2; Call 3; CountIs 0; ProductsUpserted;
                    StoreUpserted; StoreUpserted] = Some s1) by exact Hrun1.
    vm_compute in Hs. injection Hs as <-. vm_compute. done.
  - eexists. split; [vm_compute; reflexivity|].
    destruct (C5_ensureData_is_single_flight (Some Examples.seedOfTwo))
      as (_ & Hall & _).
    edestruct (Hall [Call 1; Call 2; Call 3; CountIs 0; ProductsFail; Call 4])
      as (_ & _ & _ & Hloads & Hchecked & Hdone & _);
      [vm_compute; reflexivity|].
    split; [|split].
    + apply Hloads. simpl. tauto.
    + apply Hchecked; reflexivity.
    + apply Hdone; [reflexivity|]. simpl. tauto.
Defined.

End BootstrapFacts.

(** A filter that every element passes changes nothing. *)
Module AvailabilityFilter.


End AvailabilityFilter.

(** ** The memory cache *)

Module LruCacheFacts.
Import LruCache.

Section WithValue.
Context {V : Type}.
Implicit Types (c : LruCache.t V) (l : list (LruCache.Entry V)).

Lemma find_without k l : List.find (hasKey k) (without k l) = None.
Proof.
  induction l as [|e l IH]; [done|]. cbn [without List.filter].
  destruct (hasKey k e) eqn:He; cbn [negb]; [exact IH|].
  cbn [List.find]. by rewrite He.
Qed.

Lemma without_without k l : without k (without k l) = without k l.
Proof.
  induction l as [|e l IH]; [done|]. cbn [without List.filter].
  destruct (hasKey k e) eqn:He; cbn [negb]; [exact IH|].
  cbn [List.filter]. rewrite He. cbn [negb]. f_equal. exact IH.
Qed.



(** A second [get] at the same instant gives the same answer and
    changes nothing. *)
Lemma get_again now k c :
  get now k (get now k c).2 = ((get now k c).1, (get now k c).2).
Proof.
  unfold get. destruct (List.find (hasKey k) (entries c)) as [e|] eqn:Hf.
  - apply find_some in Hf as [_ He].
    destruct (isStale c now e) eqn:Hs; cbn [fst snd withEntries entries].
    + by rewrite find_without.
    + cbn [List.find]. rewrite He.
      change (isStale (withEntries c _) now e) with (isStale c now e).
      rewrite Hs. cbn [without List.filter]. rewrite He. cbn [negb].
      fold (without k (without k (entries c))). by rewrite without_without.
  - cbn [fst snd]. by rewrite Hf.
Qed.


End WithValue.

End LruCacheFacts.

(** ** Availability *)

Module AvailabilityFacts.
Import Js JsFacts Availability.

Lemma filter_all {A} (p : A -> bool) (l : list A) :
  (forall x, p x = true) -> List.filter p l = l.
Proof.
  intros H. induction l as [|x l IH]; simpl; [done|]. by rewrite H, IH.
Qed.

(** With a city given, the filter keeps the outlets whose lower-cased
    name contains the lower-cased city; the empty city, which the code
    skips, is contained in every name. *)
Lemma filterByCity_some c stores :
  filterByCity (Some c) stores = List.filter (inCity (toLowerCase c)) stores.
Proof.
  unfold filterByCity, truthyOpt. destruct c as [|a c]; [|done].
  simpl. symmetry. apply filter_all. intros s. apply includes_empty.
Qed.

Section WithSite.
Variable browser : string -> option (list SA.t).
Variable storeAccepts : bool.
Variable now : Z.

Local Abbreviation liveEntry := (Availability.liveEntry now).
Local Abbreviation getCachedAvailability := (Availability.getCachedAvailability now).
Local Abbreviation getProductAvailability :=
  (Availability.getProductAvailability browser storeAccepts now).
Local Abbreviation getAvailability :=
  (Availability.getAvailability browser storeAccepts now).

Lemma getCachedAvailability_none s productId :
  (getCachedAvailability s productId).1 = None <->
  liveEntry s productId = None /\ firestoreGetAvailability s productId = [].
Proof.
  unfold Availability.getCachedAvailability, Availability.liveEntry.
  destruct (LruCache.get now productId (cache s)) as [[cached|] cache1];
    cbn [fst]; [split; [done|by intros [? _]]|].
  destruct (firestoreGetAvailability s productId); split; try done.
  by intros [_ ?].
Qed.

(** After a miss the state differs at most by a stale entry that the
    cache has dropped, and a scrape starts from it as from [s]. *)
Lemma getProductAvailability_after_miss s productId productName :
  (getCachedAvailability s productId).1 = None ->
  getProductAvailability (getCachedAvailability s productId).2 productId productName
  = getProductAvailability s productId productName.
Proof.
  intros Hmiss. apply getCachedAvailability_none in Hmiss as [Hlive Hdocs].
  unfold Availability.liveEntry in Hlive.
  unfold Availability.getCachedAvailability, Availability.getProductAvailability.
  pose proof (LruCacheFacts.get_again now productId (cache s)) as Hagain.
  destruct (LruCache.get now productId (cache s)) as [cached cache1].
  cbn [fst snd] in Hlive, Hagain. subst cached. rewrite Hdocs.
  cbn [snd withCache cache]. by rewrite Hagain.
Qed.

(** The request when the scrape is reached. *)
Lemma scrape_reached input s :
  forceRefresh input = true
  \/ (getCachedAvailability s (productId input)).1 = None ->
  getAvailability input s
  = match getProductAvailability s (productId input)
            (name <$> products s !! productId input) with
    | (Returns result, s2) =>
        (Returns (Some (withStores result
                          (filterByCity (city input) (AR.stores result)))), s2)
    | (Throws, s2) =>
        let '(stale, s3) := getCachedAvailability s2 (productId input) in
        (Returns stale, s3)
    end.
Proof.
  intros Hreach. unfold Availability.getAvailability.
  destruct (forceRefresh input); [done|].
  destruct Hreach as [?|Hmiss]; [done|].
  pose proof (getProductAvailability_after_miss s (productId input)
                (name <$> products s !! productId input) Hmiss) as Hsame.
  destruct (getCachedAvailability s (productId input)) as [cached s1].
  cbn [fst snd] in Hmiss, Hsame. subst cached. by rewrite Hsame.
Qed.

(** C6.  When the scrape is reached and throws, the request still
    returns: the answer is what [getCachedAvailability] finds afterwards,
    the entry of the memory cache if there is one, else the record built
    from the documents of the durable store, and [None] exactly when
    neither exists. *)
Theorem C6_scrape_error_falls_back_to_persisted_record
    (input : GetAvailabilityInput) (s s2 : State) :
  forceRefresh input = true
  \/ (getCachedAvailability s (productId input)).1 = None ->
  getProductAvailability s (productId input)
    (name <$> products s !! productId input) = (Throws, s2) ->
  (getAvailability input s).1
    = Returns (getCachedAvailability s2 (productId input)).1
  /\ (forall cached, liveEntry s2 (productId input) = Some cached ->
        (getAvailability input s).1 = Returns (Some (markFromCache cached)))
  /\ (forall first rest,
        liveEntry s2 (productId input) = None ->
        firestoreGetAvailability s2 (productId input) = first :: rest ->
        (getAvailability input s).1
          = Returns (Some {| AR.productId := productId input;
                             AR.productName := productId input;
                             AR.stores := first :: rest;
                             AR.checkedAt := SA.checkedAt first;
                             AR.fromCache := true |}))
  /\ ((getAvailability input s).1 = Returns None <->
        liveEntry s2 (productId input) = None
        /\ firestoreGetAvailability s2 (productId input) = []).
Proof.
  intros Hreach Hscrape.
  assert (Hres : (getAvailability input s).1
                 = Returns (getCachedAvailability s2 (productId input)).1).
  { rewrite (scrape_reached input s Hreach), Hscrape.
    by destruct (getCachedAvailability s2 (productId input)). }
  rewrite Hres. split; [done|]. split; [|split; [|split]].
  - intros cached Hc. unfold Availability.liveEntry in Hc.
    unfold Availability.getCachedAvailability.
    destruct (LruCache.get now (productId input) (cache s2)) as [c cache1].
    cbn [fst] in Hc. by subst c.
  - intros first rest Hc Hd. unfold Availability.liveEntry in Hc.
    unfold Availability.getCachedAvailability.
    destruct (LruCache.get now (productId input) (cache s2)) as [c cache1].
    cbn [fst] in Hc. subst c. by rewrite Hd.
  - intros [= Hn]. by apply getCachedAvailability_none.
  - intros Hn. f_equal. by apply getCachedAvailability_none.
Qed.

(** In this model of the stores nothing but the scrape throws, and the
    request absorbs that. *)
Lemma getAvailability_returns input s :
  exists r, (getAvailability input s).1 = Returns r.
Proof.
  unfold Availability.getAvailability.
  destruct (if forceRefresh input then _ else _) as [[c|] s1]; [by eexists|].
  destruct (Availability.getProductAvailability _ _ _ s1 _ _) as [[r|] s2].
  - by eexists.
  - destruct (getCachedAvailability s2 (productId input)). by eexists.
Qed.

(** C10.  With a city in the request, the answer from the cache and the
    answer from a successful scrape hold exactly the outlets whose name
    contains the city, case folded; the answer after a failed scrape is
    the persisted record as it is.  In the example the request is for
    Helsinki, the site is down, and the answer lists the Tampere outlet. *)
Theorem C10_city_filter_skipped_on_error_fallback
    (input : GetAvailabilityInput) (s : State) (c : string) :
  city input = Some c ->
  (forall cached s1,
     forceRefresh input = false ->
     getCachedAvailability s (productId input) = (Some cached, s1) ->
     (getAvailability input s).1
       = Returns (Some (withStores cached
                   (List.filter (inCity (toLowerCase c)) (AR.stores cached)))))
  /\ (forall result s2,
     forceRefresh input = true
     \/ (getCachedAvailability s (productId input)).1 = None ->
     getProductAvailability s (productId input)
       (name <$> products s !! productId input) = (Returns result, s2) ->
     (getAvailability input s).1
       = Returns (Some (withStores result
                   (List.filter (inCity (toLowerCase c)) (AR.stores result)))))
  /\ (forall s2,
     forceRefresh input = true
     \/ (getCachedAvailability s (productId input)).1 = None ->
     getProductAvailability s (productId input)
       (name <$> products s !! productId input) = (Throws, s2) ->
     (getAvailability input s).1
       = Returns (getCachedAvailability s2 (productId input)).1)
  /\ (exists answer,
     (Availability.getAvailability Examples.siteDown true 60
        Examples.helsinkiRequest Examples.persisted).1 = Returns (Some answer)
     /\ In Examples.tampere (AR.stores answer)
     /\ inCity (toLowerCase "Helsinki") Examples.tampere = false).
Proof.
  intros Hcity. split; [|split; [|split]].
  - intros cached s1 Hf Hc. unfold Availability.getAvailability.
    rewrite Hf, Hc, Hcity. by rewrite filterByCity_some.
  - intros result s2 Hreach Hscrape.
    rewrite (scrape_reached input s Hreach), Hscrape, Hcity.
    by rewrite filterByCity_some.
  - intros s2 Hreach Hscrape.
    rewrite (scrape_reached input s Hreach), Hscrape.
    by destruct (getCachedAvailability s2 (productId input)).
  - eexists. split; [vm_compute; reflexivity|].
    split; [simpl; tauto|vm_compute; reflexivity].
Qed.

End WithSite.

(** The site is down and two records are persisted: both come back. *)
Lemma C6_witness :
  (Availability.getAvailability Examples.siteDown true 60
     Examples.helsinkiRequest Examples.persisted).1
  = Returns (Some {| AR.productId := "000132"; AR.productName := "000132";
                     AR.stores := [Examples.kamppi; Examples.tampere];
                     AR.checkedAt := 50; AR.fromCache := true |}).
Proof.
  destruct (C6_scrape_error_falls_back_to_persisted_record
              Examples.siteDown true 60 Examples.helsinkiRequest
              Examples.persisted Examples.persisted)
    as (_ & _ & Hdurable & _).
  - left. reflexivity.
  - vm_compute. reflexivity.
  - apply (Hdurable Examples.kamppi [Examples.tampere]); vm_compute; reflexivity.
Defined.

(** The request for Helsinki gets the persisted record as it is. *)
Lemma C10_witness :
  (Availability.getAvailability Examples.siteDown true 60
     Examples.helsinkiRequest Examples.persisted).1
  = Returns (Availability.getCachedAvailability 60 Examples.persisted "000132").1.
Proof.
  destruct (C10_city_filter_skipped_on_error_fallback
              Examples.siteDown true 60 Examples.helsinkiRequest
              Examples.persisted "Helsinki" eq_refl)
    as (_ & _ & Herr & _).
  apply (Herr Examples.persisted).
  - left. reflexivity.
  - vm_compute. reflexivity.
Defined.

End AvailabilityFacts.

(** ** Store hours *)

Module StoreHoursFacts.
Import Js JsFacts Outlet StoreHours.

Example matchHours_examples :
  matchHours "9-20" = Some (9, 20)
  /\ matchHours "10-18" = Some (10, 18)
  /\ matchHours "123-45" = Some (23, 45)
  /\ matchHours "ma-pe 9-21" = Some (9, 21)
  /\ matchHours "SULJETTU" = None.
Proof. repeat split; reflexivity. Qed.

Lemma sameDay_components a b :
  sameDay a b = true ->
  getFullYear a = getFullYear b /\ getMonth a = getMonth b
  /\ getDate a = getDate b.
Proof.
  unfold sameDay. intros [[H1 H2]%andb_true_iff H3]%andb_true_iff.
  apply Z.eqb_eq in H1, H2, H3. done.
Qed.

Section WithClock.
Variable clock : nat -> Date.
Variable localeCompare : string -> string -> Z.
Variable syncStores : list Store -> list Store * option string.

Local Abbreviation isStoreDataStale := (StoreHours.isStoreDataStale clock).
Local Abbreviation toEntry := (StoreHours.toEntry clock).
Local Abbreviation mapEntries := (StoreHours.mapEntries clock).
Local Abbreviation fetchStores := (StoreHours.fetchStores localeCompare).
Local Abbreviation getStoreHours :=
  (StoreHours.getStoreHours clock localeCompare syncStores).

(** While the clock stays on one day, a store is stale exactly when its
    update time is on another day, or missing. *)
Lemma isStoreDataStale_capturedOn today store k :
  (forall j, sameDay (clock j) today = true) ->
  (isStoreDataStale store k).1 = negb (capturedOn today store).
Proof.
  intros Hday. unfold StoreHours.isStoreDataStale, capturedOn.
  destruct (updatedAt store) as [u|]; [|done]. cbn [fst].
  destruct (sameDay_components _ _ (Hday k)) as (-> & -> & ->).
  unfold sameDay.
  destruct (getFullYear u =? getFullYear today),
           (getMonth u =? getMonth today),
           (getDate u =? getDate today); done.
Qed.

(** A stale store gets no hours and is not open; a fresh one keeps its
    hours. *)
Lemma toEntry_fields store k :
  e_id (toEntry store k).1 = id store
  /\ e_name (toEntry store k).1 = name store
  /\ ((isStoreDataStale store k).1 = true ->
      e_openingHoursToday (toEntry store k).1 = None
      /\ e_openingHoursTomorrow (toEntry store k).1 = None
      /\ e_isOpenNow (toEntry store k).1 = false)
  /\ ((isStoreDataStale store k).1 = false ->
      e_openingHoursToday (toEntry store k).1 = openingHoursToday store
      /\ e_openingHoursTomorrow (toEntry store k).1 = openingHoursTomorrow store).
Proof.
  unfold StoreHours.toEntry.
  destruct (StoreHours.isStoreDataStale clock store k) as [[] k1]; cbn [fst].
  - done.
  - destruct (isStoreOpenNow clock (openingHoursToday store) k1). done.
Qed.

Lemma mapEntries_In stores k e :
  In e (mapEntries stores k).1 ->
  exists store k', In store stores /\ e = (toEntry store k').1.
Proof.
  revert k. induction stores as [|store rest IH]; intros k; cbn [StoreHours.mapEntries].
  - intros [].
  - destruct (StoreHours.toEntry clock store k) as [e0 k1] eqn:He0.
    destruct (StoreHours.mapEntries clock rest k1) as [es k2] eqn:Hes.
    cbn [fst]. intros [<-|Hin].
    + exists store, k. rewrite He0. split; [by left|done].
    + destruct (IH k1) as (s & k' & Hs & ->); [by rewrite Hes|].
      exists s, k'. split; [by right|done].
Qed.

Lemma In_slice {A} (l : list A) a b x : In x (slice l a b) -> In x l.
Proof.
  unfold slice. intros H%list_elem_of_In. apply list_elem_of_In.
  by apply (subseteq_drop a l), (subseteq_take (b - a) (drop a l)).
Qed.

Lemma fetchStores_In input collection store :
  In store (fetchStores input collection) -> In store collection.
Proof.
  unfold StoreHours.fetchStores.
  set (base := match truthyOpt (storeId input) with
               | Some storeId =>
                   match getStore collection storeId with
                   | Some store => [store]
                   | None => []
                   end
               | None => listStores localeCompare collection (city input) 200
               end).
  assert (Hbase : In store base -> In store collection).
  { subst base. destruct (truthyOpt (storeId input)) as [sid|].
    - unfold getStore. destruct (List.find _ collection) as [s|] eqn:Hf; [|done].
      intros [<-|[]]. by apply find_some in Hf as [? _].
    - unfold listStores. intros H%In_slice.
      apply list_elem_of_In in H. rewrite sortBy_perm in H.
      apply list_elem_of_In in H.
      destruct (truthyOpt (city input)); [by apply filter_In in H as [? _]|done]. }
  destruct (truthyOpt (storeName input)); [|done].
  intros [H _]%filter_In. by apply Hbase.
Qed.

(** C7.  While the clock stays on one calendar day, every entry of the
    answer is made from a store of the collection, as the refresh has
    left it when the answer is marked as refreshed and as the request
    found it otherwise; if the update time of that store is on another day, or missing,
    both hours fields of the entry are [None] (unknown) and the entry is
    not open; if it is on the current day, as after a refresh that
    succeeded, the entry carries the hours of the store. *)
Theorem C7_stale_store_gets_no_hours_and_is_not_open
    (today : Date) (input : GetStoreHoursInput) (collection : list Store)
    (k : nat) :
  (forall j, sameDay (clock j) today = true) ->
  forall e, In e (stores (getStoreHours input collection k).1.1) ->
  exists store,
    In store (if refreshed (getStoreHours input collection k).1.1
              then (getStoreHours input collection k).1.2 else collection)
    /\ e_id e = id store
    /\ e_name e = name store
    /\ (capturedOn today store = false ->
        e_openingHoursToday e = None
        /\ e_openingHoursTomorrow e = None
        /\ e_isOpenNow e = false)
    /\ (capturedOn today store = true ->
        e_openingHoursToday e = openingHoursToday store
        /\ e_openingHoursTomorrow e = openingHoursTomorrow store).
Proof.
  intros Hday e. unfold StoreHours.getStoreHours.
  set (stores0 := StoreHours.fetchStores localeCompare input collection).
  destruct (match stores0 with [] => _ | _ => _ end) as [hasStale k1].
  assert (Href : forall s,
            In s (refresh localeCompare syncStores input collection stores0 hasStale).1.1.2 ->
            In s (if (refresh localeCompare syncStores input collection stores0 hasStale).1.2
                  then (refresh localeCompare syncStores input collection stores0 hasStale).1.1.1
                  else collection)).
  { unfold refresh. destruct hasStale; [|apply fetchStores_In].
    destruct (syncStores collection) as [collection' [message|]]; cbn;
      apply fetchStores_In. }
  destruct (refresh _ _ _ _ _ _) as [[[collection' stores1] isRefreshed] refreshError].
  cbn [fst snd] in Href.
  destruct (match stores1 with [] => _ | _ => _ end) as [isDataStale k2].
  destruct (StoreHours.mapEntries clock stores1 k2) as [results k3] eqn:Hmap.
  cbn [fst snd stores refreshed]. intros He%In_slice.
  assert (Hres : In e results).
  { destruct (openNow input) as [[]|]; [by apply filter_In in He as [? _]|done|done]. }
  destruct (mapEntries_In stores1 k2 e) as (store & k' & Hs & ->);
    [by rewrite Hmap|].
  exists store.
  destruct (toEntry_fields store k') as (Hid & Hname & Hstale & Hfresh).
  pose proof (isStoreDataStale_capturedOn today store k' Hday) as Hc.
  split; [by apply Href|]. split; [done|]. split; [done|]. split.
  - intros Hn. apply Hstale. by rewrite Hc, Hn.
  - intros Hn. apply Hfresh. by rewrite Hc, Hn.
Qed.

End WithClock.

(** Hours captured yesterday; the store sync runs, but the site cannot
    be scraped and the store stays as it was: no hours, not open. *)
Lemma C7_witness :
  stores (StoreHours.getStoreHours Examples.afternoon Examples.codeUnitCompare
            Examples.scrapeFails Examples.arkadiaRequest [Examples.arkadia] 0).1.1
  = [ {| e_id := "2102"; e_name := "Alko Helsinki Arkadia";
         e_city := "Helsinki"; e_address := "Salomonkatu 1, 00100";
         e_openingHoursToday := None; e_openingHoursTomorrow := None;
         e_isOpenNow := false |} ]
  /\ exists store,
       In store [Examples.arkadia]
       /\ capturedOn (mkDate 2026 10 2 0) store = false.
Proof.
  split; [vm_compute; reflexivity|].
  destruct (C7_stale_store_gets_no_hours_and_is_not_open
              Examples.afternoon Examples.codeUnitCompare Examples.scrapeFails
              (mkDate 2026 10 2 0) Examples.arkadiaRequest [Examples.arkadia] 0
              (fun j => eq_refl)
              {| e_id := "2102"; e_name := "Alko Helsinki Arkadia";
                 e_city := "Helsinki"; e_address := "Salomonkatu 1, 00100";
                 e_openingHoursToday := None; e_openingHoursTomorrow := None;
                 e_isOpenNow := false |})
    as (store & Hin & _ & _ & _).
  - vm_compute. left. reflexivity.
  - exists store. split; [exact Hin|].
    destruct Hin as [<-|[]]. vm_compute. reflexivity.
Defined.

End StoreHoursFacts.

(** ** Snapshot download *)

Module DownloadFacts.
Import Js Download.

(** C8, as the code has it.  The download fails when a request is
    rejected, when the status is not a success, and when the content
    type contains [text/html]; every other successful response is
    returned as the snapshot, whatever its content type. *)
Theorem C8_download_fails_on_html_only
    (fetchHome : option Response) (fetchPriceList : string -> option Response) :
  (fetchHome = None ->
     downloadPriceList fetchHome fetchPriceList = inr FetchFailed)
  /\ (forall homeResponse,
      fetchHome = Some homeResponse ->
      fetchPriceList (default "" (truthyOpt (setCookie homeResponse))) = None ->
      downloadPriceList fetchHome fetchPriceList = inr FetchFailed)
  /\ (forall homeResponse excelResponse,
      fetchHome = Some homeResponse ->
      fetchPriceList (default "" (truthyOpt (setCookie homeResponse)))
        = Some excelResponse ->
      (ok excelResponse = false ->
         downloadPriceList fetchHome fetchPriceList
           = inr (FailedToDownload (status excelResponse)
                                   (statusText excelResponse)))
      /\ (ok excelResponse = true ->
          includes (default "" (truthyOpt (contentType excelResponse)))
                   "text/html" = true ->
          downloadPriceList fetchHome fetchPriceList = inr ReceivedHtml)
      /\ (ok excelResponse = true ->
          includes (default "" (truthyOpt (contentType excelResponse)))
                   "text/html" = false ->
          downloadPriceList fetchHome fetchPriceList
            = inl (arrayBuffer excelResponse))).
Proof.
  unfold downloadPriceList. split; [|split].
  - by intros ->.
  - by intros homeResponse -> ->.
  - intros homeResponse excelResponse -> ->. split; [|split].
    + by intros ->.
    + by intros -> ->.
    + by intros -> ->.
Qed.

(** The challenge page of the example is refused. *)
Lemma C8_witness :
  downloadPriceList (Some Examples.homeResponse) Examples.htmlChallenge
  = inr ReceivedHtml.
Proof.
  destruct (C8_download_fails_on_html_only (Some Examples.homeResponse)
              Examples.htmlChallenge) as (_ & _ & Hresp).
  destruct (Hresp Examples.homeResponse
              {| ok := true; status := 200; statusText := "OK";
                 setCookie := None;
                 contentType := Some "text/html; charset=utf-8";
                 arrayBuffer := [60; 104; 116; 109; 108; 62]%N |}
              eq_refl eq_refl) as (_ & Hhtml & _).
  apply Hhtml; vm_compute; reflexivity.
Defined.

(** C8, as stated, fails: a successful response of content type
    [application/json], which is no spreadsheet type, is returned as a
    snapshot of zero bytes. *)
Lemma C8_json_refusal_is_returned_as_empty_snapshot :
  isSpreadsheetType "application/json" = false
  /\ downloadPriceList (Some Examples.homeResponse) Examples.jsonRefusal
     = inl [].
Proof. split; vm_compute; reflexivity. Qed.

End DownloadFacts.

(** ** Enrichment *)

Module EnrichmentFacts.
Import Js Enrichment.

(** The scraped smokiness is the number of active icons, whatever it is. *)
Lemma extract_smokiness_counts page container :
  head (documentAll isSmokiness (document page)) = Some container ->
  e_smokiness (extract page)
  = Some (Z.of_nat (length (querySelectorAll isSmokeyIcon container))).
Proof. intros H. unfold extract. cbn [e_smokiness]. by rewrite H. Qed.

(** Any number of icons can be counted. *)
Lemma extract_smokiness_unbounded (n : nat) :
  e_smokiness
    (extract
       {| document :=
            Elem "div" ["smokiness"] []
                 (replicate n (Elem "div" ["smokiness-icon"; "smokey"] [] []));
          tasteMatch := None; vinkkiMatch := None; tarjoiluMatch := None;
          ingredientsMatch := None |})
  = Some (Z.of_nat n).
Proof.
  unfold extract. cbn [e_smokiness document documentAll List.filter isSmokiness
                       hasClass existsb String.eqb Ascii.eqb Bool.eqb orb head].
  do 2 f_equal. unfold querySelectorAll. cbn [descendants].
  induction n as [|n IH]; [done|].
  cbn [replicate isElement app List.filter descendants]. simpl. by rewrite IH.
Qed.

(** C9, at a page with five active icons.  The scrape returns 5 for the
    smokiness, and [getProduct] returns the item with that value, caches
    it and writes it to the store. *)
Theorem C9_five_icons_give_smokiness_5 :
  e_smokiness (extract Examples.fiveIconPage) = Some 5
  /\ e_smokinessLabel (extract Examples.fiveIconPage) = Some "voimakkaan savuinen"
  /\ smokiness Examples.whisky = Null
  /\ (smokiness <$>
        (getProduct Examples.whiskyPage true 100 Examples.enrichRequest
           Examples.whiskyOnly).1) = Some (Present 5)
  /\ (smokiness <$>
        products (getProduct Examples.whiskyPage true 100 Examples.enrichRequest
                    Examples.whiskyOnly).2 !! "113537") = Some (Present 5)
  /\ (smokiness <$>
        cache (getProduct Examples.whiskyPage true 100 Examples.enrichRequest
                 Examples.whiskyOnly).2 !! "113537") = Some (Present 5)
  /\ ~ (0 <= 5 <= 4).
Proof. repeat split; try (vm_compute; reflexivity). lia. Qed.

End EnrichmentFacts.

(** ** The search engine: ranking bands, counts and pages *)

Module SearchMoreFacts.
Import Js JsFacts Search SearchFacts SearchSpec Examples MoreExamples.

Lemma startsWith_trans s t u :
  startsWith s t = true -> startsWith t u = true -> startsWith s u = true.
Proof.
  revert s t. induction u as [|c u IH]; intros s t; [intros; apply startsWith_empty|].
  destruct t as [|d t]; [done|]. destruct s as [|e s]; [done|]. simpl.
  intros [Hde Hst]%andb_true_iff [Hcd Htu]%andb_true_iff.
  apply Ascii.eqb_eq in Hde as ->. rewrite Hcd. simpl. by apply (IH s t).
Qed.

Lemma includes_startsWith_trans s t u :
  includes s t = true -> startsWith t u = true -> includes s u = true.
Proof.
  intros Hst Htu. induction s as [|c s IH].
  - simpl in Hst. rewrite orb_false_r in Hst.
    apply includes_startsWith. by apply (startsWith_trans _ t).
  - cbn [includes] in Hst. apply orb_true_iff in Hst as [Hst|Hst].
    + apply includes_startsWith. by apply (startsWith_trans _ t).
    + apply includes_cons. by apply IH.
Qed.

Lemma includes_tail s c t :
  includes s (String c t) = true -> includes s t = true.
Proof.
  induction s as [|d s IH]; [done|].
  cbn [includes]. intros [H|H]%orb_true_iff.
  - simpl in H. apply andb_true_iff in H as [_ H].
    apply includes_cons. by apply includes_startsWith.
  - apply includes_cons. by apply IH.
Qed.

(** A substring of a substring is a substring. *)
Lemma includes_trans s t u :
  includes s t = true -> includes t u = true -> includes s u = true.
Proof.
  revert s. induction t as [|c t IH]; intros s Hst Htu.
  - simpl in Htu. rewrite orb_false_r in Htu. destruct u; [|done].
    apply includes_empty.
  - cbn [includes] in Htu. apply orb_true_iff in Htu as [Htu|Htu].
    + by apply (includes_startsWith_trans s (String c t)).
    + apply IH; [|done]. by apply (includes_tail s c).
Qed.

(** A field that holds the phrase holds every word of it. *)
Lemma hasPhrase_hasAllWords field queryLower :
  hasPhrase field queryLower = true ->
  hasAllWords field (queryWordsOf queryLower) = true.
Proof.
  unfold hasPhrase, hasAllWords, every. intros Hp.
  apply forallb_forall. intros w Hw.
  apply filter_In in Hw as [Hw _].
  apply (includes_trans _ queryLower); [done|].
  by apply splitWhiteSpace_includes.
Qed.

(** The two bands of the score: 80 and above for the items whose name
    holds every word, 60 and below for the others. *)
Lemma score_bands p query :
  let score :=
    calculateRelevanceScore p (toLowerCase query)
      (queryWordsOf (toLowerCase query)) in
  if nameHasAllWords query p then 80 <= score else score <= 60.
Proof.
  unfold nameHasAllWords, calculateRelevanceScore. cbv zeta.
  destruct (hasPhrase (toLowerCase (name p)) (toLowerCase query)) eqn:Hp.
  { by rewrite (hasPhrase_hasAllWords _ _ Hp). }
  destruct (hasAllWords (toLowerCase (name p)) _); [lia|].
  destruct (hasPhrase (toLowerCase (producer p)) _); [lia|].
  destruct (hasAllWords (toLowerCase (producer p)) _); [lia|].
  destruct (scoreOtherFields_cases (otherFieldsOf p) (toLowerCase query)
              (queryWordsOf (toLowerCase query)))
    as [[-> _]|[[-> _]|(-> & _)]]; lia.
Qed.

Lemma length_filter_filter {A} (p q : A -> bool) (l : list A) :
  List.filter q (List.filter p l) = List.filter (fun x => p x && q x) l.
Proof.
  induction l as [|x l IH]; simpl; [done|].
  destruct (p x); simpl; [|done]. destruct (q x); by rewrite IH.
Qed.

Lemma filter_perm_length {A} (p : A -> bool) (l l' : list A) :
  l ≡ₚ l' -> length (List.filter p l) = length (List.filter p l').
Proof.
  induction 1 as [|x l l' _ IH|x y l|l l' l'' _ IH1 _ IH2]; simpl.
  - done.
  - destruct (p x); simpl; by rewrite IH.
  - by destruct (p x), (p y).
  - by rewrite IH1.
Qed.

Lemma postFilter_passes filters (l : list Product) :
  match f_maxSmokiness filters with
  | Some hi =>
      List.filter (smokinessAtMost hi)
        match f_minSmokiness filters with
        | Some lo => List.filter (smokinessAtLeast lo) l
        | None => l
        end
  | None =>
      match f_minSmokiness filters with
      | Some lo => List.filter (smokinessAtLeast lo) l
      | None => l
      end
  end = List.filter (passesSmokiness filters) l.
Proof.
  unfold passesSmokiness.
  destruct (f_minSmokiness filters) as [lo|], (f_maxSmokiness filters) as [hi|];
    simpl.
  - apply length_filter_filter.
  - apply filter_ext. intros p. by rewrite andb_true_r.
  - done.
  - symmetry. by apply AvailabilityFacts.filter_all.
Qed.

Section Engine.
Variable runQuery : Query -> list Product.
Variable localeCompare : string -> string -> Z.

Local Abbreviation snapshotOf filters options :=
  (runQuery (buildQuery filters (default SortName (o_sortBy options))
               (default Asc (o_sortOrder options))
               (default 20%nat (o_limit options)))).

Lemma rankByRelevance_length_filter (keep : Product -> bool) query snapshot :
  length (List.filter keep (rankByRelevance localeCompare query snapshot))
  = length (List.filter
              (fun p => matchesQuery (queryWordsOf (toLowerCase query)) p && keep p)
              snapshot).
Proof.
  unfold rankByRelevance.
  set (words := queryWordsOf (toLowerCase query)).
  set (score := fun p => (p, calculateRelevanceScore p (toLowerCase query) words)).
  rewrite <- length_filter_filter.
  transitivity
    (length (List.filter keep (map fst (map score (List.filter (matchesQuery words) snapshot))))).
  - apply filter_perm_length. apply Permutation_map, sortBy_perm.
  - rewrite map_map. simpl. by rewrite map_id.
Qed.

(** X1.  In the relevance ranking every item whose name holds all the
    words of the query stands before every item whose name does not:
    whatever comes before an item of the first kind is of that kind
    too. *)
Theorem name_matches_rank_before_other_matches query snapshot l1 p l2 :
  rankByRelevance localeCompare query snapshot = (l1 ++ p :: l2)%list ->
  nameHasAllWords query p = true ->
  Forall (fun x => nameHasAllWords query x = true) l1.
Proof.
  intros Hrank Hp.
  pose proof (rankByRelevance_descending localeCompare query snapshot) as Hd.
  rewrite Hrank in Hd. apply descending_before in Hd.
  eapply Forall_impl; [exact Hd|]. simpl. intros x Hx.
  pose proof (score_bands p query) as Bp. pose proof (score_bands x query) as Bx.
  cbv zeta in Bp, Bx. rewrite Hp in Bp.
  destruct (nameHasAllWords query x); [done|lia].
Qed.

(** X2.  A text search counts and returns exactly the fetched items
    that match: [total] is the number of items of the snapshot whose
    searchable text holds every query word and that pass the smokiness
    bounds, and every item of the page is such an item of the
    snapshot. *)
Theorem text_search_counts_and_returns_the_matches filters options query :
  truthyOpt (f_query filters) = Some query ->
  let keep p :=
    matchesQuery (queryWordsOf (toLowerCase query)) p
    && passesSmokiness filters p in
  let answer := searchProducts runQuery localeCompare filters options in
  total answer = length (List.filter keep (snapshotOf filters options))
  /\ Forall (fun p => In p (snapshotOf filters options) /\ keep p = true)
            (products answer).
Proof.
  intros Hq keep answer. subst answer. unfold searchProducts. cbn [total products].
  set (snapshot := snapshotOf filters options).
  assert (Hpost : postFilter localeCompare filters snapshot
                  = List.filter (passesSmokiness filters)
                      (rankByRelevance localeCompare query snapshot)).
  { unfold postFilter. rewrite Hq. apply postFilter_passes. }
  rewrite Hpost. split.
  - apply rankByRelevance_length_filter.
  - apply Forall_forall. intros p Hp. apply list_elem_of_In in Hp.
    apply StoreHoursFacts.In_slice, filter_In in Hp as [Hp Hs].
    apply rankByRelevance_In in Hp as [Hin Hm].
    split; [done|]. subst keep. simpl. by rewrite Hm, Hs.
Qed.

(** X3.  Without a text query, and with a store that returns no more
    documents than the query's limit, [total] is at most [limit + 1]
    whatever the offset, so [hasMore] can only be true on the first
    page and every page that starts beyond [limit] is empty. *)
Theorem structured_search_sees_one_page_only filters options :
  truthyOpt (f_query filters) = None ->
  (length (snapshotOf filters options)
   <= q_limit (buildQuery filters (default SortName (o_sortBy options))
                 (default Asc (o_sortOrder options))
                 (default 20%nat (o_limit options))))%nat ->
  let answer := searchProducts runQuery localeCompare filters options in
  (total answer <= limit answer + 1)%nat
  /\ (hasMore answer = true -> offset answer = 0%nat)
  /\ (limit answer < offset answer -> products answer = [])%nat.
Proof.
  intros Hq Hlen answer. subst answer.
  unfold searchProducts. cbn [total products limit offset hasMore].
  set (snapshot := snapshotOf filters options) in *.
  set (lim := default 20%nat (o_limit options)) in *.
  set (off := default 0%nat (o_offset options)).
  cbn [buildQuery q_limit] in Hlen. unfold fetchLimit in Hlen. rewrite Hq in Hlen.
  assert (Hpost : (length (postFilter localeCompare filters snapshot) <= lim + 1)%nat).
  { unfold postFilter. rewrite Hq. rewrite postFilter_passes.
    etransitivity; [apply filter_length_le|done]. }
  split; [done|]. split.
  - intros Hm%Nat.ltb_lt. lia.
  - intros Hoff. unfold slice. rewrite drop_ge; [by rewrite take_nil|lia].
Qed.

(** X4.  The [region] filter takes no part in a search: the answer is
    the same for every value of it. *)
Theorem region_filter_has_no_effect filters options region :
  searchProducts runQuery localeCompare (withRegion region filters) options
  = searchProducts runQuery localeCompare filters options.
Proof. reflexivity. Qed.

End Engine.

Lemma name_matches_rank_before_other_matches_witness :
  Forall (fun x => nameHasAllWords "viina" x = true) [koskenkorvaViina].
Proof.
  apply (name_matches_rank_before_other_matches codeUnitCompare "viina"
           threeSpirits [koskenkorvaViina] suomiViina [vodka]);
    vm_compute; reflexivity.
Defined.

Lemma text_search_counts_and_returns_the_matches_witness :
  total (searchProducts (storeOf (bourgogne :: threeSpirits)) codeUnitCompare
           (textQuery "viina") (page 2 0)) = 3%nat.
Proof.
  destruct (text_search_counts_and_returns_the_matches
              (storeOf (bourgogne :: threeSpirits)) codeUnitCompare
              (textQuery "viina") (page 2 0) "viina" eq_refl) as [H _].
  etransitivity; [exact H|]. vm_compute. reflexivity.
Defined.

(** Fifty-seven items, asked for in pages of twenty without a text
    query. *)
Lemma structured_search_sees_one_page_only_witness :
  (total (searchProducts (storeOf fiftySeven) codeUnitCompare noFilters (page 20 20))
   <= 20 + 1)%nat
  /\ products (searchProducts (storeOf fiftySeven) codeUnitCompare noFilters (page 20 40))
     = [].
Proof.
  split.
  - apply (structured_search_sees_one_page_only (storeOf fiftySeven)
             codeUnitCompare noFilters (page 20 20));
      [reflexivity | vm_compute; lia].
  - apply (structured_search_sees_one_page_only (storeOf fiftySeven)
             codeUnitCompare noFilters (page 20 40));
      [reflexivity | vm_compute; lia | vm_compute; lia].
Defined.

(** *** The tool layer and its cache *)

Section Tool.
Import SearchTool.
Variable runQuery : Query -> list Product.
Variable localeCompare : string -> string -> Z.
Variable createSearchKey : ProductSearchFilters -> ProductSearchOptions -> string.

(** X5.  A search that is not in the cache is answered by the store and
    its page is cached; while that entry lives, the same request gets
    the same page back, whatever the store holds by then, but with
    [total] set to the length of the page and [hasMore] to false. *)
Theorem repeated_search_returns_cached_page_as_whole_result input searchCache :
  searchCache !! createSearchKey (filtersOf input) (optionsOf input) = None ->
  let first :=
    SearchTool.searchProducts runQuery localeCompare createSearchKey
      input searchCache in
  fst first
  = {| result := Search.searchProducts runQuery localeCompare
                   (filtersOf input) (optionsOf input);
       fromCache := false |}
  /\ forall runQuery' localeCompare',
       fst (SearchTool.searchProducts runQuery' localeCompare' createSearchKey
              input (snd first))
       = {| result :=
              {| products := products (result (fst first));
                 total := length (products (result (fst first)));
                 limit := i_limit input; offset := i_offset input;
                 hasMore := false |};
            fromCache := true |}.
Proof.
  intros Hmiss first. subst first. unfold SearchTool.searchProducts.
  rewrite Hmiss. cbn [fst snd result]. split; [done|].
  intros runQuery' localeCompare'. by rewrite lookup_insert_eq.
Qed.

(** X6.  With [isVegan] set, the request is the one for the vegan
    special group alone: [isOrganic] and a [specialGroup] given with it
    are dropped. *)
Theorem vegan_flag_replaces_organic_and_special_group input searchCache
    organic group :
  i_isVegan input = Some true ->
  SearchTool.searchProducts runQuery localeCompare createSearchKey
    (withSpecialFilters organic group input) searchCache
  = SearchTool.searchProducts runQuery localeCompare createSearchKey
      input searchCache.
Proof.
  intros Hv. destruct input. simpl in Hv. subst.
  unfold SearchTool.searchProducts, filtersOf, optionsOf. reflexivity.
Qed.

End Tool.

(** The first answer reports three matches beyond a page of two; the
    repeated request reports two and no more. *)
Lemma repeated_search_returns_cached_page_as_whole_result_witness :
  (total (SearchTool.result (fst (SearchTool.searchProducts (storeOf threeSpirits)
                         codeUnitCompare queryAsKey (toolQuery "viina" 2 0) ∅)))
   = 3%nat
   /\ hasMore (SearchTool.result (fst (SearchTool.searchProducts (storeOf threeSpirits)
                              codeUnitCompare queryAsKey (toolQuery "viina" 2 0) ∅)))
      = true)
  /\ fst (SearchTool.searchProducts (storeOf []) codeUnitCompare queryAsKey
            (toolQuery "viina" 2 0)
            (snd (SearchTool.searchProducts (storeOf threeSpirits)
                    codeUnitCompare queryAsKey (toolQuery "viina" 2 0) ∅)))
     = {| SearchTool.result :=
            {| products := [koskenkorvaViina; suomiViina]; total := 2;
               limit := 2; offset := 0; hasMore := false |};
          SearchTool.fromCache := true |}.
Proof.
  destruct (repeated_search_returns_cached_page_as_whole_result
              (storeOf threeSpirits) codeUnitCompare queryAsKey
              (toolQuery "viina" 2 0) ∅) as [Hfirst Hagain];
    [vm_compute; reflexivity|].
  split.
  - rewrite Hfirst. split; vm_compute; reflexivity.
  - rewrite (Hagain (storeOf []) codeUnitCompare). rewrite Hfirst.
    vm_compute. reflexivity.
Defined.

Lemma vegan_flag_replaces_organic_and_special_group_witness :
  SearchTool.searchProducts (storeOf threeSpirits) codeUnitCompare queryAsKey
    (withSpecialFilters (Some true) (Some "Luomu") veganRequest) ∅
  = SearchTool.searchProducts (storeOf threeSpirits) codeUnitCompare queryAsKey
      veganRequest ∅.
Proof.
  apply (vegan_flag_replaces_organic_and_special_group (storeOf threeSpirits)
           codeUnitCompare queryAsKey veganRequest ∅ (Some true) (Some "Luomu")).
  reflexivity.
Defined.

End SearchMoreFacts.

(** ** Availability: the memory cache and the durable records *)

Module AvailabilityMoreFacts.
Import Js JsFacts Availability AvailabilityFacts AvailabilitySpec Examples MoreExamples.

(** A live entry of the memory cache answers the request on both paths;
    the cache notes the use. *)
Lemma getAvailability_cache_hit browser storeAccepts now input s cached :
  liveEntry now s (productId input) = Some cached ->
  getAvailability browser storeAccepts now input s
  = (Returns (Some (withStores (markFromCache cached)
                      (filterByCity (city input) (AR.stores cached)))),
     withCache s (LruCache.get now (productId input) (cache s)).2).
Proof.
  unfold liveEntry. intros Hc.
  unfold getAvailability, getCachedAvailability, getProductAvailability.
  destruct (forceRefresh input);
    destruct (LruCache.get now (productId input) (cache s)) as [c cache1];
    cbn [fst snd] in *; by subst c.
Qed.

(** *** The cache after a hit *)

Lemma find_without_other {V} k k' (l : list (LruCache.Entry V)) :
  k <> k' ->
  List.find (LruCache.hasKey k') (LruCache.without k l)
  = List.find (LruCache.hasKey k') l.
Proof.
  intros Hne. induction l as [|x l IH]; [done|].
  cbn [LruCache.without List.filter List.find].
  destruct (LruCache.hasKey k x) eqn:Hk; cbn [negb].
  - apply String.eqb_eq in Hk.
    destruct (LruCache.hasKey k' x) eqn:Hk'; [|exact IH].
    apply String.eqb_eq in Hk'. congruence.
  - cbn [List.find]. destruct (LruCache.hasKey k' x); [done|exact IH].
Qed.

Lemma find_touched {V} k k' e (l : list (LruCache.Entry V)) :
  List.find (LruCache.hasKey k) l = Some e ->
  List.find (LruCache.hasKey k') (e :: LruCache.without k l)
  = List.find (LruCache.hasKey k') l.
Proof.
  intros Hf. pose proof Hf as [_ He]%find_some. apply String.eqb_eq in He.
  cbn [List.find]. destruct (LruCache.hasKey k' e) eqn:Hk'.
  - apply String.eqb_eq in Hk'. by rewrite <- Hk', He.
  - apply find_without_other. intros <-.
    unfold LruCache.hasKey in Hk'. rewrite He, String.eqb_refl in Hk'. done.
Qed.

(** A [get] that returns an entry leaves the answers of the cache as
    they were, at every instant and for every key. *)
Lemma get_hit_keeps_answers {V} now k (c : LruCache.t V) v now' k' :
  (LruCache.get now k c).1 = Some v ->
  (LruCache.get now' k' (LruCache.get now k c).2).1 = (LruCache.get now' k' c).1.
Proof.
  unfold LruCache.get at 1 3.
  destruct (List.find (LruCache.hasKey k) (LruCache.entries c)) as [e|] eqn:Hf;
    [|done].
  destruct (LruCache.isStale c now e); [done|]. intros _. cbn [snd].
  unfold LruCache.get. cbn [LruCache.withEntries LruCache.entries].
  rewrite (find_touched k k' e _ Hf).
  destruct (List.find (LruCache.hasKey k') (LruCache.entries c)) as [e'|]; [|done].
  change (LruCache.isStale (LruCache.withEntries c _) now' e')
    with (LruCache.isStale c now' e').
  by destruct (LruCache.isStale c now' e').
Qed.


(** *** Writing availability records *)

Lemma setDoc_In doc collection : In doc (setDoc doc collection).
Proof.
  induction collection as [|d rest IH]; simpl; [by left|].
  destruct (String.eqb (SA.id d) (SA.id doc)); simpl; auto.
Qed.

Lemma In_setDoc doc collection x :
  In x (setDoc doc collection) -> x = doc \/ In x collection.
Proof.
  induction collection as [|d rest IH]; simpl; [intros [<-|[]]; by left|].
  destruct (String.eqb (SA.id d) (SA.id doc)); simpl.
  - intros [<-|H]; auto.
  - intros [<-|H]; auto. destruct (IH H); auto.
Qed.

Lemma setDoc_keeps doc collection x :
  In x collection -> SA.id x <> SA.id doc -> In x (setDoc doc collection).
Proof.
  intros Hx Hne. induction collection as [|d rest IH]; simpl; [done|].
  destruct (String.eqb_spec (SA.id d) (SA.id doc)) as [He|He]; simpl.
  - destruct Hx as [<-|Hx]; [done|]. by right.
  - destruct Hx as [<-|Hx]; [by left|]. right. by apply IH.
Qed.

Lemma setDoc_ids doc collection :
  map SA.id (setDoc doc collection) = map SA.id collection
  \/ (map SA.id (setDoc doc collection) = (map SA.id collection ++ [SA.id doc])%list
      /\ ~ In (SA.id doc) (map SA.id collection)).
Proof.
  induction collection as [|d rest IH]; simpl; [right; split; [done|tauto]|].
  destruct (String.eqb_spec (SA.id d) (SA.id doc)) as [He|He]; simpl.
  - left. by rewrite He.
  - destruct IH as [->|[-> Hn]]; [by left|]. right. split; [done|].
    intros [?|?]; [done|tauto].
Qed.

Lemma setDoc_NoDup doc collection :
  NoDup (map SA.id collection) -> NoDup (map SA.id (setDoc doc collection)).
Proof.
  intros Hnd. destruct (setDoc_ids doc collection) as [->|[-> Hn]]; [done|].
  apply NoDup_app. split; [done|]. split.
  - intros x Hx [<-|[]]%list_elem_of_In. by apply Hn, list_elem_of_In.
  - apply NoDup_singleton.
Qed.

Lemma upsertAvailability_cons now r records collection :
  upsertAvailability now (r :: records) collection
  = upsertAvailability now records (setDoc (storeRecord now r) collection).
Proof. reflexivity. Qed.

Lemma upsertAvailability_stamped now records collection k :
  (exists d, In d collection /\ SA.id d = k /\ SA.checkedAt d = now) ->
  exists d, In d (upsertAvailability now records collection)
            /\ SA.id d = k /\ SA.checkedAt d = now.
Proof.
  revert collection. induction records as [|r records IH]; intros c; [done|].
  intros (d & Hd & Hk & Hn). rewrite upsertAvailability_cons. apply IH.
  destruct (String.eqb_spec (SA.id d) (SA.id (storeRecord now r))) as [He|He].
  - exists (storeRecord now r). split; [apply setDoc_In|]. split; [|done].
    by rewrite <- He.
  - exists d. split; [by apply setDoc_keeps|done].
Qed.

(** X9.  Writing a batch of availability records files each of them
    under its composite id with the time of the write, leaves every
    document with another id in place, adds nothing but the records of
    the batch, and keeps the ids of the collection distinct. *)
Theorem upsertAvailability_files_each_record_and_keeps_the_rest
    now records collection :
  let collection' := upsertAvailability now records collection in
  Forall (fun r => exists d, In d collection' /\ SA.id d = key r
                             /\ SA.checkedAt d = now) records
  /\ Forall (fun d => Forall (fun r => key r <> SA.id d) records
                      -> In d collection') collection
  /\ Forall (fun d => In d collection
                      \/ exists r, In r records /\ d = storeRecord now r)
            collection'
  /\ (NoDup (map SA.id collection) -> NoDup (map SA.id collection')).
Proof.
  cbv zeta. revert collection.
  induction records as [|r records IH]; intros c.
  { repeat split; try done; apply List.Forall_forall; auto. }
  rewrite upsertAvailability_cons.
  destruct (IH (setDoc (storeRecord now r) c)) as (Hset & Hkeep & Hfrom & Hnd).
  split; [|split; [|split]].
  - constructor; [|done].
    apply upsertAvailability_stamped. exists (storeRecord now r).
    split; [apply setDoc_In|done].
  - apply List.Forall_forall. intros d Hd Hne.
    apply List.Forall_cons_iff in Hne as [Hr Hne].
    rewrite List.Forall_forall in Hkeep. apply Hkeep; [|done].
    apply setDoc_keeps; [done|]. intros He. apply Hr. by rewrite He.
  - eapply List.Forall_impl; [|exact Hfrom]. intros d [Hd|(r' & Hr' & ->)].
    + apply In_setDoc in Hd as [->|Hd]; [|by left].
      right. exists r. split; [by left|done].
    + right. exists r'. split; [by right|done].
  - intros Hc. by apply Hnd, setDoc_NoDup.
Qed.

Section Site.
Variable browser : string -> option (list SA.t).
Variable storeAccepts : bool.
Variable now : Z.

(** X7.  A live entry of the memory cache is the answer, with the city
    filter applied and [fromCache] set, also when [forceRefresh] is
    true: the site is not visited, the collections are not written, and
    the cache answers every key at every instant as it did before. *)
Theorem live_cache_entry_is_served_even_on_forceRefresh input s cached :
  liveEntry now s (productId input) = Some cached ->
  let after := (getAvailability browser storeAccepts now input s).2 in
  (getAvailability browser storeAccepts now input s).1
  = Returns (Some {| AR.productId := AR.productId cached;
                     AR.productName := AR.productName cached;
                     AR.stores := filterByCity (city input) (AR.stores cached);
                     AR.checkedAt := AR.checkedAt cached;
                     AR.fromCache := true |})
  /\ availability after = availability s
  /\ products after = products s
  /\ forall now' productId',
       liveEntry now' after productId' = liveEntry now' s productId'.
Proof.
  intros Hc. cbv zeta. rewrite (getAvailability_cache_hit _ _ _ _ _ _ Hc).
  cbn [fst snd withCache availability products]. repeat split.
  intros now' productId'. unfold liveEntry in *. cbn [cache].
  by apply (get_hit_keeps_answers now (productId input) (cache s) cached).
Qed.


End Site.

(** The cache holds an answer with the two outlets; a forced refresh
    for Helsinki gets the one in Helsinki from it while the site is
    down. *)
Lemma live_cache_entry_is_served_even_on_forceRefresh_witness :
  (getAvailability siteDown true 60 helsinkiRequest warmState).1
  = Returns (Some {| AR.productId := "000132"; AR.productName := "Viina";
                     AR.stores := [kamppi]; AR.checkedAt := 55;
                     AR.fromCache := true |})
  /\ availability (getAvailability siteDown true 60 helsinkiRequest warmState).2
     = availability warmState.
Proof.
  destruct (live_cache_entry_is_served_even_on_forceRefresh siteDown true 60
              helsinkiRequest warmState cachedAnswer) as (Hanswer & Hdocs & _).
  - vm_compute. reflexivity.
  - split; [exact Hanswer|exact Hdocs].
Defined.


End AvailabilityMoreFacts.

(** ** Enrichment: labels of the page and the scrape that is done once *)

Module EnrichmentMoreFacts.
Import Js JsFacts Enrichment Examples MoreExamples.

Lemma seen_In (l : string) (seen : list string) :
  existsb (String.eqb l) seen = true <-> In l seen.
Proof.
  rewrite existsb_exists. split.
  - intros (x & Hx & ->%String.eqb_eq). done.
  - intros H. exists l. split; [done|apply String.eqb_refl].
Qed.

Lemma truthyOpt_Some v l :
  truthyOpt v = Some l <-> v = Some l /\ l <> "".
Proof.
  unfold truthyOpt. destruct v as [[|c s]|]; simpl.
  - split; [done|]. by intros [[= <-] ?].
  - split; [intros [= <-]; by split|]. by intros [[= <-] _].
  - split; [done|]. by intros [? _].
Qed.

(** What the loop over the labelled elements collects, given the labels
    seen so far. *)
Lemma collectLabels_spec elements seen :
  NoDup (collectLabels elements seen)
  /\ forall l, In l (collectLabels elements seen) <->
       ~ In l seen /\ l <> ""
       /\ exists el, In el elements /\ getAttribute "aria-label" el = Some l.
Proof.
  revert seen. induction elements as [|el rest IH]; intros seen; simpl.
  { split; [constructor|]. intros l. split; [done|]. by intros (_ & _ & ? & [] & _). }
  destruct (truthyOpt (getAttribute "aria-label" el)) as [a|] eqn:Ha.
  - apply truthyOpt_Some in Ha as [Ha Hne].
    destruct (existsb (String.eqb a) seen) eqn:Hs.
    + apply seen_In in Hs. destruct (IH seen) as [Hnd Hin]. split; [done|].
      intros l. rewrite Hin. split.
      * intros (? & ? & el' & ? & ?). eauto 8.
      * intros (Hl & ? & el' & [<-|?] & Hel'); [|eauto 8].
        rewrite Ha in Hel'. injection Hel' as <-. done.
    + assert (Hns : ~ In a seen).
      { intros H%seen_In. congruence. }
      destruct (IH (a :: seen)) as [Hnd Hin]. split.
      * apply NoDup_cons. split; [|done].
        intros [H _]%list_elem_of_In%Hin. apply H. by left.
      * intros l. simpl. rewrite Hin. simpl. split.
        -- intros [<-|(Hl & ? & el' & ? & ?)]; [eauto 8|].
           split; [tauto|]. eauto 8.
        -- intros (Hl & ? & el' & [<-|?] & Hel').
           ++ left. rewrite Ha in Hel'. by injection Hel'.
           ++ destruct (String.eqb_spec a l) as [?|Hal]; [by left|].
              right. split; [tauto|]. eauto 8.
  - destruct (IH seen) as [Hnd Hin]. split; [done|].
    intros l. rewrite Hin. split.
    + intros (? & ? & el' & ? & ?). eauto 8.
    + intros (Hl & Hne & el' & [<-|?] & Hel'); [|eauto 8].
      assert (truthyOpt (getAttribute "aria-label" el) = Some l)
        by by apply truthyOpt_Some.
      congruence.
Qed.

(** X11.  The food pairings and the certificates that the page script
    returns hold no label twice, and they hold exactly the non-empty
    [aria-label]s of the elements that the two selectors find. *)
Theorem extracted_labels_are_distinct_and_complete page :
  let data := extract page in
  NoDup (e_foodPairings data) /\ NoDup (e_certificates data)
  /\ (forall l, In l (e_foodPairings data) <->
        l <> ""
        /\ exists el, In el (documentAll isFoodSymbol (document page))
                      /\ getAttribute "aria-label" el = Some l)
  /\ (forall l, In l (e_certificates data) <->
        l <> ""
        /\ exists el, In el (documentAll isCertificate (document page))
                      /\ getAttribute "aria-label" el = Some l).
Proof.
  cbv zeta. cbn [extract e_foodPairings e_certificates].
  destruct (collectLabels_spec (documentAll isFoodSymbol (document page)) [])
    as [Hnd1 Hin1].
  destruct (collectLabels_spec (documentAll isCertificate (document page)) [])
    as [Hnd2 Hin2].
  split; [done|]. split; [done|]. split.
  - intros l. rewrite Hin1. simpl. tauto.
  - intros l. rewrite Hin2. simpl. tauto.
Qed.

(** An item that has enriched fields is returned as the store has it,
    whatever the browser would deliver. *)
Lemma getProduct_enriched browser storeAccepts now input s product :
  includeEnrichedData input = true ->
  products s !! productId input = Some product ->
  hasEnrichedData product = true ->
  getProduct browser storeAccepts now input s
  = (Some product,
     {| cache := <[productId input := product]> (cache s);
        products := products s |}).
Proof.
  intros Hi Hp He. unfold getProduct. rewrite Hi, Hp, He. simpl.
  by destruct (cache s !! productId input).
Qed.

Section Site.
Variable browser : string -> option Page.
Variable now : Timestamp.

(** X10.  Enriched data is scraped once.  When an item whose stored
    document has none of the enriched fields and [smokiness: null] is
    asked for with [includeEnrichedData], the page is scraped and
    merged into the answer and into the stored item.  If the page gave
    at least one of the fields that count, then as long as the store
    holds the item as that scrape wrote it, every request of that kind
    is answered with the stored item and no visit to the site,
    whatever the cache holds.  An item whose document has no
    [smokiness] key counts as enriched and is never scraped. *)
Theorem enriched_data_is_scraped_once input s product page :
  includeEnrichedData input = true ->
  products s !! productId input = Some product ->
  browser (productId input) = Some page ->
  let enriched := withEnrichedFields product (extract page) in
  (hasEnrichedData product = false ->
     let first := getProduct browser true now input s in
     fst first = Some (enriched (updatedAt product))
     /\ products (snd first) !! productId input = Some (enriched now)
     /\ (hasEnrichedData (enriched now) = true ->
         forall browser' storeAccepts' now' s',
           products s' !! productId input = Some (enriched now) ->
           getProduct browser' storeAccepts' now' input s'
           = (Some (enriched now),
              {| cache := <[productId input := enriched now]> (cache s');
                 products := products s' |})))
  /\ (smokiness product = Undefined ->
      forall storeAccepts,
        getProduct browser storeAccepts now input s
        = (Some product,
           {| cache := <[productId input := product]> (cache s);
              products := products s |})).
Proof.
  intros Hi Hp Hb enriched. split.
  - intros Hne first.
    assert (Hfirst : first =
      (Some (enriched (updatedAt product)),
       {| cache := <[productId input := enriched (updatedAt product)]> (cache s);
          products := <[productId input := enriched now]> (products s) |})).
    { subst first. unfold getProduct, scrapeProductDetails.
      rewrite Hi, Hp, Hne, Hb. simpl. by destruct (cache s !! productId input). }
    rewrite Hfirst. split; [done|]. split; [apply lookup_insert_eq|].
    intros He browser' storeAccepts' now' s' Hs'.
    by apply getProduct_enriched.
  - intros Hu storeAccepts. apply getProduct_enriched; [done|done|].
    unfold hasEnrichedData. rewrite Hu. by rewrite !orb_true_r.
Qed.

End Site.

(** The whisky page carries the smokiness widget: the first request
    scrapes it, and a request on the state it left is answered while
    the site is unreachable.  The whisky of the old seed file, which
    has no [smokiness] key, is returned as it is stored although the
    page is there. *)
Lemma enriched_data_is_scraped_once_witness :
  smokiness <$> fst (getProduct pageFails false 80 enrichRequest
                       (snd (getProduct whiskyPage true 70 enrichRequest whiskyOnly)))
  = Some (Present 5)
  /\ fst (getProduct whiskyPage true 70 enrichRequest seedWhiskyOnly)
     = Some seedWhisky.
Proof.
  split.
  - destruct (enriched_data_is_scraped_once whiskyPage 70 enrichRequest
                whiskyOnly whisky fiveIconPage) as [Hfirst _];
      [reflexivity|vm_compute; reflexivity|reflexivity|].
    destruct (Hfirst eq_refl) as (_ & Hstored & Hlater).
    rewrite (Hlater eq_refl pageFails false 80 _ Hstored).
    reflexivity.
  - destruct (enriched_data_is_scraped_once whiskyPage 70 enrichRequest
                seedWhiskyOnly seedWhisky fiveIconPage) as [_ Hmissing];
      [reflexivity|vm_compute; reflexivity|reflexivity|].
    by rewrite (Hmissing eq_refl true).
Defined.

End EnrichmentMoreFacts.

(** ** Store hours: reading the hours, and when the stores are refreshed *)

Module StoreHoursMoreFacts.
Import Js JsFacts Outlet StoreHours StoreHoursFacts StoreHoursSpec.
Import Examples MoreExamples.

Lemma digit_spec n :
  0 <= n <= 9 ->
  isDigit (digit n) = true /\ digitValue (digit n) = n
  /\ Ascii.eqb (digit n) "-" = false.
Proof.
  intros Hn.
  assert (Hall : forallb digitOk (map Z.of_nat (seq 0 10)) = true) by reflexivity.
  rewrite forallb_forall in Hall.
  assert (Hok : digitOk n = true).
  { apply Hall, in_map_iff. exists (Z.to_nat n). split; [lia|].
    apply in_seq. lia. }
  unfold digitOk in Hok.
  apply andb_true_iff in Hok as [[Hd Hv]%andb_true_iff Hm].
  apply Z.eqb_eq in Hv. apply negb_true_iff in Hm. done.
Qed.

Lemma isDigit_dash : isDigit "-" = false.
Proof. reflexivity. Qed.

Lemma oneOrTwoDigits_showHour n :
  0 <= n < 100 -> oneOrTwoDigits (showHour n) = Some n.
Proof.
  intros Hn. unfold showHour. destruct (Z.ltb_spec n 10).
  - destruct (digit_spec n) as (Hd & Hv & _); [lia|].
    cbn [oneOrTwoDigits]. by rewrite Hd, Hv.
  - destruct (digit_spec (n / 10)) as (Hd1 & Hv1 & _).
    { split; [apply Z.div_pos; lia|]. apply Z.lt_succ_r, Z.div_lt_upper_bound; lia. }
    destruct (digit_spec (n mod 10)) as (Hd2 & Hv2 & _).
    { pose proof (Z.mod_pos_bound n 10). lia. }
    cbn [oneOrTwoDigits]. rewrite Hd1, Hd2, Hv1, Hv2. f_equal.
    pose proof (Z.div_mod n 10). lia.
Qed.

Lemma hoursAt_hoursText o c :
  0 <= o < 100 -> 0 <= c < 100 -> hoursAt (hoursText o c) = Some (o, c).
Proof.
  intros Ho Hc. pose proof (oneOrTwoDigits_showHour c Hc) as Hclose.
  unfold hoursText, showHour at 1. destruct (Z.ltb_spec o 10).
  - destruct (digit_spec o) as (Hd & Hv & _); [lia|].
    change (String (digit o) "" +:+ "-" +:+ showHour c)
      with (String (digit o) (String "-" (showHour c))).
    cbn [hoursAt]. rewrite Hd, isDigit_dash. cbn [Ascii.eqb Bool.eqb andb].
    by rewrite Hclose, Hv.
  - destruct (digit_spec (o / 10)) as (Hd1 & Hv1 & _).
    { split; [apply Z.div_pos; lia|]. apply Z.lt_succ_r, Z.div_lt_upper_bound; lia. }
    destruct (digit_spec (o mod 10)) as (Hd2 & Hv2 & _).
    { pose proof (Z.mod_pos_bound o 10). lia. }
    change (String (digit (o / 10)) (String (digit (o mod 10)) "") +:+ "-" +:+ showHour c)
      with (String (digit (o / 10)) (String (digit (o mod 10)) (String "-" (showHour c)))).
    cbn [hoursAt]. rewrite Hd1, Hd2, Hclose, Hv1, Hv2. do 2 f_equal.
    pose proof (Z.div_mod o 10). lia.
Qed.

Lemma matchHours_hoursText o c :
  0 <= o < 100 -> 0 <= c < 100 -> matchHours (hoursText o c) = Some (o, c).
Proof.
  intros Ho Hc. pose proof (hoursAt_hoursText o c Ho Hc) as H.
  destruct (hoursText o c); simpl in *; by rewrite H.
Qed.

Lemma hoursText_not_closed o c :
  0 <= o < 100 -> String.eqb (hoursText o c) "SULJETTU" = false.
Proof.
  intros Ho. apply String.eqb_neq. unfold hoursText, showHour.
  destruct (Z.ltb_spec o 10) as [H|H].
  - intros [=].
  - intros [=].
Qed.

Section WithClock.
Variable clock : nat -> Date.
Variable localeCompare : string -> string -> Z.
Variable syncStores : list Store -> list Store * option string.

(** X12.  Hours printed as [open-close], each below 100, are read back
    as those two numbers: the store counts as open exactly when the
    hour of the clock is at least [open] and below [close], so never
    when [close] is not above [open]. *)
Theorem hours_text_is_read_back_and_decides_open openHour closeHour k :
  0 <= openHour < 100 -> 0 <= closeHour < 100 ->
  isStoreOpenNow clock (Some (hoursText openHour closeHour)) k
  = ((openHour <=? getHours (clock k)) && (getHours (clock k) <? closeHour), S k)
  /\ (closeHour <= openHour ->
      fst (isStoreOpenNow clock (Some (hoursText openHour closeHour)) k) = false).
Proof.
  intros Ho Hc.
  assert (Heq : isStoreOpenNow clock (Some (hoursText openHour closeHour)) k
    = ((openHour <=? getHours (clock k)) && (getHours (clock k) <? closeHour), S k)).
  { unfold isStoreOpenNow.
    assert (Ht : truthyOpt (Some (hoursText openHour closeHour))
                 = Some (hoursText openHour closeHour)).
    { unfold hoursText, showHour. by destruct (openHour <? 10). }
    by rewrite Ht, (hoursText_not_closed _ _ Ho), (matchHours_hoursText _ _ Ho Hc). }
  split; [done|]. intros Hle. rewrite Heq. cbn [fst].
  destruct (Z.leb_spec openHour (getHours (clock k))),
           (Z.ltb_spec (getHours (clock k)) closeHour); try done. lia.
Qed.

Lemma someStale_anyStale today stores k :
  (forall j, sameDay (clock j) today = true) ->
  (someStale clock stores k).1 = anyStale today stores.
Proof.
  intros Hday. revert k. induction stores as [|store rest IH]; intros k; [done|].
  cbn [someStale anyStale existsb].
  pose proof (isStoreDataStale_capturedOn clock today store k Hday) as Hs.
  destruct (isStoreDataStale clock store k) as [stale k1]. cbn [fst] in Hs.
  rewrite <- Hs. destruct stale; [done|]. apply IH.
Qed.


(** X14.  The stores that [listStores] returns are stores of the
    collection that lie in the city asked for, letter case apart; there
    are as many of them as the limit allows; and none is left out when
    the limit is not reached. *)
Theorem listStores_returns_the_stores_of_the_city collection city limit :
  let found := listStores localeCompare collection city limit in
  let inCity := List.filter (inCityOf city) collection in
  Forall (fun s => In s collection /\ inCityOf city s = true) found
  /\ length found = Nat.min limit (length inCity)
  /\ (length inCity <= limit -> found ≡ₚ inCity)%nat.
Proof.
  cbv zeta. unfold listStores.
  set (stores := match truthyOpt city with Some c => _ | None => _ end).
  assert (Hs : stores = List.filter (inCityOf city) collection).
  { subst stores. unfold inCityOf. destruct (truthyOpt city) as [c|]; [done|].
    symmetry. by apply AvailabilityFacts.filter_all. }
  rewrite Hs. clear Hs stores.
  set (sorted := sortBy _ _).
  assert (Hperm : sorted ≡ₚ List.filter (inCityOf city) collection)
    by apply sortBy_perm.
  split; [|split].
  - apply List.Forall_forall. intros s Hin%In_slice.
    apply list_elem_of_In in Hin. rewrite Hperm in Hin.
    apply list_elem_of_In, filter_In in Hin. done.
  - unfold slice. rewrite Nat.sub_0_r, drop_0, length_take.
    by rewrite (Permutation_length Hperm).
  - intros Hle. unfold slice. rewrite Nat.sub_0_r, drop_0.
    rewrite take_ge; [done|]. by rewrite (Permutation_length Hperm).
Qed.

End WithClock.

Lemma hours_text_is_read_back_and_decides_open_witness :
  isStoreOpenNow afternoon (Some "9-20") 0 = (true, 1%nat)
  /\ fst (isStoreOpenNow afternoon (Some "22-6") 0) = false.
Proof.
  split.
  - apply (hours_text_is_read_back_and_decides_open afternoon 9 20 0); lia.
  - apply (hours_text_is_read_back_and_decides_open afternoon 22 6 0); lia.
Defined.


End StoreHoursMoreFacts.

(** ** Request pacing and back-off *)

Module RateLimitFacts.
Import RateLimit ScraperSession MoreExamples.

Lemma throttle_advances r now late :
  0 <= late ->
  lastRequestTime r + minIntervalMs r <= lastRequestTime (throttle r now late)
  /\ now <= lastRequestTime (throttle r now late)
  /\ minIntervalMs (throttle r now late) = minIntervalMs r.
Proof.
  intros Hl. unfold throttle. cbn [lastRequestTime minIntervalMs].
  destruct (Z.ltb_spec (now - lastRequestTime r) (minIntervalMs r)); lia.
Qed.

Lemma spaced_cons gap a times :
  spaced gap (a :: times)
  <-> match times with [] => True | b :: _ => a + gap <= b /\ spaced gap times end.
Proof. by destruct times. Qed.

Lemma runCalls_spaced r t calls :
  Forall benign calls ->
  spaced (minIntervalMs r) (lastRequestTime r :: map fst (runCalls r t calls)).
Proof.
  intros Hb. revert r t. induction Hb as [|c rest Hc _ IH]; intros r t; [done|].
  cbn [runCalls throttleWithJitter map fst]. apply spaced_cons.
  destruct Hc as (_ & Hl & _).
  destruct (throttle_advances r (t + idle c) (late1 c) Hl) as (Hadv & _ & Hmin).
  split; [done|]. rewrite <- Hmin. apply IH.
Qed.

Lemma runCalls_returns_spaced J r t calls :
  Forall benign calls ->
  Forall (fun c => jitter c + late2 c <= J) calls ->
  lastRequestTime r <= t ->
  spaced (minIntervalMs r - J) (map snd (runCalls r t calls))
  /\ match runCalls r t calls with
     | [] => True
     | (_, returned) :: _ => lastRequestTime r + minIntervalMs r <= returned
     end.
Proof.
  intros Hb. revert r t. induction Hb as [|c rest Hc _ IH]; intros r t HJ Ht; [done|].
  apply List.Forall_cons_iff in HJ as [HcJ HJ].
  cbn [runCalls throttleWithJitter map snd].
  destruct Hc as (Hi & Hl & Hj & Hl2).
  destruct (throttle_advances r (t + idle c) (late1 c) Hl) as (Hadv & Hnow & Hmin).
  set (r' := throttle r (t + idle c) (late1 c)) in *.
  destruct (IH r' (lastRequestTime r' + jitter c + late2 c) HJ) as [Hsp Hfirst];
    [lia|].
  split; [|lia]. apply spaced_cons.
  destruct (runCalls r' _ rest) as [|[l1 r1] more] eqn:Hrun; [done|].
  cbn [map snd]. split; [|by rewrite Hmin in Hsp].
  cbn [map snd] in Hsp. lia.
Qed.

(** X15.  Throttled calls made one after the other record request times
    that are at least [minIntervalMs] apart, the first of them that far
    from the time the limiter held.  The times at which the calls of
    [throttleWithJitter] return, where the requests are sent, are only
    guaranteed to be [minIntervalMs - J] apart when jitter and lateness
    add up to at most [J]. *)
Theorem throttle_spaces_recorded_times_not_requests r t calls :
  Forall benign calls ->
  lastRequestTime r <= t ->
  spaced (minIntervalMs r) (lastRequestTime r :: map fst (runCalls r t calls))
  /\ forall J, Forall (fun c => jitter c + late2 c <= J) calls ->
       spaced (minIntervalMs r - J) (map snd (runCalls r t calls)).
Proof.
  intros Hb Ht. split; [by apply runCalls_spaced|].
  intros J HJ. by apply runCalls_returns_spaced.
Qed.

(** *** Back-off *)

Lemma delays_S n b :
  delays (S n) b = (getNextDelay b).1 :: delays n (getNextDelay b).2.
Proof. reflexivity. Qed.

Lemma nextDelay_le b :
  0 < baseMs b -> 1 <= factor b ->
  (getNextDelay b).1 <= (getNextDelay (getNextDelay b).2).1.
Proof.
  intros Hb Hf. cbn [getNextDelay fst snd attempt baseMs maxMs factor].
  rewrite Nat2Z.inj_succ, Z.pow_succ_r by lia.
  assert (0 < factor b ^ Z.of_nat (attempt b)) by (apply Z.pow_pos_nonneg; lia).
  apply Z.min_le_compat_r. nia.
Qed.

(** X16.  With a positive base and a factor of at least one, the delays
    of successive back-off steps never decrease and never exceed
    [maxMs]; the k-th of them is [baseMs * factor ^ k] cut at [maxMs],
    counted from the last reset. *)
Theorem backoff_delays_grow_and_stay_below_the_cap b n :
  0 < baseMs b -> 1 <= factor b ->
  spaced 0 (delays n b)
  /\ Forall (fun d => d <= maxMs b) (delays n b)
  /\ forall k, (k < n)%nat ->
       delays n b !! k
       = Some (Z.min (baseMs b * factor b ^ Z.of_nat (attempt b + k)) (maxMs b)).
Proof.
  intros Hb Hf. revert b Hb Hf. induction n as [|n IH]; intros b Hb Hf.
  { split; [done|]. split; [done|]. intros k Hk. lia. }
  rewrite delays_S.
  destruct (IH (getNextDelay b).2) as (Hsp & Hmax & Hk); [done|done|].
  split; [|split].
  - apply spaced_cons. destruct n as [|n]; [done|].
    rewrite delays_S in *. split; [|done].
    pose proof (nextDelay_le b Hb Hf). lia.
  - constructor; [apply Z.le_min_r|done].
  - intros [|k] Hlt.
    + rewrite Nat.add_0_r. reflexivity.
    + etransitivity; [apply (Hk k); lia|].
      cbn [getNextDelay snd attempt baseMs maxMs factor].
      do 4 f_equal. lia.
Qed.

(** *** The scraper's session *)

Lemma four_failures s :
  defaults s -> sessionEstablished s = false ->
  exists s4,
    failingScrapes 4 s = (s4, [2000; 4000; 8000; 16000])
    /\ defaults s4 /\ sessionEstablished s4 = false
    /\ (failingScrapes 1 s).2 = [2000]
    /\ (failingScrapes 2 s).2 = [2000; 4000]
    /\ (failingScrapes 3 s).2 = [2000; 4000; 8000]
    /\ sessionEstablished (failingScrapes 3 s).1 = true.
Proof.
  destruct s as [e [a b m f]]. unfold defaults. cbn.
  intros (-> & -> & ->) ->. eexists. repeat split.
Qed.

Lemma failingScrapes_add n m s :
  failingScrapes (n + m) s
  = ((failingScrapes m (failingScrapes n s).1).1,
     ((failingScrapes n s).2 ++ (failingScrapes m (failingScrapes n s).1).2)%list).
Proof.
  revert s. induction n as [|n IH]; intros s.
  - cbn. by destruct (failingScrapes m s).
  - cbn [Nat.add failingScrapes]. destruct (scrape true false s) as [s1 delay].
    rewrite IH. by destruct (failingScrapes n s1), (failingScrapes m _).
Qed.

Lemma failingScrapes_cycle n s :
  defaults s -> sessionEstablished s = false ->
  (failingScrapes n s).2 = map cycleDelay (seq 0 n).
Proof.
  revert s. induction (lt_wf n) as [n _ IH]. intros s Hd He.
  destruct (four_failures s Hd He) as (s4 & H4 & Hd4 & He4 & H1 & H2 & H3 & _).
  destruct n as [|[|[|[|n]]]]; [done|done|done|done|].
  change (S (S (S (S n)))) with (4 + n)%nat.
  rewrite failingScrapes_add, H4. cbn [fst snd].
  rewrite (IH n) by (done || lia).
  rewrite seq_app, map_app. f_equal.
  change (0 + 4)%nat with (4 + 0)%nat.
  rewrite <- (fmap_add_seq 4 0 n). rewrite <- list_fmap_compose.
  apply map_ext. intros k. unfold cycleDelay. cbn [compose].
  replace (4 + k)%nat with (k + 1 * 4)%nat by lia.
  by rewrite Nat.Div0.mod_add.
Qed.

(** X17.  While the site root loads, scrapes that fail one after the
    other wait 2, 4, 8 and 16 seconds and then start over: the fourth
    failure in a row gives the session up, the next scrape establishes
    it again and that resets the back-off.  So no wait is longer than 16
    seconds, and the cap of 60 seconds is never reached. *)
Theorem failing_scrapes_wait_in_cycles_of_four n :
  (failingScrapes n initial).2 = map cycleDelay (seq 0 n)
  /\ Forall (fun delay => delay <= 16000) (failingScrapes n initial).2
  /\ sessionEstablished (failingScrapes 3 initial).1 = true
  /\ sessionEstablished (failingScrapes 4 initial).1 = false.
Proof.
  assert (Hc : (failingScrapes n initial).2 = map cycleDelay (seq 0 n)).
  { by apply failingScrapes_cycle. }
  split; [done|]. split; [|done].
  rewrite Hc. apply List.Forall_forall. intros d (k & <- & _)%in_map_iff.
  unfold cycleDelay. pose proof (Nat.mod_upper_bound k 4).
  assert (Hk : (k mod 4 = 0 \/ k mod 4 = 1 \/ k mod 4 = 2 \/ k mod 4 = 3)%nat) by lia.
  destruct Hk as [-> | [-> | [-> | -> ] ] ]; done.
Qed.

(** Two calls with a limit of two seconds: the first waits out 900 ms
    of jitter, the second is held until two seconds after the recorded
    time of the first and is sent 1100 ms after the first request. *)
Lemma throttle_spaces_recorded_times_not_requests_witness :
  spaced 2000 (0 :: map fst (runCalls (newRateLimiter 2000) 5000 jitteryCalls))
  /\ spaced (2000 - 900) (map snd (runCalls (newRateLimiter 2000) 5000 jitteryCalls))
  /\ map snd (runCalls (newRateLimiter 2000) 5000 jitteryCalls) = [5900; 7000].
Proof.
  destruct (throttle_spaces_recorded_times_not_requests
              (newRateLimiter 2000) 5000 jitteryCalls) as [Hrec Hret].
  - repeat constructor; vm_compute; congruence.
  - vm_compute. congruence.
  - split; [exact Hrec|]. split; [|reflexivity].
    apply Hret. repeat constructor; vm_compute; congruence.
Defined.

Lemma backoff_delays_grow_and_stay_below_the_cap_witness :
  delays 7 (newBackoff (mkOptions None None None)) !! 5%nat = Some 60000
  /\ delays 7 (newBackoff (mkOptions None None None))
     = [2000; 4000; 8000; 16000; 32000; 60000; 60000].
Proof.
  destruct (backoff_delays_grow_and_stay_below_the_cap
              (newBackoff (mkOptions None None None)) 7) as (_ & _ & Hk).
  - reflexivity.
  - vm_compute. congruence.
  - split; [|reflexivity]. rewrite (Hk 5%nat) by lia. reflexivity.
Defined.

End RateLimitFacts.

(** ** The price list: header, rows and validation *)

Module ExcelParserFacts.
Import Js JsFacts ExcelParser Examples MoreExamples.

Section WithNumbers.
Variable parseFloat : string -> option Q.
Variable numberToString : Q -> string.

Local Abbreviation rowToAlkoExcelRow := (ExcelParser.rowToAlkoExcelRow parseFloat numberToString).
Local Abbreviation parseRows := (ExcelParser.parseRows parseFloat numberToString).
Local Abbreviation parseAlkoExcel := (ExcelParser.parseAlkoExcel parseFloat numberToString).
Local Abbreviation errorsOf := (ExcelParser.errorsOf numberToString).
Local Abbreviation validateProducts := (ExcelParser.validateProducts numberToString).

Lemma findHeader_none bound i data :
  Forall (fun row => isHeader row = false) (take bound data) ->
  findHeader bound i data = None.
Proof.
  revert i data. induction bound as [|bound IH]; intros i data; [done|].
  destruct data as [|row rest]; [done|].
  cbn [take findHeader]. intros [-> Hrest]%List.Forall_cons_iff. by apply IH.
Qed.

Lemma findHeader_first bound i before header after :
  (length before < bound)%nat ->
  Forall (fun row => isHeader row = false) before ->
  isHeader header = true ->
  findHeader bound i (before ++ header :: after)
  = Some (i + length before)%nat.
Proof.
  revert bound i. induction before as [|row before IH]; intros bound i Hlen Hb Hh.
  - destruct bound; [simpl in Hlen; lia|]. cbn. rewrite Hh. f_equal. lia.
  - destruct bound; [simpl in Hlen; lia|].
    apply List.Forall_cons_iff in Hb as [Hrow Hb].
    cbn [app findHeader]. rewrite Hrow.
    rewrite IH; [|simpl in Hlen; lia|done|done]. f_equal. simpl. lia.
Qed.

(** X18.  The header row is looked for in the first ten rows only.  If
    none of them starts with the cell [Numero], parsing fails, whatever
    the rows further down hold; otherwise the rows before the first such
    row are ignored and the ones after it are parsed. *)
Theorem header_row_is_searched_in_the_first_ten_rows clock data :
  (Forall (fun row => isHeader row = false) (take 10 data) ->
   parseAlkoExcel clock data = inr headerNotFound)
  /\ (forall before header after,
        data = (before ++ header :: after)%list ->
        (length before < 10)%nat ->
        Forall (fun row => isHeader row = false) before ->
        isHeader header = true ->
        parseAlkoExcel clock data = inl (parseRows clock 0 after).1).
Proof.
  unfold ExcelParser.parseAlkoExcel. split.
  - intros Hnone. by rewrite findHeader_none.
  - intros before header after -> Hlen Hb Hh.
    rewrite findHeader_first by done. cbn [Nat.add].
    rewrite (cons_middle header before after), app_assoc.
    rewrite (drop_app_length' (before ++ [header]) after); [done|].
    rewrite length_app. simpl. lia.
Qed.

Lemma rowToAlkoExcelRow_Numero row excelRow :
  rowToAlkoExcelRow row = Some excelRow -> truthy (Numero excelRow) = true.
Proof.
  unfold ExcelParser.rowToAlkoExcelRow.
  destruct (parseString numberToString (cell row 0)) as [numero|];
    [|done].
  cbn [truthyOpt]. destruct (truthy numero) eqn:Ht; [|done].
  by intros [= <-].
Qed.

Lemma parseRows_spec clock k rows :
  let products := (parseRows clock k rows).1 in
  let skipped := (parseRows clock k rows).2 in
  Forall (fun p => truthy (id p) = true
                   /\ Enrichment.hasEnrichedData p = false
                   /\ createdAt p = updatedAt p) products
  /\ (length products + skipped = length (List.filter hasCells rows))%nat
  /\ map id products
     = omap (fun row => Numero <$> rowToAlkoExcelRow row)
         (List.filter hasCells rows).
Proof.
  cbv zeta. revert k. induction rows as [|row rows IH]; intros k; [done|].
  destruct row as [|c row]; [apply IH|].
  cbn [ExcelParser.parseRows List.filter hasCells omap].
  destruct (rowToAlkoExcelRow (c :: row)) as [excelRow|] eqn:Hrow.
  - destruct (IH (S k)) as (Hall & Hlen & Hids).
    destruct (parseRows clock (S k) rows) as [products skipped].
    cbn [fst snd length map fmap option_fmap option_map] in *.
    split; [|split].
    + constructor; [|done]. split; [|done].
      by apply (rowToAlkoExcelRow_Numero (c :: row)).
    + lia.
    + rewrite Hids. cbn [omap list_omap]. rewrite Hrow. reflexivity.
  - destruct (IH k) as (Hall & Hlen & Hids).
    destruct (parseRows clock k rows) as [products skipped].
    cbn [fst snd length fmap option_fmap option_map] in *.
    split; [done|]. split; [lia|].
    cbn [omap list_omap]. rewrite Hrow. exact Hids.
Qed.

(** X19.  Every product that comes out of the rows has a number that is
    not empty, none of the enriched fields, and one time for creation
    and update; each row that holds cells either gives one product or is
    counted as skipped, and the products keep the order of the rows. *)
Theorem parsed_products_have_a_number_and_no_enriched_fields clock k rows :
  let products := (parseRows clock k rows).1 in
  let skipped := (parseRows clock k rows).2 in
  Forall (fun p => truthy (id p) = true
                   /\ Enrichment.hasEnrichedData p = false
                   /\ createdAt p = updatedAt p) products
  /\ (length products + skipped = length (List.filter hasCells rows))%nat
  /\ map id products
     = omap (fun row => Numero <$> rowToAlkoExcelRow row)
         (List.filter hasCells rows).
Proof. apply parseRows_spec. Qed.

(** *** Validation *)

Lemma errorsOf_nil product :
  errorsOf product = [] <-> acceptable product = true.
Proof.
  unfold ExcelParser.errorsOf, acceptable.
  destruct (truthy (id product)), (truthy (name product)),
    (Qle_bool 0 (price product)), (Qle_bool 0 (alcoholPercentage product)),
    (Qle_bool (alcoholPercentage product) 100); simpl; split; done.
Qed.

Lemma errorsOf_missing_id product :
  In "Missing product ID" (errorsOf product) -> truthy (id product) = false.
Proof.
  unfold ExcelParser.errorsOf. destruct (truthy (id product)); [|done].
  intros H. exfalso. revert H.
  destruct (truthy (name product)), (Qle_bool 0 (price product)),
    (Qle_bool 0 (alcoholPercentage product) && Qle_bool (alcoholPercentage product) 100);
    cbn [app In]; cbv [String.append]; intros H;
    repeat (destruct H as [H|H]; [discriminate H|]); exact H.
Qed.

Lemma validateProducts_spec products :
  let v := validateProducts products in
  valid v = List.filter acceptable products
  /\ map fst (invalid v) = List.filter (fun p => negb (acceptable p)) products
  /\ Forall (fun entry => entry.2 = errorsOf entry.1 /\ entry.2 <> []) (invalid v)
  /\ (length (valid v) + length (invalid v) = length products)%nat.
Proof.
  cbv zeta. induction products as [|p products (Hv & Hi & He & Hl)].
  { repeat split; constructor. }
  cbn [ExcelParser.validateProducts List.filter].
  pose proof (errorsOf_nil p) as Hp.
  destruct (errorsOf p) as [|e es] eqn:Herr.
  - rewrite (proj1 Hp eq_refl). cbn [valid invalid negb length].
    rewrite Hv. repeat split; try done. rewrite <- Hv. lia.
  - destruct (acceptable p); [discriminate (proj2 Hp eq_refl)|].
    cbn [valid invalid negb length map fst].
    rewrite Hi. repeat split; try done; [|lia].
    constructor; [|done]. cbn [fst snd]. by rewrite Herr.
Qed.

(** X20.  Validation splits the products, in their order, into those
    that pass the four checks (a number, a name, a price that is not
    negative, an alcohol percentage from 0 to 100) and the others; each
    of the others comes with its errors, of which there is at least
    one, and no product is lost or duplicated. *)
Theorem validation_splits_products_by_the_four_checks products :
  let v := validateProducts products in
  valid v = List.filter acceptable products
  /\ map fst (invalid v) = List.filter (fun p => negb (acceptable p)) products
  /\ Forall (fun entry => entry.2 = errorsOf entry.1 /\ entry.2 <> []) (invalid v)
  /\ (length (valid v) + length (invalid v) = length products)%nat.
Proof. apply validateProducts_spec. Qed.

(** X21.  A product that was parsed from the sheet is never reported
    as lacking its number: the rows without a number are skipped by the
    parser, so among the errors of the rejected products the message
    [Missing product ID] does not occur. *)
Theorem parsed_products_are_never_rejected_for_a_missing_number
    clock data products :
  parseAlkoExcel clock data = inl products ->
  Forall (fun entry => ~ In "Missing product ID" entry.2)
         (invalid (validateProducts products)).
Proof.
  unfold ExcelParser.parseAlkoExcel.
  destruct (findHeader 10 0 data) as [h|]; [|done]. intros [= <-].
  set (rows := drop (S h) data).
  destruct (parseRows_spec clock 0 rows)
    as (Hall & _).
  destruct (validateProducts_spec (parseRows clock 0 rows).1)
    as (_ & Hi & He & _).
  rewrite List.Forall_forall in *. intros [p errors] Hin. cbn [snd].
  destruct (He _ Hin) as [Herr _]. cbn [fst snd] in Herr. subst errors.
  intros Hid%errorsOf_missing_id.
  assert (Hp : In p (parseRows clock 0 rows).1).
  { assert (Hf : In p (map fst (invalid (validateProducts (parseRows clock 0 rows).1)))).
    { apply in_map_iff. by exists (p, errorsOf p). }
    rewrite Hi in Hf. by apply filter_In in Hf as [? _]. }
  destruct (Hall p Hp) as [Ht _]. congruence.
Qed.

End WithNumbers.

(** A header in the eleventh row is not found; the header of the price
    list, in the third row, is. *)
Lemma header_row_is_searched_in_the_first_ten_rows_witness :
  ExcelParser.parseAlkoExcel readsNoNumber printsZero counterClock lateHeaderSheet
  = inr headerNotFound
  /\ ExcelParser.parseAlkoExcel readsNoNumber printsZero counterClock priceList
     = inl (ExcelParser.parseRows readsNoNumber printsZero counterClock 0
              [viinaRow; namelessRow; orphanRow]).1.
Proof.
  split.
  - apply (proj1 (header_row_is_searched_in_the_first_ten_rows
                     readsNoNumber printsZero counterClock lateHeaderSheet)).
    vm_compute. repeat constructor.
  - apply (proj2 (header_row_is_searched_in_the_first_ten_rows
                     readsNoNumber printsZero counterClock priceList)
             [titleRow; []] headerRow [viinaRow; namelessRow; orphanRow]).
    + reflexivity.
    + vm_compute. lia.
    + vm_compute. repeat constructor.
    + reflexivity.
Defined.

(** The row without a name is rejected for its name, not for its
    number. *)
Lemma parsed_products_are_never_rejected_for_a_missing_number_witness :
  Forall (fun entry => ~ In "Missing product ID" entry.2)
    (invalid (ExcelParser.validateProducts printsZero
                (ExcelParser.parseRows readsNoNumber printsZero counterClock 0
                   [viinaRow; namelessRow; orphanRow]).1))
  /\ map snd
       (invalid (ExcelParser.validateProducts printsZero
                   (ExcelParser.parseRows readsNoNumber printsZero counterClock 0
                      [viinaRow; namelessRow; orphanRow]).1))
     = [["Missing product name"]].
Proof.
  split; [|vm_compute; reflexivity].
  apply (parsed_products_are_never_rejected_for_a_missing_number
           readsNoNumber printsZero counterClock priceList).
  reflexivity.
Defined.

End ExcelParserFacts.

(** ** The product sync: accounting, log and what it overwrites *)

Module SyncFacts.
Import Js JsFacts ExcelParser Sync Examples MoreExamples.

Lemma hasEnrichedData_withTimestamps p created updated :
  Enrichment.hasEnrichedData (Upsert.withTimestamps p created updated)
  = Enrichment.hasEnrichedData p.
Proof. reflexivity. Qed.

Section WithEnvironment.
Variable clock : nat -> Timestamp.
Variable fetchHome : option Download.Response.
Variable fetchPriceList : string -> option Download.Response.
Variable messageOf : Download.DownloadError -> string.
Variable readWorkbook : list N -> list (list Cell) + string.
Variable parseFloat : string -> option Q.
Variable numberToString : Q -> string.
Variable alkoPriceListUrl : string.

Local Abbreviation downloadAndParse :=
  (Sync.downloadAndParse clock fetchHome fetchPriceList messageOf readWorkbook
     parseFloat numberToString).
Local Abbreviation syncProducts :=
  (Sync.syncProducts clock fetchHome fetchPriceList messageOf readWorkbook
     parseFloat numberToString alkoPriceListUrl).
Local Abbreviation opened s :=
  (createSyncLog clock product_sync alkoPriceListUrl s).2.

Lemma alter_last {A} (f : A -> A) (l : list A) (x : A) :
  alter f (length l) (l ++ [x])%list = (l ++ [f x])%list.
Proof.
  rewrite <- (Nat.add_0_r (length l)) at 1. by rewrite alter_app_r.
Qed.

Lemma downloadAndParse_parsed s parsed n :
  downloadAndParse s = inl (parsed, n) ->
  Forall (fun p => truthy (id p) = true
                   /\ Enrichment.hasEnrichedData p = false) parsed.
Proof.
  unfold Sync.downloadAndParse.
  destruct (Download.downloadPriceList _ _) as [buffer|]; [|done].
  destruct (readWorkbook buffer) as [data|]; [|done].
  unfold parseAlkoExcel. destruct (findHeader 10 0 data) as [h|]; [|done].
  intros [= <- _].
  destruct (ExcelParserFacts.parseRows_spec parseFloat numberToString
              (fun k => clock (tick s + k)) 0 (drop (S h) data)) as [Hall _].
  eapply List.Forall_impl; [|exact Hall]. intros p (? & ? & _). done.
Qed.

(** X22.  A product sync opens one log and seals it.  When the price
    list is downloaded and parsed, the result counts as processed the
    parsed products that pass validation, each of them as added or as
    updated, and carries one error line for each of the others; when
    the download or the parsing fails, the result carries the message
    alone, all counts are zero and the collection is left as it was.
    The log ends as [completed] or [failed] accordingly, with the
    errors of the result. *)
Theorem product_sync_accounts_for_every_parsed_product s :
  let r := (syncProducts s).1 in
  let s' := (syncProducts s).2 in
  (exists log,
     syncLogs s' = (syncLogs s ++ [log])%list
     /\ l_type log = product_sync
     /\ l_status log = (if success r then completed else failed)
     /\ l_errors log = errors r
     /\ is_Some (l_completedAt log))
  /\ match downloadAndParse (opened s) with
     | inl (parsed, _) =>
         success r = true
         /\ productsProcessed r = length (List.filter acceptable parsed)
         /\ (productsAdded r + productsUpdated r = productsProcessed r)%nat
         /\ (productsProcessed r + length (errors r) = length parsed)%nat
     | inr message =>
         r = {| success := false; productsProcessed := 0; productsAdded := 0;
                productsUpdated := 0; errors := [message] |}
         /\ products s' = products s
     end.
Proof.
  cbv zeta. unfold Sync.syncProducts. cbn [createSyncLog snd].
  set (s1 := {| products := products s; stores := stores s; syncLogs := _; tick := S (tick s) |}).
  destruct (downloadAndParse s1) as [[parsed readings]|message] eqn:Hparse.
  - cbn [fst snd success errors productsProcessed productsAdded productsUpdated
         completeSyncLog syncLogs].
    destruct (ExcelParserFacts.validateProducts_spec numberToString parsed)
      as (Hv & Hi & _ & Hlen).
    pose proof (UpsertFacts.upsertProducts_spec clock
                  (valid (validateProducts numberToString parsed))
                  (products s1) (tick s1 + readings)) as Hu.
    pose proof (UpsertSpec.up_total _ _ _ _ Hu) as Ht.
    cbn [Upsert.added Upsert.updated] in Ht.
    split.
    + eexists. split; [apply alter_last|]. cbn. repeat split. by eexists.
    + split; [done|]. split; [by rewrite Hv|]. split; [lia|].
      rewrite length_map. lia.
  - cbn [fst snd success errors failSyncLog syncLogs products].
    split; [|done].
    eexists. split; [apply alter_last|]. cbn. repeat split. by eexists.
Qed.

(** X23.  A product sync overwrites the enriched fields.  Every parsed
    product that passes validation is stored afterwards without taste
    profile, usage tips, serving suggestion, food pairings,
    certificates, ingredients and smokiness, whatever the collection
    held for it before. *)
Theorem product_sync_erases_enriched_fields s parsed readings p :
  downloadAndParse (opened s) = inl (parsed, readings) ->
  In p parsed -> acceptable p = true ->
  exists q, products (syncProducts s).2 !! id p = Some q
            /\ Enrichment.hasEnrichedData q = false.
Proof.
  intros Hparse Hp Hok. unfold Sync.syncProducts.
  cbn [createSyncLog snd] in *.
  set (s1 := {| products := products s; stores := stores s; syncLogs := _; tick := S (tick s) |}) in *.
  rewrite Hparse. cbn [snd completeSyncLog products].
  destruct (ExcelParserFacts.validateProducts_spec numberToString parsed)
    as (Hv & _).
  pose proof (downloadAndParse_parsed s1 parsed readings Hparse) as Hall.
  pose proof (UpsertFacts.upsertProducts_spec clock
                (valid (validateProducts numberToString parsed))
                (products s1) (tick s1 + readings)) as Hu.
  destruct (UpsertSpec.up_written _ _ _ _ Hu (id p))
    as (p' & q & Hp' & _ & Hq & Hf & _).
  { exists p. split; [|done]. rewrite Hv. apply list_elem_of_In, filter_In. done. }
  exists q. split; [exact Hq|].
  rewrite Hf, hasEnrichedData_withTimestamps.
  rewrite Hv in Hp'. apply list_elem_of_In, filter_In in Hp' as [Hp' _].
  rewrite List.Forall_forall in Hall. by destruct (Hall p' Hp').
Qed.

End WithEnvironment.

(** Item 000132 is stored with a smokiness; the price list holds its
    row; after the sync the stored item has no enriched field. *)
Lemma product_sync_erases_enriched_fields_witness :
  Enrichment.hasEnrichedData enrichedViina = true
  /\ exists q,
       products (Sync.syncProducts counterClock (Some homeResponse) sheetResponse
                   downloadFailed opensPriceList readsNoNumber printsZero
                   "https://www.alko.fi/hinnasto" enrichedDb).2 !! "000132"
       = Some q
       /\ Enrichment.hasEnrichedData q = false.
Proof.
  split; [reflexivity|].
  eapply (product_sync_erases_enriched_fields counterClock (Some homeResponse)
            sheetResponse downloadFailed opensPriceList readsNoNumber printsZero
            "https://www.alko.fi/hinnasto" enrichedDb _ _
            (ExcelParser.excelRowToProduct
               (ExcelParser.mkRow "000132" "Viina" "Altia" "0,5 l" (10 # 1) 0
                  None 0 "" None None None "" None None None None None None
                  None None 0 None None None None None None "" "")
               101)).
  - reflexivity.
  - left. reflexivity.
  - reflexivity.
Defined.

End SyncFacts.

(** ** Food pairing symbols *)

Module FoodSymbolsFacts.
Import Js JsFacts FoodSymbols FoodSymbolsSpec.

(** Each lower-cased Finnish name is not empty and is first met at its
    own entry. *)
Lemma names_distinct :
  Forall
    (fun s =>
       truthy (toLowerCase (fs_name s)) = true
       /\ List.find (fun t => String.eqb (toLowerCase (fs_name t))
                                          (toLowerCase (fs_name s)))
                    FOOD_SYMBOLS = Some s)
    FOOD_SYMBOLS.
Proof. repeat constructor. Qed.

(** X24.  Every Finnish name finds its own symbol, in any letter case
    and with white space around it. *)
Theorem finnish_name_finds_its_own_symbol symbol query :
  In symbol FOOD_SYMBOLS ->
  Enrichment.trim (toLowerCase query) = toLowerCase (fs_name symbol) ->
  findFoodSymbol query = Some symbol.
Proof.
  intros Hin Hq. pose proof names_distinct as Hall.
  rewrite List.Forall_forall in Hall. destruct (Hall symbol Hin) as [Ht Hfind].
  unfold findFoodSymbol. rewrite Hq, Ht. cbn [negb]. by rewrite Hfind.
Qed.

Lemma strays_are : strays = strayEnglishNames.
Proof. vm_compute. reflexivity. Qed.

(** X25.  An English name finds the symbol that lists it, with six
    exceptions that find another symbol because a name listed earlier
    contains them or is contained in them: [cake] finds Blinit (through
    [pancake]), [appetizers] Aperitiivi, [tapas] Tapas ja antipasti,
    [game birds] Riista, [spicy] the spicy sausages and [hot] the mild
    sausages (through [hot dog]). *)
Theorem english_name_finds_its_symbol_or_an_earlier_one symbol eng :
  In symbol FOOD_SYMBOLS -> In eng (englishNames symbol) ->
  (exists found,
     findFoodSymbol eng = Some found
     /\ (symbolId found = symbolId symbol
         \/ In (fs_name symbol, eng, fs_name found) strayEnglishNames))
  /\ Forall (fun stray =>
               fs_name <$> findFoodSymbol stray.1.2 = Some stray.2
               /\ String.eqb stray.2 stray.1.1 = false)
            strayEnglishNames.
Proof.
  intros Hs He. split.
  - rewrite <- strays_are. unfold strays.
    destruct (findFoodSymbol eng) as [found|] eqn:Hf.
    + exists found. split; [done|].
      destruct (String.eqb_spec (symbolId found) (symbolId symbol)) as [?|Hne];
        [by left|right].
      apply in_flat_map. exists symbol. split; [done|].
      apply in_flat_map. exists eng. split; [done|].
      rewrite Hf. apply String.eqb_neq in Hne. rewrite Hne. by left.
    + exfalso.
      assert (In (fs_name symbol, eng, "") strays).
      { apply in_flat_map. exists symbol. split; [done|].
        apply in_flat_map. exists eng. split; [done|]. rewrite Hf. by left. }
      rewrite strays_are in H. revert H. clear. simpl.
      intros H. repeat (destruct H as [H|H]; [discriminate H|]). done.
  - unfold strayEnglishNames.
    repeat (apply List.Forall_cons; [split; vm_compute; reflexivity|]).
    apply List.Forall_nil.
Qed.

Lemma finnish_name_finds_its_own_symbol_witness :
  symbolId <$> findFoodSymbol "  SUSHI " = Some "foodSymbol_Sushi".
Proof.
  rewrite (finnish_name_finds_its_own_symbol
             (mkFoodSymbol "Sushi" "foodSymbol_Sushi" ["sushi"; "sashimi"; "japanese"])
             "  SUSHI ").
  - reflexivity.
  - cbn. tauto.
  - reflexivity.
Defined.

Lemma english_name_finds_its_symbol_or_an_earlier_one_witness :
  fs_name <$> findFoodSymbol "hot" = Some "Miedot makkarat".
Proof.
  destruct (english_name_finds_its_symbol_or_an_earlier_one
              (mkFoodSymbol "Tulinen ruoka" "foodSymbol_Tulinenruoka"
                 ["spicy"; "hot"; "chili"; "curry"]) "hot") as [_ Hstray].
  - cbn. tauto.
  - cbn. tauto.
  - rewrite List.Forall_forall in Hstray.
    apply (Hstray ("Tulinen ruoka", "hot", "Miedot makkarat")).
    cbn. tauto.
Defined.

End FoodSymbolsFacts.

(** ** Recommendations *)

Module RecommendFacts.
Import Js JsFacts FoodSymbols Recommend Examples MoreExamples.

Lemma organic_is_not_vegan product :
  isOrganic product = true -> isVegan product = false.
Proof.
  unfold isOrganic, isVegan. destruct (specialGroup product) as [g|]; [|done].
  by intros ->%String.eqb_eq.
Qed.

Lemma kept_organic_and_vegan input product :
  isSet (preferOrganic input) = true -> isSet (preferVegan input) = true ->
  kept input product = false.
Proof.
  intros Ho Hv. unfold kept. rewrite Ho, Hv. cbn [negb orb].
  destruct (isOrganic product) eqn:Hp.
  - rewrite (organic_is_not_vegan _ Hp). apply andb_false_r.
  - rewrite andb_false_r. done.
Qed.

Section WithServices.
Variable products : gmap string Product.
Variable runQuery : Search.Query -> list Product.
Variable localeCompare : string -> string -> Z.
Variable searchByFoodSymbol : string -> nat -> option (list string).

Local Abbreviation collect := (Recommend.collect products).
Local Abbreviation fallback := (Recommend.fallback runQuery localeCompare).
Local Abbreviation getRecommendations :=
  (Recommend.getRecommendations products runQuery localeCompare searchByFoodSymbol).

(** What the loop over the scraped ids adds to the products found. *)
Lemma collect_spec input productIds found :
  exists more,
    collect input productIds found = (found ++ more)%list
    /\ Forall (fun p => kept input p = true
                        /\ exists id, In id productIds /\ products !! id = Some p)
              more
    /\ (length (found ++ more) <= Nat.max (i_limit input) (S (length found)))%nat
    /\ ((forall p, kept input p = false) -> more = []).
Proof.
  revert found. induction productIds as [|id rest IH]; intros found.
  { exists []. rewrite app_nil_r. repeat split; try done. simpl. lia. }
  cbn [Recommend.collect].
  assert (Hskip : exists more,
    collect input rest found = (found ++ more)%list
    /\ Forall (fun p => kept input p = true
                        /\ exists id', In id' (id :: rest) /\ products !! id' = Some p)
              more
    /\ (length (found ++ more) <= Nat.max (i_limit input) (S (length found)))%nat
    /\ ((forall p, kept input p = false) -> more = [])).
  { destruct (IH found) as (more & Hc & Hall & Hlen & Hnone).
    exists more. repeat split; try done.
    eapply List.Forall_impl; [|exact Hall].
    intros p (Hk & id' & Hid & Hp). split; [done|]. exists id'. split; [by right|done]. }
  destruct (products !! id) as [product|] eqn:Hid; [|exact Hskip].
  destruct (kept input product) eqn:Hk; [|exact Hskip].
  assert (Hp : kept input product = true
               /\ exists id', In id' (id :: rest) /\ products !! id' = Some product).
  { split; [done|]. exists id. split; [by left|done]. }
  destruct (Nat.leb_spec (i_limit input) (length (found ++ [product]))) as [Hfull|Hroom].
  - exists [product]. split; [done|]. split; [by constructor|].
    split; [rewrite length_app in *; simpl in *; lia|].
    intros Hnone. by rewrite Hnone in Hk.
  - destruct (IH (found ++ [product])%list) as (more & Hc & Hall & Hlen & Hnone).
    exists (product :: more). rewrite Hc, <- app_assoc. split; [done|]. split.
    + constructor; [done|].
      eapply List.Forall_impl; [|exact Hall].
      intros p (Hk' & id' & Hid' & Hp'). split; [done|].
      exists id'. split; [by right|done].
    + split.
      * rewrite <- app_assoc in Hlen. cbn [app] in Hlen.
        rewrite !length_app in *. simpl in *. lia.
      * intros Hnone'. by rewrite Hnone' in Hk.
Qed.

(** X26.  When the food is known and the scrape of its result page
    gives product ids, the recommendations are products of the
    collection, stored under ids of that page, that pass every filter
    of the request; there are at most [limit] of them (one when the
    limit is zero); and none at all when both organic and vegan products
    are preferred, because no special group is both. *)
Theorem food_pairing_recommendations_pass_the_filters
    input pairing symbol id rest :
  truthyOpt (foodPairing input) = Some pairing ->
  findFoodSymbol pairing = Some symbol ->
  searchByFoodSymbol (symbolId symbol) (i_limit input * 3) = Some (id :: rest) ->
  let answer := getRecommendations input in
  foodSymbol answer = Some (fs_name symbol)
  /\ Forall (fun p => kept input p = true
                      /\ exists id', In id' (id :: rest) /\ products !! id' = Some p)
            (recommendations answer)
  /\ (length (recommendations answer) <= Nat.max (i_limit input) 1)%nat
  /\ (isSet (preferOrganic input) = true -> isSet (preferVegan input) = true ->
      recommendations answer = []).
Proof.
  intros Hp Hs Hids. cbv zeta. unfold Recommend.getRecommendations.
  rewrite Hp, Hs, Hids. cbn [recommendations foodSymbol].
  destruct (collect_spec input (id :: rest) []) as (more & -> & Hall & Hlen & Hnone).
  cbn [app] in *. repeat split; try done.
  intros Ho Hv. apply Hnone. intros p. by apply kept_organic_and_vegan.
Qed.

(** X27.  Without a food pairing the recommendations are taken from the
    page of the database search: at most [limit] of them, each a product
    of that page, ranked by falling score, and each of one of the types
    asked for when more than one type is in play. *)
Theorem fallback_recommendations_are_ranked_search_results input :
  truthyOpt (foodPairing input) = None ->
  let answer := getRecommendations input in
  let types := unique (occasionTypes input).1 [] in
  let page :=
    Search.products
      (Search.searchProducts runQuery localeCompare (fallbackFilters input)
         {| Search.o_sortBy := Some Search.SortPrice;
            Search.o_sortOrder := Some Search.Desc;
            Search.o_limit := Some (i_limit input * 3)%nat;
            Search.o_offset := None |}) in
  (length (recommendations answer) <= i_limit input)%nat
  /\ Forall (fun p => In p page) (recommendations answer)
  /\ descending (scoreOf input) (recommendations answer)
  /\ ((1 < length types)%nat ->
      Forall (fun p => includesType types (type p) = true) (recommendations answer)).
Proof.
  intros Hp. cbv zeta. unfold Recommend.getRecommendations. rewrite Hp.
  unfold Recommend.fallback. cbn [recommendations].
  set (types := unique (occasionTypes input).1 []).
  set (page := Search.products _).
  set (chosen := if (1 <? length types)%nat then _ else page).
  set (scored := map _ chosen).
  set (sorted := sortBy _ scored).
  assert (Hsorted : forall x, In x sorted -> In x.1 chosen /\ x.2 = scoreOf input x.1).
  { intros x Hx%list_elem_of_In. subst sorted. rewrite sortBy_perm in Hx.
    apply list_elem_of_In, in_map_iff in Hx as (p & <- & Hin). done. }
  assert (Hchosen : forall p, In p chosen ->
            In p page /\ ((1 < length types)%nat -> includesType types (type p) = true)).
  { intros p. subst chosen. destruct (Nat.ltb_spec 1 (length types)).
    - intros [? ?]%filter_In. done.
    - intros ?. split; [done|lia]. }
  assert (Hrec : forall p, In p (map fst (slice sorted 0 (i_limit input))) ->
            In p chosen).
  { intros p (x & <- & Hx%StoreHoursFacts.In_slice)%in_map_iff.
    by apply Hsorted. }
  split; [|split; [|split]].
  - rewrite length_map. unfold slice. rewrite length_take. lia.
  - apply List.Forall_forall. intros p Hin. by apply Hchosen, Hrec.
  - apply descending_map. apply (SearchFacts.descending_ext snd).
    + apply Forall_forall. intros x Hx%list_elem_of_In%StoreHoursFacts.In_slice.
      by apply Hsorted.
    + apply descending_slice, descending_sortBy; intros a b; lia.
  - intros Hmany. apply List.Forall_forall. intros p Hin.
    by apply Hchosen; [apply Hrec|].
Qed.

End WithServices.

(** The page lists two stored spirits: both are recommended for sushi;
    with organic and vegan both preferred, nothing is. *)
Lemma food_pairing_recommendations_pass_the_filters_witness :
  Recommend.foodSymbol
    (Recommend.getRecommendations spirits (storeOf threeSpirits) codeUnitCompare
       sushiPage (sushiRequest None None)) = Some "Sushi"
  /\ Recommend.recommendations
       (Recommend.getRecommendations spirits (storeOf threeSpirits) codeUnitCompare
          sushiPage (sushiRequest None None)) = [suomiViina; viina]
  /\ Recommend.recommendations
       (Recommend.getRecommendations spirits (storeOf threeSpirits) codeUnitCompare
          sushiPage (sushiRequest (Some true) (Some true))) = [].
Proof.
  split; [|split].
  - apply (food_pairing_recommendations_pass_the_filters spirits
             (storeOf threeSpirits) codeUnitCompare sushiPage
             (sushiRequest None None) "Sushi"
             (mkFoodSymbol "Sushi" "foodSymbol_Sushi" ["sushi"; "sashimi"; "japanese"])
             "003732" ["999999"; "000132"]); reflexivity.
  - vm_compute. reflexivity.
  - apply (food_pairing_recommendations_pass_the_filters spirits
             (storeOf threeSpirits) codeUnitCompare sushiPage
             (sushiRequest (Some true) (Some true)) "Sushi"
             (mkFoodSymbol "Sushi" "foodSymbol_Sushi" ["sushi"; "sashimi"; "japanese"])
             "003732" ["999999"; "000132"]); reflexivity.
Defined.

Lemma fallback_recommendations_are_ranked_search_results_witness :
  (length (Recommend.recommendations
             (Recommend.getRecommendations spirits (storeOf threeSpirits)
                codeUnitCompare sushiPage giftRequest)) <= 2)%nat
  /\ descending (scoreOf giftRequest)
       (Recommend.recommendations
          (Recommend.getRecommendations spirits (storeOf threeSpirits)
             codeUnitCompare sushiPage giftRequest)).
Proof.
  destruct (fallback_recommendations_are_ranked_search_results spirits
              (storeOf threeSpirits) codeUnitCompare sushiPage giftRequest)
    as (Hlen & _ & Hdesc & _).
  - reflexivity.
  - split; [exact Hlen|exact Hdesc].
Defined.

End RecommendFacts.

(** ** The HTTP front: who reaches the tools *)

Module ServerFacts.
Import Js JsFacts Server.

Lemma startsWith_split s t :
  startsWith s t = true -> s = t ++ sliceFrom (String.length t) s.
Proof.
  revert s. induction t as [|c t IH]; intros s; [done|].
  destruct s as [|d s]; [done|]. simpl.
  intros [->%Ascii.eqb_eq Ht]%andb_true_iff.
  change (String d s = String d (t ++ sliceFrom (String.length t) s)).
  by rewrite <- IH.
Qed.

Lemma sliceFrom_app t s : sliceFrom (String.length t) (t ++ s) = s.
Proof. induction t as [|c t IH]; [by destruct s|exact IH]. Qed.

Lemma startsWith_prefix t s : startsWith (t ++ s) t = true.
Proof.
  induction t as [|c t IH]; [apply startsWith_empty|].
  simpl. by rewrite Ascii.eqb_refl.
Qed.

(** X28.  With an API token configured, a request reaches the MCP
    transport only on the paths [/mcp] and [/] and only with an
    [Authorization] header that is [Bearer ] followed by the token, or
    the token itself when the token does not begin with [Bearer ]; the
    health check alone is answered without a token.  Without a
    configured token every request to those paths is handled. *)
Theorem only_the_configured_token_reaches_the_tools apiToken req :
  (forall token, truthyOpt apiToken = Some token ->
     handle apiToken req = HandledByMcp <->
     (url req = "/mcp" \/ url req = "/")
     /\ (authorization req = Some ("Bearer " ++ token)
         \/ (authorization req = Some token
             /\ startsWith token "Bearer " = false)))
  /\ (truthyOpt apiToken = None ->
      handle apiToken req = HandledByMcp <->
      url req = "/mcp" \/ url req = "/")
  /\ (handle apiToken req = Healthy <-> url req = "/health" /\ method req = "GET").
Proof.
  assert (Hurl : String.eqb (url req) "/mcp" || String.eqb (url req) "/" = true
                 <-> url req = "/mcp" \/ url req = "/").
  { rewrite orb_true_iff, !String.eqb_eq. done. }
  assert (Hnot : (url req = "/mcp" \/ url req = "/") ->
                 String.eqb (url req) "/health" = false).
  { intros [->| ->]; reflexivity. }
  split; [|split].
  - intros token Htoken. unfold handle, validateApiToken. rewrite Htoken.
    assert (Hne : token <> "").
    { intros ->. unfold truthyOpt in Htoken. by destruct apiToken as [[|]|]. }
    split.
    + destruct (String.eqb (url req) "/health" && String.eqb (method req) "GET");
        [done|].
      destruct (truthyOpt (authorization req)) as [authHeader|] eqn:Hauth;
        cbn [negb]; [|done].
      assert (Ha : authorization req = Some authHeader).
      { unfold truthyOpt in Hauth. destruct (authorization req) as [h|]; [|done].
        destruct (truthy h); [|done]. by injection Hauth as ->. }
      destruct (startsWith authHeader "Bearer ") eqn:Hb.
      * destruct (String.eqb_spec (sliceFrom 7 authHeader) token) as [Ht|]; [|done].
        cbn [negb].
        destruct (String.eqb (url req) "/mcp" || String.eqb (url req) "/") eqn:Hu;
          [|done].
        intros _. split; [by apply Hurl|]. left. rewrite Ha. f_equal.
        rewrite <- Ht. by apply (startsWith_split authHeader "Bearer ").
      * destruct (String.eqb_spec authHeader token) as [Ht|]; [|done]. cbn [negb].
        destruct (String.eqb (url req) "/mcp" || String.eqb (url req) "/") eqn:Hu;
          [|done].
        intros _. split; [by apply Hurl|]. right. subst. done.
    + intros [Hu Hauth]. rewrite (Hnot Hu). cbn [andb].
      rewrite (proj2 Hurl Hu).
      destruct Hauth as [Ha|[Ha Hb]]; rewrite Ha.
      * change (truthyOpt (Some ("Bearer " ++ token)))
          with (Some ("Bearer " ++ token)).
        cbv beta iota. rewrite (startsWith_prefix "Bearer " token).
        change 7%nat with (String.length "Bearer ").
        by rewrite (sliceFrom_app "Bearer " token), String.eqb_refl.
      * unfold truthyOpt. destruct token as [|c token]; [done|]. cbn [truthy].
        by rewrite Hb, String.eqb_refl.
  - intros Hnone. unfold handle, validateApiToken. rewrite Hnone. cbn [negb].
    split.
    + destruct (String.eqb (url req) "/health" && String.eqb (method req) "GET");
        [done|].
      destruct (String.eqb (url req) "/mcp" || String.eqb (url req) "/") eqn:Hu;
        [|done].
      intros _. by apply Hurl.
    + intros Hu. rewrite (Hnot Hu). cbn [andb]. by rewrite (proj2 Hurl Hu).
  - unfold handle.
    destruct (String.eqb (url req) "/health" && String.eqb (method req) "GET") eqn:Hh.
    + apply andb_true_iff in Hh as [?%String.eqb_eq ?%String.eqb_eq]. done.
    + split.
      * destruct (negb (validateApiToken apiToken req)); [done|].
        by destruct (String.eqb (url req) "/mcp" || String.eqb (url req) "/").
      * intros [Hu Hm]. by rewrite Hu, Hm in Hh.
Qed.

End ServerFacts.

(** ** Reading the availability panel *)

Module AvailabilityScrapeFacts.
Import Js JsFacts Enrichment AvailabilityScrape AvailabilitySpec.
Import Examples MoreExamples.

Lemma onlyDigits_digitsPrefix s : onlyDigits (digitsPrefix s) = digitsPrefix s.
Proof.
  induction s as [|c s IH]; [done|]. cbn [digitsPrefix].
  destruct (StoreHours.isDigit c) eqn:Hc; [|done].
  cbn [onlyDigits]. by rewrite Hc, IH.
Qed.

Lemma firstDigits_onlyDigits s digits :
  firstDigits s = Some digits -> onlyDigits digits = digits.
Proof.
  revert digits. induction s as [|c s IH]; intros digits; [done|].
  cbn [firstDigits]. destruct (StoreHours.isDigit c); [|apply IH].
  intros [= <-]. apply (onlyDigits_digitsPrefix (String c s)).
Qed.

Lemma digitValue_nonneg c : StoreHours.isDigit c = true -> 0 <= StoreHours.digitValue c.
Proof.
  unfold StoreHours.isDigit, StoreHours.digitValue.
  intros [H _]%andb_true_iff. apply N.leb_le in H. lia.
Qed.

Lemma decimal_nonneg acc s : 0 <= acc -> 0 <= decimal acc (onlyDigits s).
Proof.
  revert acc. induction s as [|c s IH]; intros acc Hacc; [done|].
  cbn [onlyDigits]. destruct (StoreHours.isDigit c) eqn:Hc; [|by apply IH].
  cbn [decimal]. apply IH. pose proof (digitValue_nonneg c Hc). lia.
Qed.

(** What the loop over the store items returns, given the names seen. *)
Lemma scrapeItems_spec storeItems seenStores :
  NoDup (map s_storeName (scrapeItems storeItems seenStores))
  /\ Forall (fun data =>
               truthy (s_storeName data) = true
               /\ ~ In (s_storeName data) seenStores
               /\ exists item,
                    In item storeItems /\ s_storeName data = nameOf item
                    /\ s_amount data
                       = default "0" (firstDigits (quantityTextOf item)))
            (scrapeItems storeItems seenStores).
Proof.
  revert seenStores. induction storeItems as [|item rest IH]; intros seen.
  { split; constructor. }
  cbn [scrapeItems]. fold (nameOf item). fold (quantityTextOf item).
  assert (Hrest : forall seen',
    (forall x, In x seen -> In x seen') ->
    Forall (fun data =>
              truthy (s_storeName data) = true
              /\ ~ In (s_storeName data) seen
              /\ exists item',
                   In item' (item :: rest) /\ s_storeName data = nameOf item'
                   /\ s_amount data
                      = default "0" (firstDigits (quantityTextOf item')))
           (scrapeItems rest seen')).
  { intros seen' Hsub. destruct (IH seen') as [_ Hall].
    eapply List.Forall_impl; [|exact Hall].
    intros data (Ht & Hn & item' & Hin & Hname & Hamount).
    split; [done|]. split; [by intros ?%Hsub|].
    exists item'. split; [by right|done]. }
  destruct (truthy (nameOf item)) eqn:Ht; cbn [negb].
  - destruct (existsb (String.eqb (nameOf item)) seen) eqn:Hseen.
    + split; [apply IH|]. by apply Hrest.
    + assert (Hnew : ~ In (nameOf item) seen).
      { intros H%EnrichmentMoreFacts.seen_In. congruence. }
      destruct (IH (nameOf item :: seen)) as [Hnd Hall]. split.
      * cbn [map s_storeName]. apply NoDup_cons. split; [|done].
        intros Hin%list_elem_of_In%in_map_iff. destruct Hin as (data & Hname & Hin).
        rewrite List.Forall_forall in Hall.
        destruct (Hall data Hin) as (_ & Hn & _). apply Hn. left. done.
      * constructor.
        -- cbn [s_storeName s_amount]. split; [done|]. split; [done|].
           exists item. split; [by left|done].
        -- apply Hrest. intros x ?. by right.
  - split; [apply IH|]. by apply Hrest.
Qed.

Lemma convert_spec productId clock k scraped :
  map SA.storeName (convert productId clock k scraped) = map s_storeName scraped
  /\ Forall (fun r => exists data,
               In data scraped
               /\ SA.storeName r = s_storeName data
               /\ SA.quantity r = quantityOf (s_amount data)
               /\ SA.status r = statusOf (SA.quantity r)
               /\ SA.productId r = productId
               /\ SA.id r = key r)
            (convert productId clock k scraped).
Proof.
  revert k. induction scraped as [|data rest IH]; intros k; [split; constructor|].
  destruct (IH (S k)) as [Hnames Hall]. cbn [convert map]. split.
  - by rewrite Hnames.
  - constructor.
    + exists data. split; [by left|]. done.
    + eapply List.Forall_impl; [|exact Hall].
      intros r (d & Hin & H). exists d. split; [by right|done].
Qed.

(** X29.  A scrape of the availability panel yields one record for each
    store name met, in page order and none twice; a record carries the
    name read from its store item, as quantity the first number of the
    item's quantity text (0 when it shows none), a status that follows
    from the quantity (above 5 in stock, 1 to 5 low, 0 out of stock) and
    the document id [productId_storeId]. *)
Theorem scraped_stores_are_distinct_with_status_by_quantity
    productId clock k root :
  let records := stores productId clock k root in
  NoDup (map SA.storeName records)
  /\ Forall (fun r =>
               truthy (SA.storeName r) = true
               /\ SA.productId r = productId /\ SA.id r = key r
               /\ match SA.status r with
                  | SA.in_stock => 5 < SA.quantity r
                  | SA.low_stock => 0 < SA.quantity r <= 5
                  | SA.out_of_stock => SA.quantity r = 0
                  end
               /\ exists item,
                    In item (documentAll isStoreItem root)
                    /\ SA.storeName r = nameOf item
                    /\ SA.quantity r
                       = decimal 0 (default "0" (firstDigits (quantityTextOf item))))
            records.
Proof.
  cbv zeta. unfold stores, scrapedData.
  destruct (scrapeItems_spec (documentAll isStoreItem root) []) as [Hnd Hscraped].
  destruct (convert_spec productId clock k
              (scrapeItems (documentAll isStoreItem root) [])) as [Hnames Hconv].
  split; [by rewrite Hnames|].
  eapply List.Forall_impl; [|exact Hconv].
  intros r (data & Hin & Hname & Hq & Hs & Hp & Hid).
  rewrite List.Forall_forall in Hscraped.
  destruct (Hscraped data Hin) as (Ht & _ & item & Hitem & Hdn & Hda).
  assert (Hdigits : onlyDigits (s_amount data) = s_amount data).
  { rewrite Hda. destruct (firstDigits (quantityTextOf item)) eqn:Hf; [|done].
    by apply (firstDigits_onlyDigits (quantityTextOf item)). }
  assert (Hnn : 0 <= SA.quantity r).
  { rewrite Hq. by apply decimal_nonneg. }
  split; [by rewrite Hname|]. split; [done|]. split; [done|]. split.
  - rewrite Hs. unfold statusOf.
    destruct (Z.ltb_spec 5 (SA.quantity r)); [done|].
    destruct (Z.ltb_spec 0 (SA.quantity r)); lia.
  - exists item. split; [done|]. split; [by rewrite Hname|].
    rewrite Hq. unfold quantityOf. by rewrite Hdigits, Hda.
Qed.

End AvailabilityScrapeFacts.

(** ** Store hours after a refresh *)

Module StoreRefreshFacts.
Import Js JsFacts Outlet StoreHours StoreHoursFacts StoreHoursSpec.
Import Examples MoreExamples.

Section WithEnvironment.
Variable clock : nat -> Date.
Variable localeCompare : string -> string -> Z.
Variable logClock : nat -> Timestamp.
Variable dateOf : Timestamp -> Date.
Variable scrapeStores : list Store + string.

Local Abbreviation upsertStore := (Sync.upsertStore logClock dateOf).
Local Abbreviation refreshStores := (Sync.refreshStores logClock dateOf scrapeStores).

Lemma getStore_setStore doc collection sid :
  getStore (Sync.setStore doc collection) sid
  = if String.eqb (id doc) sid then Some doc else getStore collection sid.
Proof.
  unfold getStore. induction collection as [|d rest IH]; cbn [Sync.setStore find].
  { by destruct (String.eqb (id doc) sid). }
  destruct (String.eqb_spec (id d) (id doc)) as [Hd|Hd]; cbn [find].
  - rewrite Hd. by destruct (String.eqb (id doc) sid).
  - destruct (String.eqb_spec (id d) sid) as [Hs|Hs].
    + destruct (String.eqb_spec (id doc) sid); [congruence|done].
    + exact IH.
Qed.

Lemma getStore_upserts st scraped sid :
  if existsb (fun s => String.eqb (id s) sid) scraped then
    exists s t, In s scraped /\ id s = sid
      /\ getStore (Sync.stores (foldl upsertStore st scraped)) sid
         = Some (Sync.stamped s (dateOf t))
  else
    getStore (Sync.stores (foldl upsertStore st scraped)) sid
    = getStore (Sync.stores st) sid.
Proof.
  revert st. induction scraped as [|x xs IH]; intros st; [done|].
  cbn [existsb foldl]. specialize (IH (upsertStore st x)).
  destruct (existsb (fun s => String.eqb (id s) sid) xs).
  - rewrite orb_true_r. destruct IH as (s & t & Hin & Hid & Hget).
    exists s, t. split; [by right|done].
  - rewrite orb_false_r. rewrite IH. cbn [Sync.upsertStore Sync.stores].
    rewrite getStore_setStore. cbn [Sync.stamped id].
    destruct (String.eqb_spec (id x) sid) as [Hx|Hx]; [|done].
    exists x, (logClock (Sync.tick st)). split; [by left|done].
Qed.

(** The store that the request finds after the refresh. *)
Lemma refreshed_store s0 collection sid old :
  getStore collection sid = Some old ->
  exists collection' fetched,
    refreshStores s0 collection = (collection', None)
    /\ getStore collection' sid = Some fetched
    /\ match scrapeStores with
       | inl scraped =>
           if existsb (fun s => String.eqb (id s) sid) scraped then
             exists s t, In s scraped /\ id s = sid
                         /\ fetched = Sync.stamped s (dateOf t)
           else fetched = old
       | inr _ => fetched = old
       end.
Proof.
  intros Hold. unfold Sync.refreshStores, Sync.syncStores.
  cbn [Sync.createSyncLog]. destruct scrapeStores as [scraped|message].
  - cbn [snd Sync.completeSyncLog Sync.stores].
    set (s1 := {| Sync.products := _; Sync.stores := collection;
                  Sync.syncLogs := _; Sync.tick := _ |}).
    pose proof (getStore_upserts s1 scraped sid) as H.
    destruct (existsb (fun s => String.eqb (id s) sid) scraped).
    + destruct H as (s & t & Hin & Hid & Hget).
      eexists _, _. split; [done|]. split; [exact Hget|]. eauto.
    + eexists _, _. split; [done|]. split; [|done]. by rewrite H.
  - cbn [snd Sync.failSyncLog Sync.stores]. eexists _, _. done.
Qed.

(** X30.  A store asked for by its id, whose hours were not captured
    today, makes the tool run the store sync, and the answer is marked
    as refreshed without an error whether or not the scrape worked:
    the sync absorbs a failed scrape.  The answer carries the hours of
    the store only if the scrape delivered that store; when the scrape
    failed or its listing lacks the store, the hours stay unknown and
    the store is not open, in an answer that says it was refreshed. *)
Theorem refresh_is_reported_even_when_the_store_was_not_scraped
    today s0 input collection k sid old :
  (forall j, sameDay (clock j) today = true) ->
  (forall t, sameDay (dateOf t) today = true) ->
  truthyOpt (storeId input) = Some sid ->
  truthyOpt (storeName input) = None ->
  openNow input = None -> (1 <= limit input)%nat ->
  getStore collection sid = Some old ->
  capturedOn today old = false ->
  let answer :=
    (getStoreHours clock localeCompare (refreshStores s0) input collection k).1.1 in
  refreshed answer = true /\ refreshError answer = None
  /\ exists e,
       stores answer = [e]
       /\ match scrapeStores with
          | inl scraped =>
              if existsb (fun s => String.eqb (id s) sid) scraped then
                exists s, In s scraped /\ id s = sid /\ e_id e = sid
                  /\ e_openingHoursToday e = openingHoursToday s
                  /\ e_openingHoursTomorrow e = openingHoursTomorrow s
              else
                e_id e = id old /\ e_openingHoursToday e = None
                /\ e_openingHoursTomorrow e = None /\ e_isOpenNow e = false
          | inr _ =>
              e_id e = id old /\ e_openingHoursToday e = None
              /\ e_openingHoursTomorrow e = None /\ e_isOpenNow e = false
          end.
Proof.
  intros Hday Hwrite Hsid Hname Hopen Hlimit Hold Hstale. cbv zeta.
  destruct (refreshed_store s0 collection sid old Hold)
    as (collection' & fetched & Hsync & Hfetched & Hwhich).
  assert (Hfetch : forall c, fetchStores localeCompare input c
                    = match getStore c sid with Some s => [s] | None => [] end).
  { intros c. unfold fetchStores. by rewrite Hsid, Hname. }
  unfold getStoreHours.
  rewrite (Hfetch collection), Hold.
  pose proof (StoreHoursMoreFacts.someStale_anyStale clock today [old] k Hday) as Hs.
  assert (Hany : anyStale today [old] = true).
  { unfold anyStale. cbn [existsb]. by rewrite Hstale. }
  rewrite Hany in Hs. clear Hany.
  destruct (someStale clock [old] k) as [hasStale k1]. cbn [fst] in Hs. subst hasStale.
  unfold refresh. rewrite Hsync, (Hfetch collection'), Hfetched.
  destruct (someStale clock [fetched] k1) as [isDataStale k2].
  cbn [mapEntries].
  pose proof (toEntry_fields clock fetched k2) as (Hid & _ & Hst & Hfr).
  pose proof (isStoreDataStale_capturedOn clock today fetched k2 Hday) as Hc.
  destruct (toEntry clock fetched k2) as [e k3]. cbn [fst] in *.
  rewrite Hopen. cbn [fst stores refreshed refreshError].
  split; [done|]. split; [done|]. exists e. split.
  { unfold slice. rewrite Nat.sub_0_r, drop_0.
    destruct (limit input) as [|n]; [lia|]. cbn [take]. by rewrite take_nil. }
  assert (Hkeep : fetched = old ->
            e_id e = id old /\ e_openingHoursToday e = None
            /\ e_openingHoursTomorrow e = None /\ e_isOpenNow e = false).
  { intros ->. split; [done|]. apply Hst. by rewrite Hc, Hstale. }
  destruct scrapeStores as [scraped|message]; [|by apply Hkeep].
  destruct (existsb (fun s => String.eqb (id s) sid) scraped); [|by apply Hkeep].
  destruct Hwhich as (s & t & Hin & Hids & ->).
  exists s. split; [done|]. split; [done|]. split; [by rewrite Hid|].
  apply Hfr. rewrite Hc. unfold capturedOn. cbn [Sync.stamped updatedAt].
  by rewrite Hwrite.
Qed.

End WithEnvironment.

(** Arkadia's hours are a day old and the store scrape times out: the
    answer says it was refreshed, reports no error and has no hours. *)
Lemma refresh_is_reported_even_when_the_store_was_not_scraped_witness :
  refreshed (getStoreHours afternoon codeUnitCompare
               (Sync.refreshStores counterClock writtenOnSecond
                  storeScrapeTimesOut enrichedDb)
               arkadiaRequest [arkadia] 0).1.1 = true
  /\ refreshError (getStoreHours afternoon codeUnitCompare
                     (Sync.refreshStores counterClock writtenOnSecond
                        storeScrapeTimesOut enrichedDb)
                     arkadiaRequest [arkadia] 0).1.1 = None
  /\ exists e,
       stores (getStoreHours afternoon codeUnitCompare
                 (Sync.refreshStores counterClock writtenOnSecond
                    storeScrapeTimesOut enrichedDb)
                 arkadiaRequest [arkadia] 0).1.1 = [e]
       /\ e_id e = "2102" /\ e_openingHoursToday e = None
       /\ e_openingHoursTomorrow e = None /\ e_isOpenNow e = false.
Proof.
  apply (refresh_is_reported_even_when_the_store_was_not_scraped
           afternoon codeUnitCompare counterClock writtenOnSecond
           storeScrapeTimesOut (mkDate 2026 10 2 0) enrichedDb
           arkadiaRequest [arkadia] 0 "2102" arkadia).
  - intros j. reflexivity.
  - intros t. reflexivity.
  - reflexivity.
  - reflexivity.
  - reflexivity.
  - cbn. lia.
  - reflexivity.
  - reflexivity.
Defined.

End StoreRefreshFacts.
